(** * pdb++ (pdbpp.py): the interactive session core, embedded and verified

    The development follows [src/pdbpp.py].  Python values are embedded
    shallowly: [str] is a list of characters, [int] is [Z], [dict] is a
    [gmap], a list is a [list], [None]-able values are [option]s, and a call
    that may raise returns an [outcome].  Mutable attributes of the debugger
    instance ([self]) are the fields of the record [Pdb]; a method that
    assigns to them returns the updated record. *)

From Stdlib Require Import ZArith List Ascii String Lia Bool.
From stdpp Require Import gmap strings list.
Import ListNotations.

Set Default Proof Using "Type".

(** ** Python values *)

Module Py.

(** A Python [str]; characters are code points below 256. *)
Definition str := list ascii.

(** String literals. *)
Definition py (s : string) : str := list_ascii_of_string s.

(** The double quote character. *)
Definition dquote : ascii := ascii_of_nat 34.

Inductive exn :=
| IndexError
| KeyError
| TypeError
| AssertionError
| AttributeError
| ValueError.

(** The result of a call: a value, or a raised exception. *)
Inductive outcome (A : Type) :=
| Ok (a : A)
| Raise (e : exn).
Arguments Ok {A} a.
Arguments Raise {A} e.

#[global] Instance outcome_ret : MRet outcome := fun A a => Ok a.
#[global] Instance outcome_bind : MBind outcome := fun A B k m =>
  match m with
  | Ok a => k a
  | Raise e => Raise e
  end.

(** The values that the modelled code inspects. *)
Inductive pyval :=
| PyNone
| PyBool (b : bool)
| PyInt (z : Z)
| PyStr (s : str)
| PyObj (oid : nat).

#[global] Instance pyval_eq_dec : EqDecision pyval.
Proof. solve_decision. Defined.

(** [bool(v)] *)
Definition truthy (v : pyval) : bool :=
  match v with
  | PyNone => false
  | PyBool b => b
  | PyInt z => negb (z =? 0)%Z
  | PyStr s => match s with [] => false | _ => true end
  | PyObj _ => true
  end.

(** White space ([\s], [str.isspace]) among the code points below 256. *)
Definition is_space (c : ascii) : bool :=
  let n := nat_of_ascii c in
  ((9 <=? n) && (n <=? 13)) || ((28 <=? n) && (n <=? 32))
  || (n =? 133) || (n =? 160).

(** Decimal digits ([\d]) among the code points below 256. *)
Definition is_digit (c : ascii) : bool :=
  (48 <=? nat_of_ascii c) && (nat_of_ascii c <=? 57).

Definition is_ascii_letter (c : ascii) : bool :=
  let n := nat_of_ascii c in
  ((65 <=? n) && (n <=? 90)) || ((97 <=? n) && (n <=? 122)).

(** Word characters ([\w]) among the code points below 256: what
    [str.isalnum] accepts, and the underscore. *)
Definition is_word (c : ascii) : bool :=
  let n := nat_of_ascii c in
  is_ascii_letter c || is_digit c || (n =? 95)
  || (n =? 170) || (n =? 178) || (n =? 179) || (n =? 181) || (n =? 185)
  || (n =? 186) || ((188 <=? n) && (n <=? 190))
  || ((192 <=? n) && (n <=? 214)) || ((216 <=? n) && (n <=? 246))
  || (248 <=? n).

Section Sequences.
Context {A : Type}.

(** [len(l)] *)
Definition len (l : list A) : Z := Z.of_nat (length l).

(** A slice bound, clamped as Python clamps it. *)
Definition clamp (l : list A) (i : Z) : nat :=
  if (i <? 0)%Z then Z.to_nat (len l + i) else Z.to_nat i.

(** [l[:stop]] *)
Definition slice_to (l : list A) (stop : Z) : list A :=
  take (clamp l stop) l.

(** [l[start:]] *)
Definition slice_from (l : list A) (start : Z) : list A :=
  drop (clamp l start) l.

(** [l[start:stop]] *)
Definition slice (l : list A) (start stop : Z) : list A :=
  drop (clamp l start) (take (clamp l stop) l).

(** [l[i]], with negative indices counted from the end. *)
Definition index (l : list A) (i : Z) : outcome A :=
  let j := if (i <? 0)%Z then (len l + i)%Z else i in
  if (j <? 0)%Z then Raise IndexError
  else match nth_error l (Z.to_nat j) with
       | Some a => Ok a
       | None => Raise IndexError
       end.

(** [l.pop()]: the last element and the list without it. *)
Definition pop (l : list A) : outcome (A * list A) :=
  match rev l with
  | a :: _ => Ok (a, removelast l)
  | [] => Raise IndexError
  end.

(** [enumerate(l, start)] *)
Fixpoint enumerate (l : list A) (start : Z) : list (Z * A) :=
  match l with
  | [] => []
  | a :: l' => (start, a) :: enumerate l' (start + 1)
  end.
End Sequences.

End Py.
Import Py.

(** ** Frames and the debugger instance *)

(** A constant of a code object; [HIDE_FRAME] is the module's marker object
    [_HIDE_FRAME], which [hideframe] appends to [co_consts]. *)
Inductive pyconst :=
| HIDE_FRAME
| Const (v : pyval).

(** [frame.f_locals] is usually a dict, but "might be a list". *)
Inductive locals_t :=
| LocalsDict (d : gmap str pyval)
| LocalsList (l : list pyval).

(** A frame of the host runtime.  [f_id] is the identity of the frame
    object: [f is g] compares it. *)
Record frame := Frame {
  f_id : nat;
  co_consts : list pyconst;
  f_globals : gmap str pyval;
  f_locals : locals_t;
  f_lineno : Z;
}.

Definition frame_is (f g : frame) : bool := Nat.eqb (f_id f) (f_id g).

(** [frame is x] where [x] may be [None]. *)
Definition frame_is_opt (f : frame) (x : option frame) : bool :=
  match x with
  | Some g => frame_is f g
  | None => false
  end.

(** [name in mapping] *)
Definition in_globals (name : str) (d : gmap str pyval) : bool :=
  bool_decide (is_Some (d !! name)).

(** [name in f_locals]: key membership for a dict, element membership for a
    list. *)
Definition in_locals (name : str) (l : locals_t) : bool :=
  match l with
  | LocalsDict d => bool_decide (is_Some (d !! name))
  | LocalsList vs => bool_decide (PyStr name ∈ vs)
  end.

(** [f_locals[name]]: [KeyError] for a missing key, [TypeError] for a list
    indexed by a string. *)
Definition locals_getitem (l : locals_t) (name : str) : outcome pyval :=
  match l with
  | LocalsDict d => match d !! name with
                    | Some v => Ok v
                    | None => Raise KeyError
                    end
  | LocalsList _ => Raise TypeError
  end.

Definition globals_getitem (d : gmap str pyval) (name : str) : outcome pyval :=
  match d !! name with
  | Some v => Ok v
  | None => Raise KeyError
  end.

Definition stack_entry : Type := frame * Z.

Inductive event :=
| PrintCurrentStackEntry.

(** The attributes of a [Pdb] instance that the modelled methods read or
    write. *)
Record Pdb := MkPdb {
  enable_hidden_frames : bool;            (* self.config.enable_hidden_frames *)
  show_hidden_frames : bool;
  _hidden_frames : list stack_entry;
  _via_set_trace_frame : option frame;    (* None: attribute not set *)
  fullstack : list stack_entry;
  stack : list stack_entry;
  curindex : Z;
  curframe : option frame;
  curframe_locals : locals_t;
  tb_lineno : gmap nat Z;                 (* keyed by frame identity *)
  _lastcompstate : option str * Z;
  _completions : list str;
  _pdbpp_executing_rc_lines : bool;
  attrs : gset str;                       (* names for which hasattr holds *)
  use_colors : bool;                      (* fancycompleter.config.use_colors *)
  output : list event;
}.

Definition set_hidden_frames (self : Pdb) (h : list stack_entry) : Pdb :=
  MkPdb (enable_hidden_frames self) (show_hidden_frames self) h
    (_via_set_trace_frame self) (fullstack self) (stack self) (curindex self)
    (curframe self) (curframe_locals self) (tb_lineno self)
    (_lastcompstate self) (_completions self) (_pdbpp_executing_rc_lines self)
    (attrs self) (use_colors self) (output self).


Definition set_stack (self : Pdb) (st : list stack_entry) : Pdb :=
  MkPdb (enable_hidden_frames self) (show_hidden_frames self)
    (_hidden_frames self) (_via_set_trace_frame self) (fullstack self) st
    (curindex self) (curframe self) (curframe_locals self) (tb_lineno self)
    (_lastcompstate self) (_completions self) (_pdbpp_executing_rc_lines self)
    (attrs self) (use_colors self) (output self).

Definition set_curindex (self : Pdb) (i : Z) : Pdb :=
  MkPdb (enable_hidden_frames self) (show_hidden_frames self)
    (_hidden_frames self) (_via_set_trace_frame self) (fullstack self)
    (stack self) i (curframe self) (curframe_locals self) (tb_lineno self)
    (_lastcompstate self) (_completions self) (_pdbpp_executing_rc_lines self)
    (attrs self) (use_colors self) (output self).

Definition set_curframe (self : Pdb) (f : option frame) : Pdb :=
  MkPdb (enable_hidden_frames self) (show_hidden_frames self)
    (_hidden_frames self) (_via_set_trace_frame self) (fullstack self)
    (stack self) (curindex self) f (curframe_locals self) (tb_lineno self)
    (_lastcompstate self) (_completions self) (_pdbpp_executing_rc_lines self)
    (attrs self) (use_colors self) (output self).

Definition set_lastcompstate (self : Pdb) (st : option str * Z) : Pdb :=
  MkPdb (enable_hidden_frames self) (show_hidden_frames self)
    (_hidden_frames self) (_via_set_trace_frame self) (fullstack self)
    (stack self) (curindex self) (curframe self) (curframe_locals self)
    (tb_lineno self) st (_completions self) (_pdbpp_executing_rc_lines self)
    (attrs self) (use_colors self) (output self).

Definition set_completions (self : Pdb) (cs : list str) : Pdb :=
  MkPdb (enable_hidden_frames self) (show_hidden_frames self)
    (_hidden_frames self) (_via_set_trace_frame self) (fullstack self)
    (stack self) (curindex self) (curframe self) (curframe_locals self)
    (tb_lineno self) (_lastcompstate self) cs (_pdbpp_executing_rc_lines self)
    (attrs self) (use_colors self) (output self).

Definition emit (self : Pdb) (e : event) : Pdb :=
  MkPdb (enable_hidden_frames self) (show_hidden_frames self)
    (_hidden_frames self) (_via_set_trace_frame self) (fullstack self)
    (stack self) (curindex self) (curframe self) (curframe_locals self)
    (tb_lineno self) (_lastcompstate self) (_completions self)
    (_pdbpp_executing_rc_lines self) (attrs self) (use_colors self)
    (output self ++ [e]).

(** [hasattr(self, name)] *)
Definition hasattr (self : Pdb) (name : str) : bool :=
  bool_decide (name ∈ attrs self).

(** ** Hidden frames: [_is_hidden], [compute_stack], [refresh_stack] *)

Module Visibility.

(** [consts and consts[-1] is _HIDE_FRAME] *)
Definition has_hide_marker (consts : list pyconst) : bool :=
  match rev consts with
  | HIDE_FRAME :: _ => true
  | _ => false
  end.

(** [hideframe(func)]: the decorator appends the marker to [co_consts]. *)
Definition hideframe (consts : list pyconst) : list pyconst :=
  consts ++ [HIDE_FRAME].

(** [frame.f_globals.get("__unittest")], as a condition. *)
Definition unittest_marker (f : frame) : bool :=
  match f_globals f !! py "__unittest" with
  | Some v => truthy v
  | None => false
  end.

(** The lookup of [__tracebackhide__]: the locals first; on [TypeError] or
    [KeyError] the globals; on [TypeError] or [KeyError] again, not hidden.
    The two lookups raise nothing else. *)
Definition tracebackhide (f : frame) : bool :=
  match locals_getitem (f_locals f) (py "__tracebackhide__") with
  | Ok tbh => truthy tbh
  | Raise _ =>
      match globals_getitem (f_globals f) (py "__tracebackhide__") with
      | Ok tbh => truthy tbh
      | Raise _ => false
      end
  end.

Definition _is_hidden (self : Pdb) (f : frame) : bool :=
  if negb (enable_hidden_frames self) then false
  else if has_hide_marker (co_consts f) then true
  else if frame_is_opt f (_via_set_trace_frame self) then false
  else if unittest_marker f then true
  else tracebackhide f.

(** The loop of [compute_stack]: every entry is appended to one of the two
    lists. *)
Fixpoint split_stack (self : Pdb) (fullstack hidden newstack : list stack_entry)
  : list stack_entry * list stack_entry :=
  match fullstack with
  | [] => (hidden, newstack)
  | (f, lineno) :: rest =>
      if _is_hidden self f
      then split_stack self rest (hidden ++ [(f, lineno)]) newstack
      else split_stack self rest hidden (newstack ++ [(f, lineno)])
  end.

Definition compute_stack (self : Pdb) (fullstack : list stack_entry)
    (idx : option Z) : outcome (Pdb * (list stack_entry * Z)) :=
  match fullstack with
  | [] => Ok (self, (fullstack, match idx with Some i => i | None => 0%Z end))
  | _ :: _ =>
      let idx := match idx with
                 | Some i => i
                 | None => (len fullstack - 1)%Z
                 end in
      if show_hidden_frames self then Ok (self, (fullstack, idx))
      else
        let '(hidden, newstack) := split_stack self fullstack [] [] in
        '(hidden, newstack) ←
          match newstack with
          | [] => '(e, hidden') ← pop hidden; Ok (hidden', [e])
          | _ :: _ => Ok (hidden, newstack)
          end;
        let newidx := (idx - len hidden)%Z in
        Ok (set_hidden_frames self hidden, (newstack, newidx))
  end.

(** The [for ... else] of [refresh_stack]: the position of the first entry
    whose frame is the current frame. *)
Fixpoint find_frame (st : list stack_entry) (cur : option frame) (i : Z)
  : option Z :=
  match st with
  | [] => None
  | (f, _) :: rest =>
      if frame_is_opt f cur then Some i else find_frame rest cur (i + 1)
  end.

Definition refresh_stack (self : Pdb) : outcome Pdb :=
  '(self, (st, _)) ← compute_stack self (fullstack self) None;
  let self := set_stack self st in
  match find_frame (stack self) (curframe self) 0 with
  | Some i => Ok (set_curindex self i)
  | None =>
      let self := set_curindex self (len (stack self) - 1) in
      '(f, _) ← index (stack self) (-1);
      let self := set_curframe self (Some f) in
      Ok (emit self PrintCurrentStackEntry)
  end.



(** *** The split of the stack *)

Definition hidden_entry (self : Pdb) (e : stack_entry) : bool :=
  _is_hidden self e.1.

(** *** Concrete stacks *)

Definition plain_pdb : Pdb :=
  MkPdb true false [] None [] [] 0 None (LocalsDict ∅) ∅ (None, 0%Z) [] false
    ∅ false [].

(** [A] sets [__tracebackhide__] in its locals, [B] lives in a module that
    sets [__unittest], [C] sets nothing. *)
Definition frame_A : frame :=
  Frame 1 [] ∅ (LocalsDict {[ py "__tracebackhide__" := PyBool true ]}) 10.

Definition frame_B : frame :=
  Frame 2 [] {[ py "__unittest" := PyBool true ]} (LocalsDict ∅) 20.

Definition frame_C : frame :=
  Frame 3 [] ∅ (LocalsDict ∅) 30.

Definition stack_ABC : list stack_entry :=
  [(frame_A, 10%Z); (frame_B, 20%Z); (frame_C, 30%Z)].

(** The session stopped in [B], with the stack [A; B; C]. *)
Definition pdb_at_B : Pdb :=
  MkPdb true false [] None stack_ABC stack_ABC 1 (Some frame_B)
    (LocalsDict ∅) ∅ (None, 0%Z) [] false ∅ false [].

(** The session entered by [set_trace] in [A]. *)
Definition pdb_entered_in_A : Pdb :=
  MkPdb true false [] (Some frame_A) [] [] 0 None (LocalsDict ∅) ∅
    (None, 0%Z) [] false ∅ false [].

End Visibility.

(** ** The session singleton: [PdbMeta.__call__] *)

Module Singleton.

Record class := Class {
  c_id : nat;                 (* identity of the class object *)
  qualname : str;             (* __qualname__ *)
}.

Definition class_is (C D : class) : bool := Nat.eqb (c_id C) (c_id D).

(** The attributes of a debugger object that the constructor protocol reads
    or writes.  An optional attribute is [None] while it is not set. *)
Record instance := Instance {
  i_class : class;
  _in_interaction : bool;
  _force_use_as_global_pdb : bool;        (* hasattr *)
  has_botframe : bool;                    (* hasattr(self, "botframe") *)
  _env : option (option str);             (* {"HOME": ...} *)
  _use_global_pdb_for_class : option class;
  _set_trace_use_next : bool;
  continuing : bool;                      (* set_continue() was called *)
  stdout : pyval;
  init_kwargs : gmap str pyval;           (* what __init__ received *)
}.

(** The thread-local [local] and the interpreter's trace function. *)
Record state := State {
  GLOBAL_PDB : option instance;
  _pdbpp_in_init : bool;
  tracing : bool;                         (* sys.gettrace() is not None *)
}.

(** A computation on [state] that may raise; the state survives a raise. *)
Definition M (A : Type) : Type := state -> outcome A * state.

#[global] Instance M_ret : MRet M := fun A a st => (Ok a, st).
#[global] Instance M_bind : MBind M := fun A B k m st =>
  match m st with
  | (Ok a, st') => k a st'
  | (Raise e, st') => (Raise e, st')
  end.

(** A call into code that may raise. *)
Definition call {A} (r : outcome A) : M A := fun st => (r, st).

(** What the constructor calls but does not define. *)
Record world := World {
  environ : gmap str str;                               (* os.environ *)
  set_trace_caller : option (str * Z);
    (* PdbMeta.called_for_set_trace(frame): co_filename and f_lineno of the
       frame it found, None for False *)
  sys_stdout : pyval;
  orig_init : gmap str pyval -> outcome unit;           (* pdb.Pdb.__init__ *)
  cls_new : class -> instance;                          (* cls.__new__(cls) *)
  cls_init : instance -> gmap str pyval -> M instance;
    (* obj.__init__ with the arguments; it runs with the thread-local at
       hand, which it may read and write, as when it calls the constructor
       again *)
  setup_streams : instance -> pyval -> outcome instance;
    (* global_pdb._setup_streams(stdout=stdout) *)
}.

(** What the call returns. *)
Inductive result :=
| OrigPdb (kwargs : gmap str pyval)     (* a plain pdb.Pdb *)
| Reused (g : instance)                 (* the global instance *)
| Created (obj : instance).

Definition get : M state := fun st => (Ok st, st).

Definition set_in_init (b : bool) : M unit := fun st =>
  (Ok tt, State (GLOBAL_PDB st) b (tracing st)).

Definition set_GLOBAL_PDB (g : option instance) : M unit := fun st =>
  (Ok tt, State g (_pdbpp_in_init st) (tracing st)).

(** [sys.settrace(None)] *)
Definition settrace_None : M unit := fun st =>
  (Ok tt, State (GLOBAL_PDB st) (_pdbpp_in_init st) false).

(** [kwargs.pop(key, default)] *)
Definition kwargs_pop (kwargs : gmap str pyval) (key : str) (default : pyval)
  : pyval * gmap str pyval :=
  match kwargs !! key with
  | Some v => (v, delete key kwargs)
  | None => (default, kwargs)
  end.

(** [kwargs.setdefault(key, v)] *)
Definition kwargs_setdefault (kwargs : gmap str pyval) (key : str) (v : pyval)
  : gmap str pyval :=
  match kwargs !! key with
  | Some _ => kwargs
  | None => <[key := v]> kwargs
  end.

Definition use_global_pdb_for_class (w : world) (obj : instance) (C : class)
  : bool :=
  if match _env obj with
     | Some home => negb (bool_decide (home = environ w !! py "HOME"))
     | None => false
     end then false
  else if class_is (i_class obj) C then true
  else if match _use_global_pdb_for_class obj with
          | Some D => class_is D C
          | None => false
          end then true
  else bool_decide (qualname C = qualname (i_class obj)).

(** The reuse branch: stop tracing, continue, and step on the next
    [set_trace]. *)
Definition prepare_reuse (g : instance) : instance :=
  Instance (i_class g) (_in_interaction g) (_force_use_as_global_pdb g)
    (has_botframe g) (_env g) (_use_global_pdb_for_class g) true true
    (stdout g) (init_kwargs g).

Definition set_force (obj : instance) : instance :=
  Instance (i_class obj) (_in_interaction obj) true (has_botframe obj)
    (_env obj) (_use_global_pdb_for_class obj) (_set_trace_use_next obj)
    (continuing obj) (stdout obj) (init_kwargs obj).

Definition set_env (obj : instance) (home : option str) : instance :=
  Instance (i_class obj) (_in_interaction obj) (_force_use_as_global_pdb obj)
    (has_botframe obj) (Some home) (_use_global_pdb_for_class obj)
    (_set_trace_use_next obj) (continuing obj) (stdout obj) (init_kwargs obj).

Definition PdbMeta_call (w : world) (cls : class) (kwargs : gmap str pyval)
  : M result :=
  st ← get;
  if _pdbpp_in_init st then
    let kwargs := (kwargs_pop kwargs (py "Config") PyNone).2 in
    _ ← call (orig_init w kwargs);
    _ ← set_in_init false;
    mret (OrigPdb kwargs)
  else
    _ ← set_in_init true;
    let global_pdb := GLOBAL_PDB st in
    let '(use_global_pdb, kwargs) :=
      match global_pdb with
      | Some g =>
          kwargs_pop kwargs (py "use_global_pdb")
            (PyBool (negb (_in_interaction g) &&
                     bool_decide (default (py "1")
                                    (environ w !! py "PDBPP_REUSE_GLOBAL_PDB")
                                  = py "1")))
      | None => kwargs_pop kwargs (py "use_global_pdb") (PyBool true)
      end in
    let called_for_set_trace := set_trace_caller w in
    let reuse :=
      match global_pdb, called_for_set_trace with
      | Some g, Some _ =>
          if truthy use_global_pdb &&
             (_force_use_as_global_pdb g || use_global_pdb_for_class w g cls)
          then Some g else None
      | _, _ => None
      end in
    match reuse with
    | Some g =>
        (* global_pdb is local.GLOBAL_PDB itself: every update of the
           object is an update of the thread-local *)
        g ← (if has_botframe g
             then _ ← settrace_None;
                  let g := prepare_reuse g in
                  _ ← set_GLOBAL_PDB (Some g); mret g
             else mret g);
        let stdout := default (sys_stdout w) (kwargs !! py "stdout") in
        g ← call (setup_streams w g stdout);
        _ ← set_GLOBAL_PDB (Some g);
        _ ← set_in_init false;
        mret (Reused g)
    | None =>
        let obj := cls_new w cls in
        let kwargs :=
          match called_for_set_trace with
          | Some (filename, lineno) =>
              kwargs_setdefault
                (kwargs_setdefault kwargs (py "start_filename") (PyStr filename))
                (py "start_lineno") (PyInt lineno)
          | None => kwargs
          end in
        let '(set_global_pdb, kwargs, obj) :=
          match kwargs !! py "set_global_pdb" with
          | Some _ =>
              let '(v, kwargs) :=
                kwargs_pop kwargs (py "set_global_pdb") use_global_pdb in
              (v, kwargs, if truthy v then set_force obj else obj)
          | None => (use_global_pdb, kwargs, obj)
          end in
        obj ← cls_init w obj kwargs;
        obj ← (if truthy set_global_pdb
               then let obj := set_env obj (environ w !! py "HOME") in
                    _ ← set_GLOBAL_PDB (Some obj); mret obj
               else mret obj);
        _ ← set_in_init false;
        mret (Created obj)
    end.

(** An [__init__] that leaves the guard as it finds it: one that does not
    call the constructor again. *)
Definition init_keeps_guard (w : world) : Prop :=
  forall obj kwargs st r st',
    cls_init w obj kwargs st = (r, st') ->
    _pdbpp_in_init st' = _pdbpp_in_init st.

(** An [__init__] that leaves [local.GLOBAL_PDB] as it finds it. *)
Definition init_keeps_global (w : world) : Prop :=
  forall obj kwargs st r st',
    cls_init w obj kwargs st = (r, st') -> GLOBAL_PDB st' = GLOBAL_PDB st.

(** *** A constructor call that raises *)

Definition Pdb_class : class := Class 1 (py "Pdb").

(** The keywords that [Pdb.__init__] and [pdb.Pdb.__init__] accept. *)
Definition accepted_kwargs : gset str :=
  list_to_set (map py ["Config"; "start_lineno"; "start_filename";
                       "completekey"; "stdin"; "stdout"; "skip"; "nosigint";
                       "readrc"]%string).

Definition blank (C : class) : instance :=
  Instance C false false false None None false false PyNone ∅.

Definition init_strict (obj : instance) (kwargs : gmap str pyval)
  : outcome instance :=
  if bool_decide (dom kwargs ⊆ accepted_kwargs)
  then Ok (Instance (i_class obj) (_in_interaction obj)
             (_force_use_as_global_pdb obj) (has_botframe obj) (_env obj)
             (_use_global_pdb_for_class obj) (_set_trace_use_next obj)
             (continuing obj) (stdout obj) kwargs)
  else Raise TypeError.

Definition orig_init_strict (kwargs : gmap str pyval) : outcome unit :=
  if bool_decide (dom kwargs ⊆ accepted_kwargs) then Ok tt else Raise TypeError.

Definition plain_world : world :=
  World ∅ None (PyObj 0) orig_init_strict blank
    (fun obj kwargs => call (init_strict obj kwargs)) (fun g _ => Ok g).

Definition fresh_state : state := State None false false.

(** [Pdb(nosuch=1)] *)
Definition bad_kwargs : gmap str pyval := {[ py "nosuch" := PyInt 1 ]}.

End Singleton.

(** ** The two regular expressions on colour escapes *)

Module Escapes.

Definition ESC : ascii := ascii_of_nat 27.

Definition is_m (c : ascii) : bool := Ascii.eqb c "m".

(** The position of the first ["m"]. *)
Fixpoint find_m (s : str) : option nat :=
  match s with
  | [] => None
  | c :: t => if is_m c then Some 0 else S <$> find_m t
  end.

(** One [\x1b[^m]+m] at the head of [s]: its length.  [[^m]+] takes the
    characters up to the first ["m"], and at least one. *)
Definition esc_one (s : str) : option nat :=
  match s with
  | e :: c :: t =>
      if Ascii.eqb e ESC && negb (is_m c)
      then (fun i => i + 3) <$> find_m t
      else None
  | _ => None
  end.

(** [RE_COLOR_ESCAPES = (\x1b[^m]+m)+] at the head of [s]: the length of the
    match, 0 when there is none.  The repetition is greedy and nothing
    follows it, so the match is the longest run of escapes. *)
Fixpoint esc_run (fuel : nat) (s : str) : nat :=
  match fuel with
  | 0 => 0
  | S fuel' =>
      match esc_one s with
      | Some n => n + esc_run fuel' (drop n s)
      | None => 0
      end
  end.

Definition match_at (s : str) : nat := esc_run (length s) s.

(** [RE_COLOR_ESCAPES.finditer(s)]: the spans [(start, end)] of the matches,
    found from left to right; [pos] is the position of [s] in the whole
    string. *)
Fixpoint finditer_from (fuel : nat) (pos : Z) (s : str) : list (Z * Z) :=
  match fuel with
  | 0 => []
  | S fuel' =>
      match s with
      | [] => []
      | _ :: t =>
          match match_at s with
          | 0 => finditer_from fuel' (pos + 1) t
          | S _ as n =>
              (pos, pos + Z.of_nat n)%Z
                :: finditer_from fuel' (pos + Z.of_nat n) (drop n s)
          end
      end
  end.

Definition finditer (s : str) : list (Z * Z) :=
  finditer_from (length s) 0 s.

(** [RE_COLOR_ESCAPES.sub("", s)] *)
Fixpoint sub_from (fuel : nat) (s : str) : str :=
  match fuel with
  | 0 => []
  | S fuel' =>
      match s with
      | [] => []
      | c :: t =>
          match match_at s with
          | 0 => c :: sub_from fuel' t
          | S _ as n => sub_from fuel' (drop n s)
          end
      end
  end.

Definition color_sub (s : str) : str := sub_from (length s) s.

(** [RE_REMOVE_FANCYCOMPLETER_ESCAPE_SEQS = \x1b\[[\d;]+m] *)
Fixpoint span_params (s : str) : nat :=
  match s with
  | c :: t => if is_digit c || Ascii.eqb c ";" then S (span_params t) else 0
  | [] => 0
  end.

Definition fancy_esc_one (s : str) : option nat :=
  match s with
  | e :: b :: t =>
      if Ascii.eqb e ESC && Ascii.eqb b "["
      then match span_params t with
           | 0 => None
           | S _ as k =>
               match drop k t with
               | c :: _ => if is_m c then Some (k + 3) else None
               | [] => None
               end
           end
      else None
  | _ => None
  end.

(** [RE_REMOVE_FANCYCOMPLETER_ESCAPE_SEQS.sub("", s)] *)
Fixpoint fancy_sub_from (fuel : nat) (s : str) : str :=
  match fuel with
  | 0 => []
  | S fuel' =>
      match s with
      | [] => []
      | c :: t =>
          match fancy_esc_one s with
          | Some n => fancy_sub_from fuel' (drop n s)
          | None => c :: fancy_sub_from fuel' t
          end
      end
  end.

Definition fancy_sub (s : str) : str := fancy_sub_from (length s) s.

(** Removal of single escapes, one at a time; [k] characters are still to
    be skipped.  It agrees with [color_sub] ([color_sub_strip]). *)
Fixpoint strip_skip (k : nat) (s : str) : str :=
  match s with
  | [] => []
  | c :: t =>
      match k with
      | S k' => strip_skip k' t
      | 0 =>
          match esc_one s with
          | Some n => strip_skip (n - 1) t
          | None => c :: strip_skip 0 t
          end
      end
  end.

Definition strip (s : str) : str := strip_skip 0 s.

(** A string that is removed whole wherever it stands in front. *)
Definition absorbed (e : str) : Prop :=
  forall t, color_sub (e ++ t) = color_sub t.

(** *** The spans of [finditer] *)

(** The spans lie in order at or after [pos], inside [s], and each is
    removed whole by [color_sub]. *)
Inductive spans_from (s : str) : Z -> list (Z * Z) -> Prop :=
| spans_nil pos : spans_from s pos []
| spans_cons pos a b ms :
    (pos <= a)%Z -> (a < b <= len s)%Z ->
    absorbed (slice s a b) ->
    spans_from s b ms ->
    spans_from s pos ((a, b) :: ms).

End Escapes.

(** ** Source listings: [_truncate_to_visible_length] and [_cut_lines] *)

Module Listing.
Import Escapes.

(** [ret.endswith(x)] *)
Definition endswith (ret x : str) : bool :=
  bool_decide (drop (length ret - length x) ret = x).

(** The loop over the matches, with its [else] clause; [m_end] is the end of
    the match of the previous iteration. *)
Fixpoint truncate_loop (s : str) (maxlength : Z) (matches : list (Z * Z))
    (ret : str) (total_visible_len pos m_end : Z) : outcome str :=
  match matches with
  | [] =>
      if (maxlength - total_visible_len >? 0)%Z then
        let rest := slice_from s m_end in
        Ok (ret ++ slice_to rest (maxlength - total_visible_len))
      else Raise AssertionError
  | (m_start, m_end) :: matches' =>
      let add_visible := slice s pos m_start in
      let len_visible := (m_start - pos)%Z in
      let overflow := (len_visible + total_visible_len - maxlength)%Z in
      if (overflow >=? 0)%Z then
        let ret :=
          if (overflow =? 0)%Z then ret ++ add_visible
          else ret ++ slice_to add_visible (- overflow) in
        Ok (ret ++ slice s m_start m_end)
      else
        truncate_loop s maxlength matches'
          ((ret ++ add_visible) ++ slice s m_start m_end)
          (total_visible_len + len_visible) m_end m_end
  end.

(** "Keep reset sequence (in last match)." *)
Definition keep_reset (s ret : str) (matches : list (Z * Z)) : str :=
  if negb (len ret =? len s)%Z then
    match last matches with
    | Some (last_m_start, last_m_end) =>
        if (last_m_end =? len s)%Z then
          let reset_seq := slice s last_m_start last_m_end in
          if negb (endswith ret reset_seq) then ret ++ reset_seq else ret
        else ret
    | None => ret
    end
  else ret.

Definition _truncate_to_visible_length (s : str) (maxlength : Z)
  : outcome str :=
  let matches := finditer s in
  match matches with
  | [] => Ok (slice_to s maxlength)
  | _ :: _ =>
      ret ← truncate_loop s maxlength matches [] 0 0 0;
      let ret := keep_reset s ret matches in
      if (len (color_sub ret) <=? maxlength)%Z then Ok ret
      else Raise AssertionError
  end.

(** [COLOR_OR_SPACE*]: escapes and white space, as many as there are. *)
Fixpoint skip_color_or_space (fuel : nat) (s : str) : str :=
  match fuel with
  | 0 => s
  | S fuel' =>
      match esc_one s with
      | Some n => skip_color_or_space fuel' (drop n s)
      | None =>
          match s with
          | c :: t => if is_space c then skip_color_or_space fuel' t else s
          | [] => s
          end
      end
  end.

(** [keep_pat.match(line)], for
    [(?:^COLOR_OR_SPACE*@)|(?<!\w)lambda(?::|COLOR_OR_SPACE)]. *)
Definition keep_pat_match (line : str) : bool :=
  match skip_color_or_space (length line) line with
  | c :: _ => Ascii.eqb c "@"
  | [] => false
  end
  || (bool_decide (take 6 line = py "lambda") &&
      match drop 6 line with
      | (c :: _) as r =>
          Ascii.eqb c ":" || bool_decide (is_Some (esc_one r)) || is_space c
      | [] => false
      end).

(** What the generator yields: a line number, or [None] with ["..."]. *)
Definition entry : Type := option Z * str.

Definition ellipsis : entry := (None, py "...").

Definition numbered (lines : list str) (start : Z) : list entry :=
  map (fun p => (Some p.1, p.2)) (enumerate lines start).

(** [while keep_pat.match(lines[keep_head]): keep_head += 1]; [rest] is
    [lines[keep_head:]]. *)
Fixpoint count_keep_head (rest : list str) (keep_head : Z) : outcome Z :=
  match rest with
  | [] => Raise IndexError
  | line :: rest' =>
      if keep_pat_match line then count_keep_head rest' (keep_head + 1)
      else Ok keep_head
  end.

(** The last loop of [_cut_lines], at index [i] with [rest = lines[i:]] and
    [n = len(lines)]: the entries it yields and how it ends. *)
Fixpoint cut_loop (lineno n i : Z) (rest : list str) (cut_before cut_after : Z)
  : list entry * outcome unit :=
  match rest with
  | [] => ([], Ok tt)
  | line :: rest' =>
      if negb (cut_before =? 0)%Z then
        let cut_before := (cut_before - 1)%Z in
        if (cut_before =? 0)%Z then
          let '(ys, r) :=
            cut_loop lineno n (i + 1) rest' cut_before cut_after in
          (ellipsis :: ys, r)
        else if (cut_before >? 0)%Z then
          cut_loop lineno n (i + 1) rest' cut_before cut_after
        else ([], Raise AssertionError)
      else if negb (cut_after =? 0)%Z && (i >=? n - cut_after)%Z then
        ([ellipsis], Ok tt)
      else
        let '(ys, r) := cut_loop lineno n (i + 1) rest' cut_before cut_after in
        ((Some (lineno + i)%Z, line) :: ys, r)
  end.

(** [max(6, max_lines if max_lines else len(lines))]; [None] stands for a
    [max_lines] of [None] or [False]. *)
Definition effective_max_lines (lines : list str) (max_lines : option Z) : Z :=
  Z.max 6 (match max_lines with
           | Some m => if (m =? 0)%Z then len lines else m
           | None => len lines
           end).

(** The lines kept at the top, and the cut-off left for the rest. *)
Definition keep_top (lines : list str) (lineno keep_head cutoff : Z)
  : outcome (list entry * Z) :=
  if (keep_head >? 3)%Z then
    first ← index lines 0;
    last_kept ← index lines (keep_head - 1);
    Ok ([(Some lineno, first); ellipsis;
         (Some (lineno + keep_head)%Z, last_kept)],
        (cutoff - (keep_head - 3))%Z)
  else Ok (numbered (slice_to lines keep_head) lineno, cutoff).

Definition _cut_lines (self : Pdb) (lines : list str) (lineno : Z)
    (max_lines : option Z) : list entry * outcome unit :=
  let max_lines := effective_max_lines lines max_lines in
  if (len lines <=? max_lines)%Z then (numbered lines lineno, Ok tt)
  else
    let cutoff := (len lines - max_lines)%Z in
    match count_keep_head lines 0 with
    | Raise e => ([], Raise e)
    | Ok keep_head =>
        match keep_top lines lineno keep_head cutoff with
        | Raise e => ([], Raise e)
        | Ok (top, cutoff) =>
            match curframe self with
            | None => (top, Raise AttributeError)
            | Some f =>
                let exc_lineno := tb_lineno self !! f_id f in
                let last_marker_line :=
                  (Z.max (f_lineno f) (default 0 exc_lineno) - lineno)%Z in
                let cut_before :=
                  Z.min cutoff
                    (Z.max 0 (last_marker_line - max_lines
                              + max_lines / 3 * 2))%Z in
                let cut_after := (cutoff - cut_before)%Z in
                let cut_after :=
                  if (cut_after >? 0)%Z then (cut_after + 1)%Z else 0%Z in
                let cut_before :=
                  if negb (cut_before =? 0)%Z then (cut_before + 1)%Z
                  else cut_before in
                let '(ys, r) :=
                  cut_loop lineno (len lines) keep_head
                    (slice_from lines keep_head) cut_before cut_after in
                (top ++ ys, r)
            end
        end
    end.

(** The entries that are lines of the source, and the markers. *)
Definition content_lines (ys : list entry) : list entry :=
  List.filter (fun y => bool_decide (is_Some y.1)) ys.

Definition ellipses (ys : list entry) : list entry :=
  List.filter (fun y => negb (bool_decide (is_Some y.1))) ys.

(** What the loop has put into [ret] shows at most [total] characters,
    whatever follows. *)
Definition shows_at_most (ret : str) (total : Z) : Prop :=
  forall t, (len (color_sub (ret ++ t)) <= total + len (color_sub t))%Z.

(** A red ["abcdef"] followed by the reset sequence. *)
Definition red_abcdef : str :=
  (ESC :: py "[31mabcdef") ++ (ESC :: py "[0m").

(** *** Concrete listings *)

Definition frame_at (n : Z) : frame := Frame 1 [] ∅ (LocalsDict ∅) n.

(** A session stopped in frame [f]. *)
Definition pdb_in (f : frame) : Pdb :=
  MkPdb true false [] None [] [] 0 (Some f) (LocalsDict ∅) ∅ (None, 0%Z) []
    false ∅ false [].

Definition four_lines : list str :=
  map py ["def f(x):"; "    y = x + 1"; "    z = y * 2"; "    return z"]%string.

Definition seven_lines : list str :=
  map py ["def g(x):"; "    a = x"; "    b = a"; "    c = b"; "    d = c";
          "    e = d"; "    return e"]%string.

End Listing.

(** ** Completion: [_complete] and [_filter_completions] *)

Module Completion.
Import Escapes.

(** [x.startswith(prefix)] *)
Definition startswith (x prefix : str) : bool :=
  bool_decide (take (length prefix) x = prefix).

(** ["." in s] *)
Definition has_dot (s : str) : bool := bool_decide ("."%char ∈ s).

(** [s.split(".")]; [cur] is the piece being read. *)
Fixpoint split_dot (s cur : str) : list str :=
  match s with
  | [] => [cur]
  | c :: t =>
      if Ascii.eqb c "." then cur :: split_dot t [] else split_dot t (cur ++ [c])
  end.

(** [".".join(parts)] *)
Fixpoint join_dot (parts : list str) : str :=
  match parts with
  | [] => []
  | [p] => p
  | p :: ps => p ++ "."%char :: join_dot ps
  end.

(** [fancycompleter.commonprefix]: [commonfunc] shortens [s1] until [s2]
    starts with it; the names are reduced with it. *)
Fixpoint commonfunc (fuel : nat) (s1 s2 : str) : str :=
  if startswith s2 s1 then s1
  else match fuel with
       | 0 => s1
       | S fuel' => commonfunc fuel' (slice_to s1 (-1)) s2
       end.

Definition commonprefix (names : list str) : str :=
  match names with
  | [] => []
  | n :: ns => fold_left (fun s1 s2 => commonfunc (length s1) s1 s2) ns n
  end.

(** [_get_all_completions]: the completer is called with 0, 1, ... until it
    returns [None]; [None] here when the fuel runs out before that. *)
Fixpoint _get_all_completions (fuel : nat) (complete : str -> Z -> option str)
    (text : str) (i : Z) (r : list str) : option (list str) :=
  match fuel with
  | 0 => None
  | S fuel' =>
      match complete text i with
      | None => Some r
      | Some comp =>
          _get_all_completions fuel' complete text (i + 1) (r ++ [comp])
      end
  end.

(** The two completers: fancycompleter's [Completer(mydict).complete] and
    the [complete] of [pdb.Pdb]. *)
Record completers := Completers {
  fancy_complete : str -> Z -> option str;
  pdb_complete : str -> Z -> option str;
}.

(** What [clean_fancy_completions] is bound to: a set of its own, or the
    list [completions] itself. *)
Inductive clean_t :=
| CleanSet (xs : list str)
| CleanAlias (xs : list str).

Definition clean_snapshot (clean : clean_t) : list str :=
  match clean with
  | CleanSet xs => xs
  | CleanAlias xs => xs
  end.

(** [for x in pdb_completions: if x not in clean: self._completions.append(x)].
    With [aliased], [clean] is the list that is appended to. *)
Fixpoint append_new (aliased : bool) (clean : list str)
    (pdb_completions acc : list str) : list str :=
  match pdb_completions with
  | [] => acc
  | x :: xs =>
      if bool_decide (x ∈ (if aliased then acc else clean))
      then append_new aliased clean xs acc
      else append_new aliased clean xs (acc ++ [x])
  end.

(** The underscore filter at the end of [_filter_completions]. *)
Definition hide_underscores (text : str) (completions : list str) : list str :=
  if negb (bool_decide (slice_from text (-1) = py "_")) then
    List.filter
      (fun x => negb (bool_decide (slice_to (color_sub x) 1 = py "_")))
      completions
  else if negb (bool_decide (slice_from text (-2) = py "__")) then
    List.filter
      (fun x => negb (bool_decide (slice_to (color_sub x) 2 = py "__")))
      completions
  else completions.

Definition _filter_completions (self : Pdb) (text : str) : Pdb :=
  if bool_decide (Some text = (_lastcompstate self).1) then
    if ((_lastcompstate self).2 >? 0)%Z then self
    else
      let self :=
        set_lastcompstate self
          ((_lastcompstate self).1, ((_lastcompstate self).2 + 1)%Z) in
      set_completions self (hide_underscores text (_completions self))
  else
    let self := set_lastcompstate self (Some text, 0%Z) in
    set_completions self (hide_underscores text (_completions self)).

(** The body of [if state == 0] up to the call of [_filter_completions]:
    the value of [self._completions] there. *)
Definition merge_completions (cs : completers) (fuel : nat) (self : Pdb)
    (text : str) : option (list str) :=
  completions ← _get_all_completions fuel (fancy_complete cs) text 0 [];
  let clean :=
    if use_colors self then CleanSet (map fancy_sub completions)
    else CleanAlias completions in
  from_pdb ← _get_all_completions fuel (pdb_complete cs) text 0 [];
  let pdb_completions :=
    List.filter (fun x => negb (bool_decide (x ∈ clean_snapshot clean)))
      from_pdb in
  let '(completions, rebound) :=
    if bool_decide (completions = [py (String "009" EmptyString)]) &&
       negb (bool_decide (pdb_completions = []))
    then ([], true) else (completions, false) in
  match pdb_completions with
  | [] => Some completions
  | _ :: _ =>
      let pdb_prefix := commonprefix pdb_completions in
      let pdb_completions :=
        if has_dot text && negb (bool_decide (pdb_prefix = [])) &&
           (1 <? length pdb_completions)
        then
          let dotted := split_dot text [] in
          let prefix := join_dot (removelast dotted) ++ py "." in
          let prefix_len := len prefix in
          map (fun x => if startswith x prefix then slice_from x prefix_len
                        else x) pdb_completions
        else pdb_completions in
      let pdb_completions :=
        match completions with
        | [c] =>
            if has_dot c && negb (bool_decide (pdb_prefix = [])) then []
            else pdb_completions
        | _ => pdb_completions
        end in
      let aliased :=
        match clean with
        | CleanAlias _ => negb rebound
        | CleanSet _ => false
        end in
      Some (append_new aliased (clean_snapshot clean) pdb_completions
              completions)
  end.

Definition _complete (cs : completers) (fuel : nat) (self : Pdb) (text : str)
    (state : Z) : option (Pdb * option str) :=
  self ← (if (state =? 0)%Z then
            merged ← merge_completions cs fuel (set_completions self []) text;
            Some (_filter_completions (set_completions self merged) text)
          else Some self);
  Some (self, match index (_completions self) state with
              | Ok x => Some x
              | Raise _ => None
              end).

(** Three completion requests in a row for the same text (each starts with
    state 0): the candidate lists they leave in [_completions]. *)
Definition three_requests (cs : completers) (fuel : nat) (self : Pdb)
    (text : str) : option (list str * list str * list str) :=
  '(self1, _) ← _complete cs fuel self text 0;
  '(self2, _) ← _complete cs fuel self1 text 0;
  '(self3, _) ← _complete cs fuel self2 text 0;
  Some (_completions self1, _completions self2, _completions self3).

(** The completer returns the candidates [xs] for [text], then [None]. *)
Definition lists (complete : str -> Z -> option str) (text : str)
    (xs : list str) : Prop :=
  forall n : nat, complete text (Z.of_nat n) = xs !! n.

(** *** A concrete namespace *)

(** A completer that lists [xs] whatever the text. *)
Definition from_list (xs : list str) : str -> Z -> option str :=
  fun _ i => if (i <? 0)%Z then None else xs !! Z.to_nat i.

(** The attributes of an object: one public name, one private, one dunder;
    [pdb.Pdb.complete] proposes nothing. *)
Definition obj_candidates : list str :=
  map py ["name"; "_private"; "__dunder"]%string.

Definition obj_completers : completers :=
  Completers (from_list obj_candidates) (from_list []).

Definition fresh_session : Pdb :=
  MkPdb true false [] None [] [] 0 None (LocalsDict ∅) ∅ (None, 0%Z) [] false
    ∅ false [].

End Completion.

(** ** The command line: [parseline] *)

Module Parse.

(** [x.startswith(prefix)] and [x.endswith(suffix)] *)
Definition startswith (x prefix : str) : bool :=
  bool_decide (take (length prefix) x = prefix).

Definition endswith (x suffix : str) : bool :=
  bool_decide (length suffix <= length x /\
               drop (length x - length suffix) x = suffix).

(** [s.lstrip()], [s.rstrip()], [s.strip()] *)
Fixpoint lstrip (s : str) : str :=
  match s with
  | c :: t => if is_space c then lstrip t else s
  | [] => []
  end.

Fixpoint rstrip (s : str) : str :=
  match s with
  | [] => []
  | c :: t =>
      match rstrip t with
      | [] => if is_space c then [] else [c]
      | t' => c :: t'
      end
  end.

Definition strip (s : str) : str := rstrip (lstrip s).

(** [string.ascii_letters + string.digits + "_"], the [identchars] of
    [cmd.Cmd]. *)
Definition identchar (c : ascii) : bool :=
  is_ascii_letter c || is_digit c || Ascii.eqb c "_".

(** [while i < n and line[i] in self.identchars: i = i+1] *)
Fixpoint ident_span (line : str) : nat :=
  match line with
  | c :: t => if identchar c then S (ident_span t) else 0
  | [] => 0
  end.

(** [cmd.Cmd.parseline] of the standard library, which
    [super().parseline(line)] calls: the stripped line is split into the
    leading identifier characters and the stripped rest. *)
Definition base_parseline (self : Pdb) (line : str)
  : option str * option str * str :=
  let line := strip line in
  match line with
  | [] => (None, None, line)
  | c :: t =>
      let rewritten :=
        if Ascii.eqb c "?" then Some (py "help " ++ t)
        else if Ascii.eqb c "!" then
          if hasattr self (py "do_shell") then Some (py "shell " ++ t)
          else None
        else Some line in
      match rewritten with
      | None => (None, None, line)
      | Some line =>
          let i := ident_span line in
          (Some (take i line), Some (strip (drop i line)), line)
      end
  end.

(** An argument: a [str], or an [ArgWithCount] carrying [cmd_count]. *)
Record arg_t := Arg {
  value : str;
  cmd_count : option Z;
}.

(** [ArgWithCount(value, count=count)] *)
Definition ArgWithCount (v : arg_t) (count : Z) : arg_t :=
  Arg (value v) (Some count).

Definition parsed : Type := option str * option arg_t * str.

(** The number that a string of decimal digits writes. *)
Definition digits_value (ds : str) : Z :=
  fold_left (fun n c => (10 * n + (Z.of_nat (nat_of_ascii c) - 48))%Z) ds 0%Z.

(** [sys.get_int_max_str_digits()], as the interpreter starts with. *)
Definition int_max_str_digits : nat := 4300.

(** [int(digits)] for a string of decimal digits: [ValueError] for more
    than [int_max_str_digits] of them. *)
Definition int_of_digits (ds : str) : outcome Z :=
  if length ds <=? int_max_str_digits then Ok (digits_value ds)
  else Raise ValueError.

Fixpoint digit_span (s : str) : nat :=
  match s with
  | c :: t => if is_digit c then S (digit_span t) else 0
  | [] => 0
  end.

Fixpoint word_span (s : str) : nat :=
  match s with
  | c :: t => if is_word c then S (word_span t) else 0
  | [] => 0
  end.

(** [re.match(r"(\d+)(\w+)", cmd)]: [m.group(1)] and [m.group(2)].
    The digits are taken greedily; when no word character follows them the
    last digit is given back to the second group. *)
Definition match_count (cmd : str) : option (str * str) :=
  let k := digit_span cmd in
  match word_span (drop k cmd) with
  | S _ as w =>
      if 0 <? k then Some (take k cmd, take w (drop k cmd))
      else None
  | 0 =>
      if 1 <? k
      then Some (take (k - 1) cmd, take 1 (drop (k - 1) cmd))
      else None
  end.

(** [line.split("?", 1)[0]] *)
Fixpoint before_question (line : str) : str :=
  match line with
  | c :: t => if Ascii.eqb c "?" then [] else c :: before_question t
  | [] => []
  end.

(** [cmd in self.curframe.f_globals or cmd in self.curframe_locals] *)
Definition is_variable (self : Pdb) (f : frame) (name : str) : bool :=
  in_globals name (f_globals f) || in_locals name (curframe_locals self).

(** [parseline]; [from_complete] says whether a function named [complete]
    is on the call stack. *)
Definition parseline (self : Pdb) (from_complete : bool) (line : str)
  : outcome parsed :=
  let lift (r : option str * option str * str) : parsed :=
    (r.1.1, (fun a => Arg a None) <$> r.1.2, r.2) in
  if _pdbpp_executing_rc_lines self then Ok (lift (base_parseline self line))
  else if startswith line (py "!!") then
    let '(cmd, arg, newline) := lift (base_parseline self (drop 2 line)) in
    Ok (cmd, arg, py "!!" ++ newline)
  else if endswith line (py "?") && negb (startswith line (py "!")) then
    let arg := before_question line in
    cmd ←
      (if endswith line (py "??") then Ok (py "inspect_with_source")
       else if bool_decide (arg = []) then Ok (py "help")
       else if hasattr self (py "do_" ++ arg) then
         match curframe self with
         | None => Raise AttributeError
         | Some f =>
             if negb (in_globals arg (f_globals f)) &&
                negb (in_locals arg (curframe_locals self))
             then Ok (py "help") else Ok (py "inspect")
         end
       else Ok (py "inspect"));
    Ok (Some cmd, Some (Arg arg None), line)
  else
    let '(cmd, arg, newline) := lift (base_parseline self line) in
    '(cmd, arg, newline) ←
      match cmd, arg with
      | Some ((_ :: _) as c), Some a =>
          if bool_decide (c ∈ [py "b"; py "f"; py "r"; py "u"]) &&
             (1 <? length newline) &&
             match newline !! 1 with
             | Some q => Ascii.eqb q "'" || Ascii.eqb q dquote
             | None => false
             end
          then Ok (None, None, line)
          else
            '(c, a) ←
              match match_count c with
              | Some (digits, word) =>
                  count ← int_of_digits digits;
                  Ok (word, ArgWithCount a count)
              | None => Ok (c, a)
              end;
            Ok (if hasattr self (py "do_" ++ c) then
                  if match curframe self with
                     | Some f =>
                         is_variable self f c &&
                         bool_decide (c ++ value a = line)
                     | None => false
                     end || startswith (value a) (py "=")
                  then (None, None, line)
                  else if startswith (value a) (py "(") &&
                          bool_decide (c ∈ [py "list"; py "next"])
                  then (None, None, line)
                  else (Some c, Some a, newline)
                else (Some c, Some a, newline))
      | _, _ => Ok (cmd, arg, newline)
      end;
    let cmd :=
      match cmd with
      | None => if from_complete then Some [] else None
      | Some _ => cmd
      end in
    Ok (cmd, arg, newline).

(** What [parseline] returns for a line that is an expression. *)
Definition expression (from_complete : bool) (line : str) : parsed :=
  (if from_complete then Some [] else None, None, line).

(** *** Concrete sessions *)

(** Some of the commands of [pdb.Pdb] and of this class. *)
Definition command_attrs : gset str :=
  list_to_set (map py ["do_b"; "do_break"; "do_r"; "do_return"; "do_u";
                       "do_up"; "do_f"; "do_frame"; "do_pp"; "do_list";
                       "do_next"; "do_help"]%string).

Definition frame_with_r : frame :=
  Frame 1 [] ∅ (LocalsDict {[ py "r" := PyInt 1 ]}) 1.

Definition frame_without_r : frame := Frame 2 [] ∅ (LocalsDict ∅) 1.

(** An interactive session stopped in [f]. *)
Definition session_in (f : frame) : Pdb :=
  MkPdb true false [] None [] [] 0 (Some f) (f_locals f) ∅ (None, 0%Z) []
    false command_attrs false [].


End Parse.

(** ** The stack of frames: [get_stack] and the parts of a stack *)

Module Frames.
Import Visibility.

Definition set_fullstack (self : Pdb) (fs : list stack_entry) : Pdb :=
  MkPdb (enable_hidden_frames self) (show_hidden_frames self)
    (_hidden_frames self) (_via_set_trace_frame self) fs (stack self)
    (curindex self) (curframe self) (curframe_locals self) (tb_lineno self)
    (_lastcompstate self) (_completions self) (_pdbpp_executing_rc_lines self)
    (attrs self) (use_colors self) (output self).

(** [get_stack]; [bdb_stack] is what [super().get_stack(f, t)] returns: the
    full stack and the index of the frame [f] in it. *)
Definition get_stack (self : Pdb) (bdb_stack : list stack_entry * Z)
  : outcome (Pdb * (list stack_entry * Z)) :=
  let '(fullstack, idx) := bdb_stack in
  let self := set_fullstack self fullstack in
  compute_stack self fullstack (Some idx).

(** The entries of a stack that [_is_hidden] hides, and the others. *)
Definition hidden_part (self : Pdb) (st : list stack_entry) : list stack_entry :=
  List.filter (hidden_entry self) st.

Definition visible_part (self : Pdb) (st : list stack_entry)
  : list stack_entry :=
  List.filter (fun e => negb (hidden_entry self e)) st.

(** The session stands on an entry of its stack: [curindex] is an index of
    [stack], not counted from the end, and [curframe] is the frame there. *)
Definition positioned (self : Pdb) : Prop :=
  (0 <= curindex self)%Z /\
  exists f lineno,
    index (stack self) (curindex self) = Ok (f, lineno) /\
    frame_is_opt f (curframe self) = true.

(** *** Concrete sessions *)


(** A session whose configuration has [enable_hidden_frames = False]. *)
Definition pdb_without_hiding : Pdb :=
  MkPdb false false [] None stack_ABC stack_ABC 1 (Some frame_B)
    (LocalsDict ∅) ∅ (None, 0%Z) [] false ∅ false [].

End Frames.

(** ** Moving along the stack: [do_frame], [do_up], [do_down], [do_top],
    [do_bottom] *)

Module Navigation.
Import Visibility Frames.

(** The white space that [int] passes over around the number: the ASCII
    white space, and the white space above the ASCII range, which it first
    turns into spaces.  The separators [\x1c] to [\x1f], which [str.strip]
    removes, are refused. *)
Definition is_int_space (c : ascii) : bool :=
  let n := nat_of_ascii c in
  ((9 <=? n) && (n <=? 13)) || (n =? 32) || (n =? 133) || (n =? 160).

Fixpoint int_lstrip (s : str) : str :=
  match s with
  | c :: t => if is_int_space c then int_lstrip t else s
  | [] => []
  end.

Fixpoint int_rstrip (s : str) : str :=
  match s with
  | [] => []
  | c :: t =>
      match int_rstrip t with
      | [] => if is_int_space c then [] else [c]
      | t' => c :: t'
      end
  end.

(** [int(s)] for a [str] [s], in base 10; [None] stands for [ValueError].
    White space around the number is passed over, a sign may precede it,
    and single underscores may stand between digits.  More than
    [int_max_str_digits] digits are refused. *)
Fixpoint digits_ok (after_digit : bool) (s : str) : bool :=
  match s with
  | [] => after_digit
  | c :: t =>
      if is_digit c then digits_ok true t
      else if Ascii.eqb c "_" && after_digit then digits_ok false t
      else false
  end.

Definition py_int (s : str) : option Z :=
  let s := int_rstrip (int_lstrip s) in
  let '(negative, body) :=
    match s with
    | c :: t =>
        if Ascii.eqb c "-" then (true, t)
        else if Ascii.eqb c "+" then (false, t)
        else (false, s)
    | [] => (false, s)
    end in
  let digits := List.filter is_digit body in
  if digits_ok false body &&
     (length digits <=? Parse.int_max_str_digits) then
    let n := Parse.digits_value digits in
    Some (if negative then (- n)%Z else n)
  else None.

(** What a command writes or asks to be written. *)
Inductive effect :=
| Print (line : str)                  (* print(line, file=self.stdout) *)
| Error (msg : str)                   (* self.error(msg) *)
| PrintStackEntry (e : stack_entry).  (* self.print_stack_entry(e) *)

(** The debugger instance with the attribute [lineno] of the [list]
    command and what the commands have written. *)
Record session := Session {
  pdb : Pdb;
  lineno : option Z;
  log : list effect;
}.

Definition say (s : session) (e : effect) : session :=
  Session (pdb s) (lineno s) (log s ++ [e]).

Definition set_curframe_locals (self : Pdb) (l : locals_t) : Pdb :=
  MkPdb (enable_hidden_frames self) (show_hidden_frames self)
    (_hidden_frames self) (_via_set_trace_frame self) (fullstack self)
    (stack self) (curindex self) (curframe self) l (tb_lineno self)
    (_lastcompstate self) (_completions self) (_pdbpp_executing_rc_lines self)
    (attrs self) (use_colors self) (output self).

(** The five statements that end [do_frame], [do_up], [do_down] and
    [_select_frame], with the new index [i]:
    [self.curindex = i],
    [self.curframe = self.stack[self.curindex][0]],
    [self.curframe_locals = self.curframe.f_locals],
    [self.print_current_stack_entry()], [self.lineno = None].
    The index is assigned before the stack is subscripted. *)
Definition select (s : session) (i : Z) : session * outcome unit :=
  let self := set_curindex (pdb s) i in
  match index (stack self) (curindex self) with
  | Raise e => (Session self (lineno s) (log s), Raise e)
  | Ok (f, _) =>
      let self := set_curframe self (Some f) in
      let self := set_curframe_locals self (f_locals f) in
      let self := emit self PrintCurrentStackEntry in
      (Session self None (log s), Ok tt)
  end.

Definition _select_frame (s : session) (number : Z) : session * outcome unit :=
  if (0 <=? number)%Z && (number <? len (stack (pdb s)))%Z
  then select s number
  else (s, Raise AssertionError).

Definition expected_a_number (arg : str) : effect :=
  Print (py "*** Expected a number, got " ++ dquote :: arg ++ [dquote]).

Definition do_frame (s : session) (arg : str) : session * outcome unit :=
  let self := pdb s in
  match arg with
  | [] =>
      match index (stack self) (curindex self) with
      | Ok e => (say s (PrintStackEntry e), Ok tt)
      | Raise e => (s, Raise e)
      end
  | _ :: _ =>
      match py_int arg with
      | None => (say s (expected_a_number arg), Ok tt)
      | Some arg =>
          if (Z.abs arg >=? len (stack self))%Z
          then (say s (Print (py "*** Out of range")), Ok tt)
          else select s (if (arg >=? 0)%Z then arg
                         else (len (stack self) + arg)%Z)
      end
  end.

Definition do_up (s : session) (arg : str) : session * outcome unit :=
  let self := pdb s in
  let arg := match arg with [] => py "1" | _ :: _ => arg end in
  match py_int arg with
  | None => (say s (expected_a_number arg), Ok tt)
  | Some arg =>
      if (curindex self - arg <? 0)%Z
      then (say s (Print (py "*** Oldest frame")), Ok tt)
      else select s (curindex self - arg)
  end.

Definition do_down (s : session) (arg : str) : session * outcome unit :=
  let self := pdb s in
  let arg := match arg with [] => py "1" | _ :: _ => arg end in
  match py_int arg with
  | None => (say s (expected_a_number arg), Ok tt)
  | Some arg =>
      if (curindex self + arg >=? len (stack self))%Z
      then (say s (Print (py "*** Newest frame")), Ok tt)
      else select s (curindex self + arg)
  end.

Definition do_top (s : session) : session * outcome unit :=
  if (curindex (pdb s) =? 0)%Z then (say s (Error (py "Oldest frame")), Ok tt)
  else _select_frame s 0.

Definition do_bottom (s : session) : session * outcome unit :=
  if (curindex (pdb s) + 1 =? len (stack (pdb s)))%Z
  then (say s (Error (py "Newest frame")), Ok tt)
  else _select_frame s (len (stack (pdb s)) - 1).

(** The session stands on the entry [i] of its stack, with the frame and
    the locals of that entry. *)
Definition stands_at (self : Pdb) (i : Z) : Prop :=
  curindex self = i /\
  (0 <= i)%Z /\
  exists f l,
    nth_error (stack self) (Z.to_nat i) = Some (f, l) /\
    curframe self = Some f /\
    curframe_locals self = f_locals f.

(** *** A concrete session *)

(** The session of [pdb_at_B]: on entry 1 of the stack [A; B; C]. *)
Definition session_at_B : session := Session pdb_at_B None [].

End Navigation.

(** ** The session singleton: concrete calls for [set_trace] *)

Module Reuse.
Import Singleton.

(** *** Concrete calls *)

(** A world in which the constructor is called for [set_trace], from line 3
    of [t.py]. *)
Definition set_trace_world : world :=
  World ∅ (Some (py "t.py", 3%Z)) (PyObj 0) orig_init_strict blank
    (fun obj kwargs => call (init_strict obj kwargs)) (fun g _ => Ok g).

(** What [__init__] leaves of the first instance in that world, and the
    instance once it is registered. *)
Definition first_obj : instance :=
  Instance Pdb_class false false false None None false false PyNone
    (<[py "start_lineno" := PyInt 3]>
       (<[py "start_filename" := PyStr (py "t.py")]> ∅)).

Definition first_instance : instance := set_env first_obj None.

End Reuse.

(** ** The visible text of a line *)

Module Visible.
Import Escapes.

(** What [RE_COLOR_ESCAPES.sub("", s)] keeps of [s] from [pos] on, given
    the spans of the matches: the text between them. *)
Fixpoint between (s : str) (pos : Z) (ms : list (Z * Z)) : str :=
  match ms with
  | [] => slice_from s pos
  | (a, b) :: ms' => slice s pos a ++ between s b ms'
  end.

(** The spans lie in order inside [s], from [pos] on, and no span starts
    where the one before it ends: a match is a whole run of escapes. *)
Inductive runs_from (s : str) : Z -> list (Z * Z) -> Prop :=
| runs_nil pos : runs_from s pos []
| runs_cons pos a b ms :
    (pos <= a)%Z -> (a < b <= len s)%Z ->
    match ms with (a', _) :: _ => (b < a')%Z | [] => True end ->
    runs_from s b ms ->
    runs_from s pos ((a, b) :: ms).

End Visible.

(** ** Candidates for completion: concrete completers *)

Module Candidates.
Import Completion.

(** *** Concrete completers *)

(** fancycompleter proposes [a]; [pdb.Pdb.complete] proposes [a], and [b]
    twice. *)
Definition ab_completers : completers :=
  Completers (from_list [py "a"]) (from_list [py "a"; py "b"; py "b"]).

End Candidates.

(** ** Lines of a traceback: [lasti2lineno] and [setup] *)

Module Traceback.

(** [for i, lineno in linestarts: if lasti >= i: return lineno] and the
    [return 0] after the loop. *)
Fixpoint first_at_or_before (linestarts : list (Z * Z)) (lasti : Z) : Z :=
  match linestarts with
  | [] => 0
  | (i, lineno) :: rest =>
      if (lasti >=? i)%Z then lineno else first_at_or_before rest lasti
  end.

(** [lasti2lineno(code, lasti)]; [linestarts] is
    [list(dis.findlinestarts(code))], the pairs of an instruction offset
    and the line that starts there. *)
Definition lasti2lineno (linestarts : list (Z * Z)) (lasti : Z) : Z :=
  first_at_or_before (rev linestarts) lasti.

(** An entry of a traceback: its frame, the line starts of the code of the
    frame, and [tb_lasti]. *)
Record traceback := Traceback {
  tb_frame : frame;
  tb_linestarts : list (Z * Z);
  tb_lasti : Z;
}.

Definition set_tb_lineno (self : Pdb) (t : gmap nat Z) : Pdb :=
  MkPdb (enable_hidden_frames self) (show_hidden_frames self)
    (_hidden_frames self) (_via_set_trace_frame self) (fullstack self)
    (stack self) (curindex self) (curframe self) (curframe_locals self) t
    (_lastcompstate self) (_completions self) (_pdbpp_executing_rc_lines self)
    (attrs self) (use_colors self) (output self).

(** The loop of [setup] along [tb.tb_next]. *)
Fixpoint record_lines (self : Pdb) (tb : list traceback) : Pdb :=
  match tb with
  | [] => self
  | t :: tb_next =>
      let lineno := lasti2lineno (tb_linestarts t) (tb_lasti t) in
      record_lines
        (set_tb_lineno self (<[f_id (tb_frame t) := lineno]> (tb_lineno self)))
        tb_next
  end.

(** [setup]; [ret] is what [super().setup(frame, tb)] returned and [self]
    the instance after that call. *)
Definition setup (self : Pdb) (ret : bool) (tb : list traceback) : Pdb * bool :=
  (if negb ret then record_lines self tb else self, ret).

(** *** A concrete traceback *)

(** An exception raised in [frame_A], at the instruction 6 of a code whose
    lines 10, 11 and 12 start at the instructions 0, 4 and 10. *)
Definition raised_in_A : traceback :=
  Traceback Visibility.frame_A [(0, 10); (4, 11); (10, 12)]%Z 6.

End Traceback.

(** ** The history for [put]: [side_effects_free] and [_get_history] *)

Module History.

(** The class [[_0-9a-zA-Z\[\].]]. *)
Definition plain_char (c : ascii) : bool :=
  Ascii.eqb c "_" || is_digit c || is_ascii_letter c ||
  Ascii.eqb c "[" || Ascii.eqb c "]" || Ascii.eqb c ".".

(** A greedy [x*]: what is left after the longest run of [x]. *)
Fixpoint skip (p : ascii -> bool) (s : str) : str :=
  match s with
  | c :: t => if p c then skip p t else s
  | [] => []
  end.

Definition is_blank (c : ascii) : bool := Ascii.eqb c " ".

(** [side_effects_free.match(s)], as a condition, for
    [side_effects_free = re.compile(r"^ *[_0-9a-zA-Z\[\].]* *$")].  The
    three runs are of characters of different kinds, so each takes all
    there is; [$] stands at the end, or before a last line break. *)
Definition side_effects_free (s : str) : bool :=
  match skip is_blank (skip plain_char (skip is_blank s)) with
  | [] => true
  | [c] => Ascii.eqb c "010"
  | _ :: _ :: _ => false
  end.

(** [[s for s in self.history if not side_effects_free.match(s)]] *)
Definition _get_history (history : list str) : list str :=
  List.filter (fun s => negb (side_effects_free s)) history.

End History.

(** ** The prompt *)

Module Prompt.

(** ["++" in value] *)
Fixpoint has_plusplus (s : str) : bool :=
  match s with
  | a :: t =>
      match t with
      | b :: _ => (Ascii.eqb a "+" && Ascii.eqb b "+") || has_plusplus t
      | [] => false
      end
  | [] => false
  end.

(** Where the first group of the pattern, [.*\w], ends: after the last word
    character of the first line ([.] does not match a line break).  A
    shorter first group would leave a word character to the second group,
    which takes none. *)
Fixpoint word_end (s : str) : option nat :=
  match s with
  | [] => None
  | c :: t =>
      if Ascii.eqb c "010" then None
      else match word_end t with
           | Some e => Some (S e)
           | None => if is_word c then Some 1 else None
           end
  end.

(** [re.match(pattern, value)] and [m.groups()] with the default [str()],
    for the pattern of the setter: the group [.*\w], then the optional
    group [\s*\W\s*], then [$].  What follows the first group is the
    second group: nothing, or white space around one character that is not
    a word character (which white space is, too). *)
Definition prompt_groups (value : str) : option (str * str) :=
  match word_end value with
  | None => None
  | Some e =>
      let rest := drop e value in
      if forallb (fun c => negb (is_word c)) rest &&
         (length (List.filter (fun c => negb (is_space c)) rest) <=? 1)
      then Some (take e value, rest)
      else None
  end.

(** The setter of [prompt]: the value that is stored in [_pdbpp_prompt]. *)
Definition set_prompt (value : str) : str :=
  if negb (has_plusplus value) then
    match prompt_groups value with
    | Some (g1, g2) => g1 ++ py "++" ++ g2
    | None => value
    end
  else value.

End Prompt.

(** ** Colouring a line: [set_color] *)

Module Colour.
Import Escapes.

(** The position of the first ["m"] of a line: [None] when the line ends,
    or a line break comes, before one. *)
Fixpoint find_m_line (s : str) : option nat :=
  match s with
  | [] => None
  | c :: t =>
      if is_m c then Some 0
      else if Ascii.eqb c "010" then None
      else S <$> find_m_line t
  end.

(** The pattern of [set_color], [ESC], ["["], a lazy [.*?], then ["m"], at
    the head of [s]: the length of the match.  The lazy [.*?] stops at the
    first ["m"], and [.] does not match a line break. *)
Definition sgr_match (s : str) : option nat :=
  match s with
  | e :: b :: t =>
      if Ascii.eqb e ESC && Ascii.eqb b "["
      then (fun i => i + 3) <$> find_m_line t
      else None
  | _ => None
  end.

(** [re.sub(pattern, replacement, line)] with the replacement
    [\1;{color}m]: the match without its ["m"], then [;], the colour and
    ["m"].  The replacement is a template, in which a backslash of [color]
    would be read as an escape: this is the substitution for a [color]
    without a backslash. *)
Fixpoint add_color_from (fuel : nat) (color s : str) : str :=
  match fuel with
  | 0 => []
  | S fuel' =>
      match s with
      | [] => []
      | c :: t =>
          match sgr_match s with
          | Some n =>
              take (n - 1) s ++ ";"%char :: color ++ "m"%char
                :: add_color_from fuel' color (drop n s)
          | None => c :: add_color_from fuel' color t
          end
      end
  end.

Definition add_color (color line : str) : str :=
  add_color_from (length line) color line.

(** [s.replace(old, new)] for a non-empty [old]; [skip] characters of a
    replaced occurrence are still to be passed over. *)
Fixpoint replace_skip (skip : nat) (old new s : str) : str :=
  match s with
  | [] => []
  | c :: t =>
      match skip with
      | S k => replace_skip k old new t
      | 0 =>
          if bool_decide (take (length old) s = old)
          then new ++ replace_skip (length old - 1) old new t
          else c :: replace_skip 0 old new t
      end
  end.

Definition replace (s old new : str) : str := replace_skip 0 old new s.

(** [set_color(line, color)]; [color] is [str(color)] and [term] is
    [os.environ.get("TERM")]. *)
Definition set_color (term : option str) (line color : str) : str :=
  let set_color := ESC :: "["%char :: color ++ py "m" in
  let clear := ESC :: py "[00m" in
  let result := set_color ++ add_color color line ++ clear in
  if bool_decide (term = Some (py "eterm-color")) then
    let result := replace result set_color (ESC :: py "[37;" ++ color ++ py "m") in
    let result :=
      replace result (ESC :: py "[00;" ++ color ++ py "m")
        (ESC :: py "[37;" ++ color ++ py "m") in
    replace result (ESC :: py "[39;49;00;") (ESC :: py "[37;")
  else result.

(** Every escape character of the line has an ["m"] somewhere after it. *)
Definition escapes_closed (line : str) : Prop :=
  forall pre post, line = pre ++ ESC :: post -> "m"%char ∈ post.

(** *** A concrete line *)

(** A string without ["m"]. *)
Definition no_m (w : str) : Prop := forallb (fun c => negb (is_m c)) w = true.

(** The sequence [set_color] ends its result with. *)
Definition clear_seq : str := ESC :: py "[00m".

(** ["ab"], red, then ["cd"]. *)
Definition ab_red_cd : str := py "ab" ++ (ESC :: py "[31m") ++ py "cd".

End Colour.

(** ** Printing a listing: [_format_line], [_print_lines_pdbpp] *)

Module Printing.
Import Escapes Listing Colour.

(** The decimal digit [d]. *)
Definition digit (d : Z) : ascii := ascii_of_nat (48 + Z.to_nat d).

(** The decimal digits of [n], for [0 <= n]. *)
Fixpoint digits_from (fuel : nat) (n : Z) : str :=
  match fuel with
  | 0 => []
  | S fuel' =>
      if (n <? 10)%Z then [digit n]
      else digits_from fuel' (n / 10) ++ [digit (n mod 10)]
  end.

(** [str(z)] for an [int]. *)
Definition str_of_int (z : Z) : str :=
  if (z <? 0)%Z then "-"%char :: digits_from (S (Z.to_nat (- z))) (- z)
  else digits_from (S (Z.to_nat z)) z.

(** [f"{x:>{w}}"]: [x] with spaces in front up to the width [w]. *)
Definition rjust (x : str) (w : Z) : str :=
  replicate (Z.to_nat (w - len x)) " "%char ++ x.

(** The debugger with what [_print_lines_pdbpp] reads of its configuration
    and environment. *)
Record printer := Printer {
  dbg : Pdb;
  highlight : bool;                 (* self.config.highlight *)
  use_pygments : option bool;       (* self.config.use_pygments, None: auto *)
  truncate_long_lines : bool;       (* self.config.truncate_long_lines *)
  current_line_color : str;         (* self.config.current_line_color *)
  line_number_color : str;          (* self.config.line_number_color *)
  terminal_width : Z;               (* self.get_terminal_size()[0] *)
  TERM : option str;                (* os.environ.get("TERM") *)
}.

Section Lines.
(** [Color.set] of fancycompleter, and the highlighter: [format_lines lines]
    is [self.format_source("\n".join(lines)).splitlines()]. *)
Variable color_set : str -> str -> str.
Variable format_lines : list str -> list str.

Definition _format_line (p : printer) (lineno : Z) (marker line : str)
    (lineno_width : Z) : str :=
  let lineno := rjust (str_of_int lineno) lineno_width in
  let lineno :=
    if highlight p then color_set (line_number_color p) lineno else lineno in
  lineno ++ py "  " ++ rjust marker 2 ++ " "%char :: line.

(** The lines without their line break and with tabs as four spaces, then
    highlighted unless [use_pygments] is [False]. *)
Definition prepare (p : printer) (lines : list str) : list str :=
  let lines := map (fun line => slice_to line (-1)) lines in
  let lines :=
    map (fun line => replace line [ "009"%char ] (py "    ")) lines in
  if negb (bool_decide (use_pygments p = Some false)) then format_lines lines
  else lines.

(** [[self._truncate_to_visible_length(line, maxlength) for line in lines]] *)
Fixpoint truncate_all (lines : list str) (maxlength : Z)
  : outcome (list str) :=
  match lines with
  | [] => Ok []
  | line :: lines' =>
      line ← _truncate_to_visible_length line maxlength;
      lines' ← truncate_all lines' maxlength;
      Ok (line :: lines')
  end.

Definition marker_of (f : frame) (exc_lineno : option Z) (line_no : Z) : str :=
  if (line_no =? f_lineno f)%Z then py "->"
  else if bool_decide (exc_lineno = Some line_no) then py ">>"
  else [].

(** The body of the loop over what [_cut_lines] yields. *)
Fixpoint marked_lines (p : printer) (lineno_width : Z) (exc_lineno : option Z)
    (set_bg : bool) (ys : list entry) : outcome (list str) :=
  match ys with
  | [] => Ok []
  | (None, line) :: ys' =>
      rest ← marked_lines p lineno_width exc_lineno set_bg ys';
      Ok (line :: rest)
  | (Some line_no, line) :: ys' =>
      match curframe (dbg p) with
      | None => Raise AttributeError
      | Some f =>
          let marker := marker_of f exc_lineno line_no in
          let line := _format_line p line_no marker line lineno_width in
          let line :=
            if bool_decide (marker = py "->") && set_bg then
              let len_visible := len (color_sub line) in
              let line :=
                line ++ replicate (Z.to_nat (terminal_width p - len_visible))
                          " "%char in
              set_color (TERM p) line (current_line_color p)
            else line in
          rest ← marked_lines p lineno_width exc_lineno set_bg ys';
          Ok (line :: rest)
      end
  end.

(** The loop of the branch without markers. *)
Fixpoint plain_lines (p : printer) (lineno_width lineno : Z)
    (lines : list str) : list str :=
  match lines with
  | [] => []
  | line :: lines' =>
      _format_line p lineno [] line lineno_width
        :: plain_lines p lineno_width (lineno + 1) lines'
  end.

(** [_print_lines_pdbpp]: the list [new_lines], which is printed joined
    with line breaks. *)
Definition _print_lines_pdbpp (p : printer) (lines : list str) (lineno : Z)
    (print_markers : bool) (max_lines : option Z) : outcome (list str) :=
  let width := terminal_width p in
  let lines := prepare p lines in
  lines ←
    (if truncate_long_lines p then
       truncate_all lines (Z.max (width - 9) 16)
     else Ok lines);
  let lineno_width := len (str_of_int (lineno + len lines)) in
  let exc_lineno :=
    match curframe (dbg p) with
    | Some f => tb_lineno (dbg p) !! f_id f
    | None => None
    end in
  if print_markers then
    let set_bg :=
      highlight p && negb (bool_decide (current_line_color p = [])) in
    let '(ys, r) := _cut_lines (dbg p) lines lineno max_lines in
    new_lines ← marked_lines p lineno_width exc_lineno set_bg ys;
    _ ← r;
    Ok new_lines
  else Ok (plain_lines p lineno_width lineno lines).

End Lines.

(** An entry that [_cut_lines] may yield for [lines] numbered from
    [lineno]. *)
Definition entry_of (lines : list str) (lineno : Z) (y : entry) : Prop :=
  y = ellipsis \/
  exists k line, y = (Some k, line) /\
    (lineno <= k < lineno + len lines)%Z /\ line ∈ lines.

(** A string without [ESC]. *)
Definition plain (s : str) : Prop := Forall (fun c => c <> ESC) s.

(** A session stopped at line 3 of a listing without highlighting, on a
    terminal of 30 columns. *)
Definition plain_printer : printer :=
  Printer (pdb_in (frame_at 3)) false (Some false) true (py "39;49;7")
    (py "36;01") 30 None.

Definition long_lines : list str :=
  map (fun s => py s ++ [ "010"%char ])
    ["def f(x):"; "    return some_function(x, x + 1, x + 2)";
     String "009" "y = 1"]%string.

End Printing.

(** * Properties

    The theorems about the definitions above, component by component. *)

(** ** Python sequences *)

Section PyFacts.

Lemma pop_snoc {A} (l : list A) (a : A) : pop (l ++ [a]) = Ok (a, l).
Proof.
  unfold pop. rewrite rev_app_distr, removelast_last. reflexivity.
Qed.

Lemma pop_nonempty {A} (l : list A) :
  l <> [] -> exists a l', l = l' ++ [a] /\ pop l = Ok (a, l').
Proof.
  intros Hne. destruct (exists_last Hne) as (l' & a & ->).
  exists a, l'. split; [reflexivity | apply pop_snoc].
Qed.

Lemma length_enumerate {A} (l : list A) (start : Z) :
  length (enumerate l start) = length l.
Proof.
  revert start. induction l as [|a l IH]; intros start; simpl; [reflexivity|].
  now rewrite IH.
Qed.

End PyFacts.

(** ** Hidden frames *)

Section VisibilityFacts.
Import Visibility.

Lemma split_stack_spec self fullstack hidden newstack :
  split_stack self fullstack hidden newstack =
    (hidden ++ List.filter (hidden_entry self) fullstack,
     newstack ++ List.filter (fun e => negb (hidden_entry self e)) fullstack).
Proof.
  revert hidden newstack.
  induction fullstack as [|[f lineno] rest IH]; intros hidden newstack; simpl.
  - now rewrite !app_nil_r.
  - unfold hidden_entry; simpl.
    destruct (_is_hidden self f) eqn:Hf; simpl; rewrite IH, <- app_assoc;
      reflexivity.
Qed.

Lemma filter_all {A} (p : A -> bool) (l : list A) :
  Forall (fun a => p a = true) l -> List.filter p l = l.
Proof.
  induction 1 as [|a l Ha _ IH]; simpl; [reflexivity|].
  now rewrite Ha, IH.
Qed.

Lemma filter_none {A} (p : A -> bool) (l : list A) :
  Forall (fun a => p a = true) l -> List.filter (fun a => negb (p a)) l = [].
Proof.
  induction 1 as [|a l Ha _ IH]; simpl; [reflexivity|].
  now rewrite Ha.
Qed.

Lemma filter_both_nil {A} (p : A -> bool) (l : list A) :
  List.filter p l = [] -> List.filter (fun a => negb (p a)) l = [] -> l = [].
Proof.
  destruct l as [|a l]; simpl; [reflexivity|].
  destruct (p a); simpl; discriminate.
Qed.

(** *** The visible stack is never empty *)

(** C1: for a stack of at least one frame [compute_stack] returns, and the
    visible stack it returns is not empty.  Where hidden frames are in force
    and every frame of the stack is hidden, the last entry appended to the
    hidden list is popped from it and is the one visible entry. *)
Theorem compute_stack_nonempty (self : Pdb) (fullstack : list stack_entry)
    (idx : option Z) :
  fullstack <> [] ->
  exists self' newstack newidx,
    compute_stack self fullstack idx = Ok (self', (newstack, newidx)) /\
    newstack <> [] /\
    (show_hidden_frames self = false ->
     Forall (fun e => _is_hidden self e.1 = true) fullstack ->
     exists e, fullstack = _hidden_frames self' ++ [e] /\ newstack = [e]).
Proof.
  intros Hne. unfold compute_stack.
  destruct fullstack as [|e0 rest] eqn:Hfull; [congruence|]. rewrite <- Hfull.
  assert (Hne' : fullstack <> []) by (subst; discriminate).
  clear Hfull Hne e0 rest.
  destruct (show_hidden_frames self) eqn:Hshow.
  - eexists _, _, _. split; [reflexivity|]. split; [assumption|]. discriminate.
  - rewrite split_stack_spec; simpl.
    destruct (List.filter (fun e => negb (hidden_entry self e)) fullstack)
      as [|v vs] eqn:Hvis.
    + destruct (List.filter (hidden_entry self) fullstack) as [|h hs] eqn:Hhid.
      { exfalso. apply Hne'. eapply filter_both_nil; eassumption. }
      destruct (pop_nonempty (h :: hs)) as (e & hidden' & Heq & Hpop);
        [discriminate|].
      rewrite Hpop; simpl.
      eexists _, _, _. split; [reflexivity|]. split; [discriminate|].
      intros _ Hall. exists e. split; [|reflexivity]. simpl.
      rewrite <- Heq, <- Hhid. symmetry. apply filter_all. exact Hall.
    + simpl. eexists _, _, _. split; [reflexivity|]. split; [discriminate|].
      intros _ Hall. apply (filter_none (hidden_entry self)) in Hall.
      rewrite Hall in Hvis. discriminate.
Qed.

(** *** The frame of the initial [set_trace] *)

(** C4: the frame from which [set_trace] was entered is hidden exactly when
    hidden frames are enabled and its code carries the decorator's marker:
    neither [__unittest] nor [__tracebackhide__], in its locals or globals,
    hides it. *)
Theorem entry_frame_hidden_only_by_decorator (self : Pdb) (f entry : frame) :
  _via_set_trace_frame self = Some entry ->
  frame_is f entry = true ->
  _is_hidden self f =
    enable_hidden_frames self && has_hide_marker (co_consts f).
Proof.
  intros Hvia His. unfold _is_hidden.
  destruct (enable_hidden_frames self); simpl; [|reflexivity].
  destruct (has_hide_marker (co_consts f)); [reflexivity|].
  rewrite Hvia; simpl. now rewrite His.
Qed.

(** A frame whose function is decorated with [hideframe] is hidden, the
    frame of the initial [set_trace] included. *)
Lemma hideframe_is_hidden (self : Pdb) (f : frame) (consts : list pyconst) :
  enable_hidden_frames self = true ->
  co_consts f = hideframe consts ->
  _is_hidden self f = true.
Proof.
  intros Hen Hco. unfold _is_hidden, has_hide_marker, hideframe in *.
  rewrite Hen, Hco, rev_app_distr. reflexivity.
Qed.

(** *** A hidden current frame *)

Lemma find_frame_single_miss (C : frame) (lc : Z) (cur : option frame) :
  frame_is_opt C cur = false -> find_frame [(C, lc)] cur 0 = None.
Proof. intros H. simpl. now rewrite H. Qed.





Lemma compute_stack_nonempty_witness :
  exists self' newstack newidx,
    compute_stack plain_pdb [(frame_A, 10%Z); (frame_B, 20%Z)] None =
      Ok (self', (newstack, newidx)) /\
    newstack <> [] /\
    (show_hidden_frames plain_pdb = false ->
     Forall (fun e => _is_hidden plain_pdb e.1 = true)
       [(frame_A, 10%Z); (frame_B, 20%Z)] ->
     exists e,
       [(frame_A, 10%Z); (frame_B, 20%Z)] = _hidden_frames self' ++ [e] /\
       newstack = [e]).
Proof.
  apply (compute_stack_nonempty plain_pdb [(frame_A, 10%Z); (frame_B, 20%Z)]
           None).
  discriminate.
Defined.

Lemma entry_frame_hidden_only_by_decorator_witness :
  _is_hidden pdb_entered_in_A frame_A =
    enable_hidden_frames pdb_entered_in_A &&
    has_hide_marker (co_consts frame_A).
Proof.
  apply (entry_frame_hidden_only_by_decorator pdb_entered_in_A frame_A frame_A);
    reflexivity.
Defined.



End VisibilityFacts.

(** ** The session singleton *)

Section SingletonFacts.
Import Singleton.

(** *** The recursion guard on the exit paths *)

Ltac step_call :=
  repeat match goal with
         | H : (_, _) = (_, _) |- _ => inversion H; subst; clear H
         | H : context [match ?x with _ => _ end] |- _ =>
             destruct x eqn:?; simpl in *
         end.

(** Every path on which the call returns clears the guard. *)
Lemma PdbMeta_call_return_clears_guard (w : world) (cls : class)
    (kwargs : gmap str pyval) (st st' : state) (r : result) :
  PdbMeta_call w cls kwargs st = (Ok r, st') ->
  _pdbpp_in_init st' = false.
Proof.
  unfold PdbMeta_call, mbind, M_bind, mret, M_ret, get, call, set_in_init,
    set_GLOBAL_PDB, settrace_None.
  intros H. simpl in H. step_call; try discriminate; reflexivity.
Qed.

(** No path on which the call raises clears it: the guard is set when the
    exception leaves the constructor, unless [__init__] itself cleared
    it. *)
Lemma PdbMeta_call_raise_leaves_guard (w : world) (cls : class)
    (kwargs : gmap str pyval) (st st' : state) (e : exn) :
  init_keeps_guard w ->
  PdbMeta_call w cls kwargs st = (Raise e, st') ->
  _pdbpp_in_init st' = true.
Proof.
  intros Hinit.
  unfold PdbMeta_call, mbind, M_bind, mret, M_ret, get, call, set_in_init,
    set_GLOBAL_PDB, settrace_None.
  intros H. simpl in H. step_call; try discriminate;
    first [ reflexivity
          | assumption
          | match goal with
            | Hc : cls_init w _ _ _ = _ |- _ => exact (Hinit _ _ _ _ _ Hc)
            end ].
Qed.

(** C2, at a call that raises: [Pdb(nosuch=1)] raises [TypeError] from
    [__init__] and leaves [_pdbpp_in_init] set; the next call, [Pdb()], then
    takes the recursion branch and returns a plain [pdb.Pdb]. *)
Theorem PdbMeta_call_guard_left_set_on_raise :
  fst (PdbMeta_call plain_world Pdb_class bad_kwargs fresh_state)
    = Raise TypeError /\
  _pdbpp_in_init
    (snd (PdbMeta_call plain_world Pdb_class bad_kwargs fresh_state)) = true /\
  fst (PdbMeta_call plain_world Pdb_class ∅
         (snd (PdbMeta_call plain_world Pdb_class bad_kwargs fresh_state)))
    = Ok (OrigPdb ∅).
Proof. vm_compute. repeat split; reflexivity. Qed.

(** Without the failed call, [Pdb()] creates a pdb++ instance. *)
Lemma PdbMeta_call_fresh_creates :
  exists obj,
    fst (PdbMeta_call plain_world Pdb_class ∅ fresh_state) = Ok (Created obj).
Proof. eexists. vm_compute. reflexivity. Qed.

End SingletonFacts.

(** ** Colour escapes *)

Section EscapesFacts.
Import Escapes.

(** *** One escape *)

Lemma find_m_bound s i : find_m s = Some i -> i < length s.
Proof.
  revert i. induction s as [|c t IH]; intros i; simpl; [discriminate|].
  destruct (is_m c); [intros [= <-]; lia|].
  destruct (find_m t) as [j|]; simpl; [|discriminate].
  intros [= <-]. specialize (IH j eq_refl). lia.
Qed.

Lemma find_m_app_l s t i :
  find_m s = Some i -> find_m (s ++ t) = Some i.
Proof.
  revert i. induction s as [|c s IH]; intros i; simpl; [discriminate|].
  destruct (is_m c); [trivial|].
  destruct (find_m s) as [j|]; simpl; [|discriminate].
  intros [= <-]. now rewrite (IH j eq_refl).
Qed.

Lemma find_m_app_r s t :
  find_m s = None -> find_m (s ++ t) = (fun i => length s + i) <$> find_m t.
Proof.
  induction s as [|c s IH]; simpl.
  - intros _. now destruct (find_m t).
  - destruct (is_m c); [discriminate|].
    destruct (find_m s) as [j|]; simpl; [discriminate|].
    intros _. rewrite IH by reflexivity. now destruct (find_m t).
Qed.

Lemma find_m_take s i :
  find_m s = Some i -> find_m (take (S i) s) = Some i.
Proof.
  revert i. induction s as [|c s IH]; intros i; simpl; [discriminate|].
  destruct (is_m c) eqn:Hc.
  - intros [= <-]. reflexivity.
  - destruct (find_m s) as [j|]; simpl; [|discriminate].
    intros [= <-]. now rewrite (IH j eq_refl).
Qed.

Lemma esc_one_bound s n : esc_one s = Some n -> 3 <= n <= length s.
Proof.
  destruct s as [|e [|c t]]; simpl; try discriminate.
  destruct (_ && _); [|discriminate].
  destruct (find_m t) as [i|] eqn:Hi; simpl; [|discriminate].
  intros [= <-]. apply find_m_bound in Hi. lia.
Qed.

(** An escape is recognised from its own characters. *)
Lemma esc_one_local s n t :
  esc_one s = Some n -> esc_one (take n s ++ t) = Some n.
Proof.
  destruct s as [|e [|c u]]; simpl; try discriminate.
  destruct (_ && _) eqn:Hhead; [|discriminate].
  destruct (find_m u) as [i|] eqn:Hi; simpl; [|discriminate].
  intros [= <-]. replace (i + 3) with (S (S (S i))) by lia. simpl.
  rewrite Hhead. rewrite (find_m_app_l _ t i (find_m_take u i Hi)). simpl.
  f_equal. lia.
Qed.

(** *** Fuel *)

Lemma esc_run_fuel f1 f2 s :
  length s <= f1 -> length s <= f2 -> esc_run f1 s = esc_run f2 s.
Proof.
  revert f2 s. induction f1 as [|f1 IH]; intros f2 s H1 H2.
  - destruct s; [|simpl in H1; lia]. now destruct f2.
  - destruct f2 as [|f2].
    + destruct s; [reflexivity | simpl in H2; lia].
    + simpl. destruct (esc_one s) as [n|] eqn:Hn; [|reflexivity].
      apply esc_one_bound in Hn. f_equal. apply IH; rewrite length_drop; lia.
Qed.

Lemma match_at_eq s :
  match_at s =
    match esc_one s with
    | Some n => n + match_at (drop n s)
    | None => 0
    end.
Proof.
  unfold match_at. destruct s as [|c t]; [reflexivity|].
  cbn [length esc_run]. destruct (esc_one (c :: t)) as [n|] eqn:Hn; [|reflexivity].
  apply esc_one_bound in Hn. f_equal.
  apply esc_run_fuel; rewrite ?length_drop; simpl in *; lia.
Qed.

Lemma esc_run_le fuel s : esc_run fuel s <= length s.
Proof.
  revert s. induction fuel as [|fuel IH]; intros s; simpl; [lia|].
  destruct (esc_one s) as [n|] eqn:Hn; [|lia].
  apply esc_one_bound in Hn. specialize (IH (drop n s)).
  rewrite length_drop in IH. lia.
Qed.

Lemma match_at_le s : match_at s <= length s.
Proof. apply esc_run_le. Qed.

Lemma sub_from_fuel f1 f2 s :
  length s <= f1 -> length s <= f2 -> sub_from f1 s = sub_from f2 s.
Proof.
  revert f2 s. induction f1 as [|f1 IH]; intros f2 s H1 H2.
  - destruct s; [|simpl in H1; lia]. now destruct f2.
  - destruct f2 as [|f2].
    + destruct s; [reflexivity | simpl in H2; lia].
    + destruct s as [|c t]; [reflexivity|]. cbn [sub_from].
      pose proof (match_at_le (c :: t)) as Hle.
      destruct (match_at (c :: t)) as [|n].
      * f_equal. apply IH; simpl in *; lia.
      * apply IH; rewrite length_drop; simpl in *; lia.
Qed.

Lemma color_sub_nil : color_sub [] = [].
Proof. reflexivity. Qed.

Lemma color_sub_cons c t :
  color_sub (c :: t) =
    match match_at (c :: t) with
    | 0 => c :: color_sub t
    | S _ as n => color_sub (drop n (c :: t))
    end.
Proof.
  unfold color_sub. cbn [length sub_from].
  pose proof (match_at_le (c :: t)) as Hle.
  destruct (match_at (c :: t)) as [|n]; [reflexivity|].
  apply sub_from_fuel; rewrite ?length_drop; simpl in *; lia.
Qed.

(** The match at the head is removed. *)
Lemma color_sub_skip s : color_sub s = color_sub (drop (match_at s) s).
Proof.
  destruct s as [|c t]; [reflexivity|]. rewrite color_sub_cons.
  destruct (match_at (c :: t)) eqn:Hm; [|reflexivity].
  simpl drop. now rewrite color_sub_cons, Hm.
Qed.

(** *** Removal escape by escape *)

Lemma strip_skip_drop k s : strip_skip k s = strip (drop k s).
Proof.
  revert k. induction s as [|c t IH]; intros k; [now destruct k|].
  destruct k as [|k]; [reflexivity|]. simpl. apply IH.
Qed.

Lemma strip_cons c t :
  strip (c :: t) =
    match esc_one (c :: t) with
    | Some n => strip (drop n (c :: t))
    | None => c :: strip t
    end.
Proof.
  unfold strip at 1. cbn [strip_skip].
  destruct (esc_one (c :: t)) as [n|] eqn:Hn; [|reflexivity].
  apply esc_one_bound in Hn. rewrite strip_skip_drop.
  destruct n as [|n]; [lia|]. simpl. now rewrite Nat.sub_0_r.
Qed.

Lemma color_sub_strip s : color_sub s = strip s.
Proof.
  remember (length s) as k eqn:Hk. revert s Hk.
  induction k as [k IH] using lt_wf_ind. intros s Hk.
  destruct s as [|c t]; [reflexivity|].
  rewrite color_sub_cons, strip_cons, match_at_eq.
  destruct (esc_one (c :: t)) as [n|] eqn:Hn.
  - apply esc_one_bound in Hn.
    destruct (n + match_at (drop n (c :: t))) as [|r] eqn:Hr; [lia|].
    rewrite <- Hr, <- drop_drop, <- color_sub_skip.
    eapply IH; [|reflexivity]. rewrite length_drop. simpl in *. lia.
  - f_equal. eapply IH; [|reflexivity]. simpl in Hk. lia.
Qed.

(** *** Bounds on what remains *)

Lemma strip_after_m b i :
  find_m b = Some i -> length (strip (drop (S i) b)) <= length (strip b).
Proof.
  revert i. induction b as [|c b IH]; intros i; [discriminate|].
  rewrite strip_cons. cbn [find_m]. destruct (is_m c) eqn:Hc.
  - intros [= <-]. rewrite skipn_cons, drop_0.
    destruct (esc_one (c :: b)) as [n|] eqn:Hn; [|cbn [length]; lia].
    exfalso. unfold esc_one in Hn. destruct b; [discriminate|].
    unfold is_m in Hc. apply Ascii.eqb_eq in Hc. subst c.
    now vm_compute in Hn.
  - destruct (find_m b) as [j|] eqn:Hj; [|discriminate].
    change (S <$> Some j) with (Some (S j)).
    intros [= <-]. specialize (IH j eq_refl). rewrite skipn_cons.
    destruct (esc_one (c :: b)) as [n|] eqn:Hn; [|cbn [length]; lia].
    unfold esc_one in Hn. destruct b as [|c2 u]; [discriminate|].
    destruct (_ && _) eqn:Hhead; [|discriminate].
    apply andb_prop in Hhead as [_ Hc2]. apply negb_true_iff in Hc2.
    cbn [find_m] in Hj. rewrite Hc2 in Hj.
    destruct (find_m u) as [k|]; [|discriminate].
    injection Hj as <-. injection Hn as <-.
    replace (k + 3) with (S (S (S k))) by lia. reflexivity.
Qed.

Lemma esc_one_crossing a b n :
  esc_one (a ++ b) = Some n -> a <> [] -> length a < n ->
  exists i, find_m b = Some i /\ n = length a + i + 1.
Proof.
  intros Hn Ha Hlt. destruct a as [|e a]; [congruence|]. clear Ha.
  destruct a as [|c a]; cbn [app esc_one length] in *.
  - destruct b as [|c u]; [discriminate|].
    destruct (_ && _) eqn:Hhead; [|discriminate].
    apply andb_prop in Hhead as [_ Hc]. apply negb_true_iff in Hc.
    cbn [find_m]. rewrite Hc.
    destruct (find_m u) as [k|]; [|discriminate].
    injection Hn as <-. exists (S k). split; [reflexivity|lia].
  - destruct (_ && _); [|discriminate].
    destruct (find_m a) as [j|] eqn:Hj.
    + rewrite (find_m_app_l _ _ _ Hj) in Hn. injection Hn as <-.
      apply find_m_bound in Hj. lia.
    + rewrite (find_m_app_r _ _ Hj) in Hn.
      destruct (find_m b) as [i|]; [|discriminate].
      injection Hn as <-. exists i. split; [reflexivity|lia].
Qed.

Lemma strip_app_le a b :
  length (strip (a ++ b)) <= length a + length (strip b).
Proof.
  remember (length a) as k eqn:Hk. revert a Hk.
  induction k as [k IH] using lt_wf_ind. intros a Hk.
  destruct a as [|c a]; [simpl; lia|].
  change ((c :: a) ++ b) with (c :: (a ++ b)). rewrite strip_cons.
  destruct (esc_one (c :: a ++ b)) as [n|] eqn:Hn.
  - pose proof (esc_one_bound _ _ Hn) as Hb.
    destruct (le_lt_dec n (length (c :: a))) as [Hle|Hgt].
    + change (c :: a ++ b) with ((c :: a) ++ b).
      rewrite drop_app_le by exact Hle.
      specialize (IH (length (drop n (c :: a)))).
      rewrite length_drop in IH. rewrite Hk.
      etransitivity; [apply (IH ltac:(simpl in *; lia) _ ltac:(now rewrite length_drop))|].
      simpl in *; lia.
    + destruct (esc_one_crossing (c :: a) b n Hn ltac:(discriminate) Hgt)
        as (i & Hi & ->).
      change (c :: a ++ b) with ((c :: a) ++ b).
      rewrite drop_app_ge by lia.
      replace (length (c :: a) + i + 1 - length (c :: a)) with (S i) by lia.
      pose proof (strip_after_m b i Hi). lia.
  - simpl. specialize (IH (length a) ltac:(simpl in Hk; lia) a eq_refl).
    simpl in Hk. lia.
Qed.

Lemma color_sub_app_le a b :
  length (color_sub (a ++ b)) <= length a + length (color_sub b).
Proof. rewrite !color_sub_strip. apply strip_app_le. Qed.

Lemma color_sub_le a : length (color_sub a) <= length a.
Proof.
  pose proof (color_sub_app_le a []) as H. rewrite app_nil_r in H.
  simpl in H. lia.
Qed.

(** *** Matches are removed whole *)

Lemma absorbed_nil : absorbed [].
Proof. intros t. reflexivity. Qed.

Lemma absorbed_app e1 e2 : absorbed e1 -> absorbed e2 -> absorbed (e1 ++ e2).
Proof. intros H1 H2 t. now rewrite <- app_assoc, H1, H2. Qed.

Lemma absorbed_sub e : absorbed e -> color_sub e = [].
Proof. intros H. specialize (H []). now rewrite app_nil_r in H. Qed.

Lemma esc_one_absorbed s n : esc_one s = Some n -> absorbed (take n s).
Proof.
  intros Hn t. rewrite !color_sub_strip.
  pose proof (esc_one_bound _ _ Hn) as Hb.
  pose proof (esc_one_local s n t Hn) as Hloc.
  assert (Hlen : length (take n s) = n) by (rewrite length_take; lia).
  destruct (take n s ++ t) as [|c u] eqn:Hu; [discriminate|].
  rewrite strip_cons, Hloc, <- Hu.
  rewrite drop_app_ge by lia. rewrite Hlen, Nat.sub_diag. reflexivity.
Qed.

Lemma take_add {A} (n r : nat) (l : list A) :
  take (n + r) l = take n l ++ take r (drop n l).
Proof.
  revert l. induction n as [|n IH]; intros l; [reflexivity|].
  destruct l as [|a l]; simpl; [now destruct r|]. now rewrite IH.
Qed.

Lemma esc_run_absorbed fuel s : absorbed (take (esc_run fuel s) s).
Proof.
  revert s. induction fuel as [|fuel IH]; intros s; simpl;
    [apply absorbed_nil|].
  destruct (esc_one s) as [n|] eqn:Hn; [|apply absorbed_nil].
  rewrite take_add. apply absorbed_app; [now apply esc_one_absorbed | apply IH].
Qed.

Lemma match_at_absorbed s : absorbed (take (match_at s) s).
Proof. apply esc_run_absorbed. Qed.

Lemma spans_from_weaken s pos pos' ms :
  (pos' <= pos)%Z -> spans_from s pos ms -> spans_from s pos' ms.
Proof.
  intros Hle H. destruct H; constructor; try assumption. lia.
Qed.

Lemma slice_nonneg {A} (l : list A) (a b : Z) :
  (0 <= a)%Z -> (0 <= b)%Z ->
  slice l a b = drop (Z.to_nat a) (take (Z.to_nat b) l).
Proof.
  intros Ha Hb. unfold slice, clamp.
  destruct (Z.ltb_spec a 0), (Z.ltb_spec b 0); try lia. reflexivity.
Qed.

Lemma finditer_from_spans s fuel pos u :
  (0 <= pos)%Z -> drop (Z.to_nat pos) s = u ->
  spans_from s pos (finditer_from fuel pos u).
Proof.
  revert pos u. induction fuel as [|fuel IH]; intros pos u Hpos Hu; simpl;
    [constructor|].
  destruct u as [|c t] eqn:Heq; [constructor|]. rewrite <- Heq in *.
  assert (Hlen : length u = length s - Z.to_nat pos)
    by (rewrite <- Hu; apply length_drop).
  assert (Hpos_lt : Z.to_nat pos < length s)
    by (rewrite Heq in Hlen; simpl in Hlen; lia).
  pose proof (match_at_le u) as Hle.
  pose proof (match_at_absorbed u) as Habs.
  destruct (match_at u) as [|n] eqn:Hm.
  - apply (spans_from_weaken s (pos + 1)); [lia|]. apply IH; [lia|].
    replace (Z.to_nat (pos + 1)) with (Z.to_nat pos + 1) by lia.
    rewrite <- drop_drop, Hu, Heq. reflexivity.
  - constructor.
    + lia.
    + unfold len. lia.
    + rewrite slice_nonneg by lia.
      replace (Z.to_nat (pos + Z.of_nat (S n))) with (Z.to_nat pos + S n)
        by lia.
      rewrite skipn_firstn_comm.
      replace (Z.to_nat pos + S n - Z.to_nat pos) with (S n) by lia.
      rewrite Hu. exact Habs.
    + apply IH; [lia|].
      replace (Z.to_nat (pos + Z.of_nat (S n))) with (Z.to_nat pos + S n)
        by lia.
      rewrite <- drop_drop, Hu. reflexivity.
Qed.

Lemma finditer_spans s : spans_from s 0 (finditer s).
Proof. apply finditer_from_spans; [lia | reflexivity]. Qed.

End EscapesFacts.

(** ** Source listings *)

Section ListingFacts.
Import Escapes Listing.

(** *** The visible length of a truncated line *)

Lemma length_slice_le {A} (l : list A) (a b : Z) :
  (0 <= a <= b)%Z -> (len (slice l a b) <= b - a)%Z.
Proof.
  intros H. rewrite slice_nonneg by lia. unfold len.
  rewrite length_drop, length_take. lia.
Qed.

Lemma length_slice_to_le {A} (l : list A) (k : Z) :
  (0 <= k)%Z -> (len (slice_to l k) <= k)%Z.
Proof.
  intros H. unfold slice_to, clamp, len.
  destruct (Z.ltb_spec k 0); [lia|]. rewrite length_take. lia.
Qed.

(** [v[:-overflow]] keeps what fits. *)
Lemma length_slice_to_neg {A} (v : list A) (overflow room : Z) :
  (0 < overflow)%Z -> (0 <= room)%Z -> (len v - overflow <= room)%Z ->
  (len (slice_to v (- overflow)) <= room)%Z.
Proof.
  intros Ho Hr Hv. unfold slice_to, clamp, len in *.
  destruct (Z.ltb_spec (- overflow) 0); [|lia]. rewrite length_take. lia.
Qed.

Lemma spans_from_last s pos ms a b :
  spans_from s pos ms -> last ms = Some (a, b) -> absorbed (slice s a b).
Proof.
  induction 1 as [|pos a0 b0 ms Hle Hab Habs Hms IH]; [discriminate|].
  destruct ms as [|m ms'].
  - intros [= -> ->]. exact Habs.
  - intros Hl. apply IH. exact Hl.
Qed.

Lemma shows_at_most_app ret total v e :
  shows_at_most ret total -> absorbed e ->
  shows_at_most ((ret ++ v) ++ e) (total + len v).
Proof.
  intros Hret He t. rewrite <- !app_assoc.
  specialize (Hret (v ++ e ++ t)).
  pose proof (color_sub_app_le v (e ++ t)) as Hv. rewrite He in Hv.
  unfold len in *. lia.
Qed.

Lemma shows_at_most_weaken ret total total' :
  (total <= total')%Z -> shows_at_most ret total -> shows_at_most ret total'.
Proof. intros Hle H t. specialize (H t). lia. Qed.

Lemma truncate_loop_bound s maxlength ms ret total pos m_end :
  spans_from s pos ms ->
  (0 <= pos)%Z -> (0 <= total)%Z ->
  (total < maxlength \/ (total <= maxlength /\ ms <> []))%Z ->
  shows_at_most ret total ->
  exists ret',
    truncate_loop s maxlength ms ret total pos m_end = Ok ret' /\
    shows_at_most ret' maxlength.
Proof.
  intros Hspans. revert ret total m_end.
  induction Hspans as [pos|pos a b ms Hle Hab Habs Hms IH];
    intros ret total m_end Hpos Htot Hroom Hret; cbn [truncate_loop].
  - destruct Hroom as [Hroom|[_ Hne]]; [|congruence].
    destruct (Z.gtb_spec (maxlength - total) 0) as [_|]; [|lia].
    eexists. split; [reflexivity|]. intros t. rewrite <- app_assoc.
    specialize (Hret (slice_to (slice_from s m_end) (maxlength - total) ++ t)).
    pose proof (color_sub_app_le
                  (slice_to (slice_from s m_end) (maxlength - total)) t) as Hv.
    pose proof (length_slice_to_le (slice_from s m_end) (maxlength - total)
                  ltac:(lia)) as Hk.
    unfold len in *. lia.
  - assert (Htot_le : (total <= maxlength)%Z) by (destruct Hroom; lia).
    pose proof (length_slice_le s pos a ltac:(lia)) as Hv.
    destruct (Z.geb_spec (a - pos + total - maxlength) 0) as [Hover|Hover].
    + eexists. split; [reflexivity|].
      destruct (Z.eqb_spec (a - pos + total - maxlength) 0) as [Hz|Hnz].
      * eapply shows_at_most_weaken;
          [|apply shows_at_most_app; [exact Hret | exact Habs]]. lia.
      * eapply shows_at_most_weaken;
          [|apply shows_at_most_app; [exact Hret | exact Habs]].
        pose proof (length_slice_to_neg (slice s pos a)
                      (a - pos + total - maxlength) (maxlength - total)
                      ltac:(lia) ltac:(lia) ltac:(lia)).
        lia.
    + apply IH; [lia | lia | left; lia |].
      eapply shows_at_most_weaken;
        [|apply shows_at_most_app; [exact Hret | exact Habs]]. lia.
Qed.

Lemma endswith_app ret x : endswith (ret ++ x) x = true.
Proof.
  unfold endswith. apply bool_decide_eq_true.
  rewrite length_app, Nat.add_sub. apply drop_app_length.
Qed.

Lemma keep_reset_shows s ret ms pos total :
  spans_from s pos ms -> shows_at_most ret total ->
  shows_at_most (keep_reset s ret ms) total.
Proof.
  intros Hspans Hret. unfold keep_reset.
  destruct (negb _); [|exact Hret].
  destruct (last ms) as [[a b]|] eqn:Hlast; [|exact Hret].
  destruct (_ =? _)%Z; [|exact Hret].
  destruct (negb _); [|exact Hret].
  pose proof (spans_from_last _ _ _ _ _ Hspans Hlast) as Habs.
  intros t. rewrite <- app_assoc. specialize (Hret (slice s a b ++ t)).
  now rewrite Habs in Hret.
Qed.

Lemma take_full {A} (j : nat) (l : list A) :
  length (take j l) = length l -> take j l = l.
Proof.
  intros H. rewrite length_take in H. apply take_ge. lia.
Qed.

Lemma length_take_le_all {A} (j : nat) (l : list A) :
  length (take j l) <= length l.
Proof. rewrite length_take. lia. Qed.

Lemma take_then_slice {A} (s : list A) (pos a : Z) :
  (0 <= pos <= a)%Z ->
  take (Z.to_nat pos) s ++ slice s pos a = take (Z.to_nat a) s.
Proof.
  intros H. rewrite slice_nonneg by lia.
  rewrite <- (take_drop (Z.to_nat pos) (take (Z.to_nat a) s)) at 2.
  rewrite take_take. f_equal. f_equal. lia.
Qed.

Lemma slice_to_is_take {A} (v : list A) (k : Z) :
  exists j, slice_to v k = take j v.
Proof. eexists. reflexivity. Qed.

(** A result of the loop as long as [s] is [s]: the loop copies [s] from
    left to right and only leaves characters out. *)
Lemma truncate_loop_full s maxlength ms ret total pos m_end ret' :
  spans_from s pos ms ->
  (0 <= pos)%Z ->
  ret = take (Z.to_nat pos) s ->
  (m_end = pos \/ ms <> []) ->
  truncate_loop s maxlength ms ret total pos m_end = Ok ret' ->
  length ret' = length s ->
  ret' = s.
Proof.
  intros Hspans. revert ret total m_end.
  induction Hspans as [pos|pos a b ms Hle Hab Habs Hms IH];
    intros ret total m_end Hpos Hret Hend; cbn [truncate_loop].
  - destruct Hend as [->|Hne]; [|congruence].
    destruct (_ >? _)%Z; [|discriminate].
    unfold slice_from, clamp. destruct (Z.ltb_spec pos 0); [lia|].
    destruct (slice_to_is_take (drop (Z.to_nat pos) s) (maxlength - total))
      as (j & ->).
    intros [= <-] Hlen.
    rewrite Hret in *. rewrite <- (take_drop (Z.to_nat pos) s) at 3.
    f_equal. apply take_full.
    rewrite <- (take_drop (Z.to_nat pos) s) in Hlen at 3.
    rewrite !length_app in Hlen. lia.
  - destruct (_ >=? _)%Z.
    + intros Hok Hlen.
      assert (Hv : exists j,
                ret' = (ret ++ take j (slice s pos a)) ++ slice s a b).
      { destruct (_ =? _)%Z; injection Hok as <-.
        - exists (length (slice s pos a)). now rewrite firstn_all.
        - destruct (slice_to_is_take (slice s pos a)
                      (- (a - pos + total - maxlength))) as (j & ->).
          now exists j. }
      destruct Hv as (j & ->). subst ret.
      assert (Hs : s = (take (Z.to_nat pos) s ++ slice s pos a)
                       ++ slice s a b ++ drop (Z.to_nat b) s).
      { rewrite take_then_slice by lia. rewrite app_assoc.
        rewrite take_then_slice by lia. now rewrite take_drop. }
      pose proof (f_equal length Hs) as Hlens.
      repeat rewrite length_app in Hlens. repeat rewrite length_app in Hlen.
      pose proof (length_take_le_all j (slice s pos a)) as Hj.
      assert (Hfull : take j (slice s pos a) = slice s pos a)
        by (apply take_full; lia).
      assert (Hrest : drop (Z.to_nat b) s = [])
        by (apply length_zero_iff_nil; lia).
      rewrite Hfull. etransitivity; [|symmetry; exact Hs].
      now rewrite Hrest, app_nil_r.
    + apply IH; [lia | | now left].
      subst ret. rewrite take_then_slice by lia. apply take_then_slice. lia.
Qed.

Lemma spans_from_last_bounds s pos ms a b :
  spans_from s pos ms -> (0 <= pos)%Z -> last ms = Some (a, b) ->
  (0 <= a < b)%Z /\ (b <= len s)%Z.
Proof.
  induction 1 as [|pos a0 b0 ms Hle Hab Habs Hms IH]; [discriminate|].
  intros Hpos. destruct ms as [|m ms'].
  - intros [= -> ->]. lia.
  - intros Hl. apply IH; [lia | exact Hl].
Qed.

(** A string whose last match reaches its end ends with that match. *)
Lemma endswith_tail (s : str) (a : Z) :
  (0 <= a <= len s)%Z -> endswith s (slice s a (len s)) = true.
Proof.
  intros Ha. unfold endswith. apply bool_decide_eq_true.
  rewrite slice_nonneg by (unfold len; lia).
  unfold len. rewrite Nat2Z.id, firstn_all, length_drop.
  f_equal. unfold len in Ha. lia.
Qed.

Lemma keep_reset_ends_always s ret ms a b :
  (length ret = length s -> ret = s) ->
  (0 <= a <= len s)%Z ->
  last ms = Some (a, b) -> b = len s ->
  endswith (keep_reset s ret ms) (slice s a b) = true.
Proof.
  unfold keep_reset. intros Hfull Ha Hlast ->. rewrite Hlast.
  rewrite Z.eqb_refl.
  destruct (Z.eqb_spec (len ret) (len s)) as [Heq|Hne]; simpl.
  - rewrite Hfull by (unfold len in Heq; lia). now apply endswith_tail.
  - destruct (endswith ret (slice s a (len s))) eqn:Hends; simpl;
      [exact Hends | apply endswith_app].
Qed.

(** C10, for a non-negative [maxlength]: the call returns (neither
    assertion fails), the returned string has visible length at most
    [maxlength], and if the last match of [RE_COLOR_ESCAPES] reaches the end
    of [s], the returned string ends with that match, the reset sequence,
    whether or not anything was cut. *)
Theorem truncate_to_visible_length_bound (s : str) (maxlength : Z) :
  (0 <= maxlength)%Z ->
  exists ret,
    _truncate_to_visible_length s maxlength = Ok ret /\
    (len (color_sub ret) <= maxlength)%Z /\
    (forall a b, last (finditer s) = Some (a, b) -> b = len s ->
     endswith ret (slice s a b) = true).
Proof.
  intros Hmax. unfold _truncate_to_visible_length.
  pose proof (finditer_spans s) as Hspans.
  destruct (finditer s) as [|m ms] eqn:Hms.
  - eexists. split; [reflexivity|]. split; [|discriminate].
    apply Z.le_trans with (len (slice_to s maxlength));
      [apply Nat2Z.inj_le, color_sub_le | now apply length_slice_to_le].
  - rewrite <- Hms in *.
    destruct (truncate_loop_bound s maxlength (finditer s) [] 0 0 0 Hspans)
      as (ret & Hloop & Hshows); [lia | lia | right; split; [lia|] | |].
    { rewrite Hms. discriminate. }
    { intros t. simpl. lia. }
    rewrite Hloop. simpl.
    pose proof (keep_reset_shows s ret (finditer s) 0 maxlength Hspans Hshows)
      as Hfinal.
    specialize (Hfinal []). rewrite app_nil_r, color_sub_nil in Hfinal.
    change (len []) with 0%Z in Hfinal.
    destruct (Z.leb_spec (len (color_sub (keep_reset s ret (finditer s))))
                maxlength) as [Hle|Hgt]; [|lia].
    eexists. split; [reflexivity|]. split; [exact Hle|].
    intros a b Hlast Hb.
    destruct (spans_from_last_bounds s 0 (finditer s) a b Hspans) as [Ha Hb'];
      [lia | exact Hlast |].
    apply keep_reset_ends_always; [| lia | exact Hlast | exact Hb].
    apply (truncate_loop_full s maxlength (finditer s) [] 0 0 0);
      [exact Hspans | lia | reflexivity | now left | exact Hloop].
Qed.

Lemma truncate_to_visible_length_bound_witness :
  exists ret,
    _truncate_to_visible_length red_abcdef 3 = Ok ret /\
    (len (color_sub ret) <= 3)%Z /\
    (forall a b, last (finditer red_abcdef) = Some (a, b) ->
     b = len red_abcdef ->
     endswith ret (slice red_abcdef a b) = true).
Proof.
  apply (truncate_to_visible_length_bound red_abcdef 3). lia.
Defined.

Lemma truncate_red_abcdef :
  _truncate_to_visible_length red_abcdef 3 =
    Ok ((ESC :: py "[31mabc") ++ (ESC :: py "[0m")).
Proof. vm_compute. reflexivity. Qed.

(** C10 as stated fails for a negative [maxlength]: without escapes the
    slice [s[:-1]] still shows two characters, and with an escape the final
    assertion fails. *)
Lemma truncate_negative_maxlength_counterexample :
  _truncate_to_visible_length (py "abc") (-1) = Ok (py "ab") /\
  (len (color_sub (py "ab")) > -1)%Z /\
  _truncate_to_visible_length (ESC :: py "[0m") (-1) = Raise AssertionError.
Proof. vm_compute. repeat split; reflexivity. Qed.

(** *** The window of [_cut_lines] *)

Lemma count_keep_head_bound rest k kh :
  count_keep_head rest k = Ok kh -> (k <= kh < k + len rest)%Z.
Proof.
  revert k. induction rest as [|line rest IH]; intros k; simpl;
    [discriminate|].
  unfold len in *. cbn [length].
  destruct (keep_pat_match line).
  - intros H. apply IH in H. lia.
  - intros [= <-]. lia.
Qed.

Lemma length_numbered lines start : length (numbered lines start) = length lines.
Proof. unfold numbered. now rewrite length_map, length_enumerate. Qed.

Lemma content_lines_numbered lines start :
  content_lines (numbered lines start) = numbered lines start.
Proof.
  unfold numbered, content_lines. revert start.
  induction lines as [|l lines IH]; intros start; simpl; [reflexivity|].
  now rewrite IH.
Qed.

Lemma ellipses_numbered lines start : ellipses (numbered lines start) = [].
Proof.
  unfold numbered, ellipses. revert start.
  induction lines as [|l lines IH]; intros start; simpl; [reflexivity|].
  apply IH.
Qed.

Lemma content_lines_app ys zs :
  content_lines (ys ++ zs) = content_lines ys ++ content_lines zs.
Proof. apply List.filter_app. Qed.

Lemma ellipses_app ys zs : ellipses (ys ++ zs) = ellipses ys ++ ellipses zs.
Proof. apply List.filter_app. Qed.

(** The lines cut before the marker: [cut_before - 1] lines are dropped
    silently, one more is replaced by the marker. *)
Lemma cut_loop_before lineno n ca rest i cb :
  (0 < cb <= len rest)%Z ->
  cut_loop lineno n i rest cb ca =
    (ellipsis ::
       (cut_loop lineno n (i + cb) (drop (Z.to_nat cb) rest) 0 ca).1,
     (cut_loop lineno n (i + cb) (drop (Z.to_nat cb) rest) 0 ca).2).
Proof.
  revert i cb. induction rest as [|line rest IH]; intros i cb Hcb.
  - unfold len in Hcb. simpl in Hcb. lia.
  - cbn [cut_loop]. unfold len in Hcb. cbn [length] in Hcb.
    destruct (Z.eqb_spec cb 0) as [|_]; [lia|]. cbn [negb].
    replace (Z.to_nat cb) with (S (Z.to_nat (cb - 1))) by lia.
    rewrite skipn_cons.
    destruct (Z.eqb_spec (cb - 1) 0) as [Hz|Hnz].
    + rewrite Hz. replace (i + cb)%Z with (i + 1)%Z by lia.
      rewrite drop_0.
      now destruct (cut_loop lineno n (i + 1) rest 0 ca).
    + destruct (Z.gtb_spec (cb - 1) 0) as [_|]; [|lia].
      rewrite IH by (unfold len; lia).
      now replace (i + 1 + (cb - 1))%Z with (i + cb)%Z by lia.
Qed.

(** After the cut before the marker: lines are yielded up to the cut after
    it, which is one marker. *)
Lemma cut_loop_after lineno n ca rest i :
  (i + len rest = n)%Z -> (0 <= ca <= len rest)%Z ->
  exists ys,
    cut_loop lineno n i rest 0 ca = (ys, Ok tt) /\
    (len (content_lines ys) = len rest - ca)%Z /\
    (len (ellipses ys) = if (ca =? 0)%Z then 0 else 1)%Z.
Proof.
  revert i. induction rest as [|line rest IH]; intros i Hi Hca.
  - unfold len in *. simpl in *. exists []. split; [reflexivity|].
    destruct (Z.eqb_spec ca 0); simpl; lia.
  - cbn [cut_loop]. unfold len in Hi, Hca. cbn [length] in Hi, Hca.
    rewrite Z.eqb_refl. cbn [negb].
    destruct (Z.eqb_spec ca 0) as [Hz|Hnz]; cbn [negb andb].
    + destruct (IH (i + 1)%Z) as (ys & Hys & Hc & He);
        [unfold len; lia | unfold len; lia |].
      rewrite Hys. eexists. split; [reflexivity|].
      subst ca. unfold len in *. simpl in *. split; lia.
    + destruct (Z.geb_spec i (n - ca)) as [Hge|Hlt].
      * exists [ellipsis]. split; [reflexivity|]. unfold len. simpl. lia.
      * destruct (IH (i + 1)%Z) as (ys & Hys & Hc & He);
          [unfold len; lia | unfold len; lia |].
        rewrite Hys. eexists. split; [reflexivity|].
        destruct (Z.eqb_spec ca 0); [lia|]. unfold len in *. simpl in *.
        split; lia.
Qed.

Lemma effective_max_lines_ge lines max_lines :
  (6 <= effective_max_lines lines max_lines)%Z.
Proof. unfold effective_max_lines. lia. Qed.

Lemma len_split (ys : list entry) :
  (len ys = len (content_lines ys) + len (ellipses ys))%Z.
Proof.
  unfold len, content_lines, ellipses.
  induction ys as [|y ys IH]; simpl; [reflexivity|].
  destruct (bool_decide (is_Some y.1)); simpl; lia.
Qed.

(** The two cuts together remove [cutoff] lines more than the markers they
    add. *)
Lemma cut_loop_window lineno n i rest cutoff X :
  (i + len rest = n)%Z -> (0 <= cutoff)%Z -> (cutoff + 2 <= len rest)%Z ->
  exists ys,
    cut_loop lineno n i rest
      (if negb (Z.min cutoff (Z.max 0 X) =? 0)%Z
       then Z.min cutoff (Z.max 0 X) + 1 else Z.min cutoff (Z.max 0 X))%Z
      (if (cutoff - Z.min cutoff (Z.max 0 X) >? 0)%Z
       then cutoff - Z.min cutoff (Z.max 0 X) + 1 else 0)%Z
    = (ys, Ok tt) /\
    (len ys = len rest - cutoff)%Z /\
    (len (ellipses ys) =
       (if (Z.min cutoff (Z.max 0 X) =? 0)%Z then 0 else 1) +
       (if (cutoff - Z.min cutoff (Z.max 0 X) >? 0)%Z then 1 else 0))%Z.
Proof.
  intros Hi Hcut Hroom.
  set (cb0 := Z.min cutoff (Z.max 0 X)).
  assert (Hcb0 : (0 <= cb0 <= cutoff)%Z) by (unfold cb0; lia).
  set (ca := (if (cutoff - cb0 >? 0)%Z then cutoff - cb0 + 1 else 0)%Z).
  assert (Hca : (0 <= ca /\ ca + cb0 <= cutoff + 1)%Z).
  { unfold ca. destruct (Z.gtb_spec (cutoff - cb0) 0); lia. }
  destruct (Z.eqb_spec cb0 0) as [Hz|Hnz]; cbn [negb].
  - destruct (cut_loop_after lineno n ca rest i Hi) as (ys & Hys & Hc & He);
      [lia|].
    rewrite Hz. exists ys. split; [exact Hys|].
    rewrite len_split, Hc, He. unfold ca in *. rewrite Hz in *.
    destruct (Z.gtb_spec (cutoff - 0) 0);
      destruct (Z.eqb_spec (cutoff - 0 + 1) 0); cbn [Z.eqb] in *; lia.
  - rewrite cut_loop_before by lia.
    destruct (cut_loop_after lineno n ca (drop (Z.to_nat (cb0 + 1)) rest)
                (i + (cb0 + 1))%Z) as (ys & Hys & Hc & He).
    { unfold len in *. rewrite length_drop. lia. }
    { unfold len in *. rewrite length_drop. lia. }
    rewrite Hys. cbn [fst snd]. eexists. split; [reflexivity|].
    assert (Hlen : (len (drop (Z.to_nat (cb0 + 1)) rest)
                    = len rest - (cb0 + 1))%Z)
      by (unfold len in *; rewrite length_drop; lia).
    rewrite Hlen in Hc.
    pose proof (len_split ys) as Hsplit.
    unfold len in *. cbn [length ellipses List.filter ellipsis fst].
    change (bool_decide (is_Some (@None Z))) with false. cbn [negb length].
    fold (ellipses ys). unfold ca in *.
    destruct (Z.gtb_spec (cutoff - cb0) 0);
      destruct (Z.eqb_spec (cutoff - cb0 + 1) 0); cbn [Z.eqb] in *; lia.
Qed.

Lemma index_in_range {A} (l : list A) (i : Z) :
  (0 <= i < len l)%Z -> exists a, index l i = Ok a.
Proof.
  intros Hi. unfold index, len in *.
  assert (H0 : (i <? 0)%Z = false) by lia.
  cbv zeta. rewrite H0. cbv iota. rewrite H0.
  destruct (nth_error l (Z.to_nat i)) as [a|] eqn:Hn; [now exists a|].
  apply nth_error_None in Hn. lia.
Qed.

Lemma len_slice_from {A} (l : list A) (k : Z) :
  (0 <= k <= len l)%Z -> (len (slice_from l k) = len l - k)%Z.
Proof.
  intros Hk. unfold slice_from, clamp, len in *.
  destruct (Z.ltb_spec k 0); [lia|]. rewrite length_drop. lia.
Qed.

Lemma len_slice_to {A} (l : list A) (k : Z) :
  (0 <= k <= len l)%Z -> (len (slice_to l k) = k)%Z.
Proof.
  intros Hk. unfold slice_to, clamp, len in *.
  destruct (Z.ltb_spec k 0); [lia|]. rewrite length_take. lia.
Qed.

(** C9, as the code has it.  The budget is [M = max(6, requested)].  A
    source of at most [M] lines (so every 4-line source, whatever is
    requested) is yielded whole, without a marker.  A longer source, with
    the current frame set and a header run that the cut-off can take, is
    yielded as exactly [M] entries, markers included: between one and three
    of them are markers and the others are lines of the source. *)
Theorem cut_lines_window (self : Pdb) (lines : list str) (lineno : Z)
    (max_lines : option Z) :
  let M := effective_max_lines lines max_lines in
  (6 <= M)%Z /\
  ((len lines <= M)%Z ->
   _cut_lines self lines lineno max_lines = (numbered lines lineno, Ok tt) /\
   ellipses (numbered lines lineno) = []) /\
  ((M < len lines)%Z ->
   forall (f : frame) (keep_head : Z),
     curframe self = Some f ->
     count_keep_head lines 0 = Ok keep_head ->
     (keep_head <= 3 \/ keep_head - 3 <= len lines - M)%Z ->
     exists ys,
       _cut_lines self lines lineno max_lines = (ys, Ok tt) /\
       len ys = M /\
       (1 <= len (ellipses ys) <= 3)%Z /\
       (len (content_lines ys) = M - len (ellipses ys))%Z).
Proof.
  intros M. split; [apply effective_max_lines_ge|]. split.
  - intros Hle. unfold _cut_lines. fold M.
    destruct (Z.leb_spec (len lines) M); [|lia].
    split; [reflexivity | apply ellipses_numbered].
  - intros Hlt f keep_head Hcur Hkh Hroom.
    pose proof (effective_max_lines_ge lines max_lines) as HM. fold M in HM.
    pose proof (count_keep_head_bound _ _ _ Hkh) as Hb.
    unfold _cut_lines. fold M.
    destruct (Z.leb_spec (len lines) M); [lia|].
    rewrite Hkh. unfold keep_top.
    destruct (Z.gtb_spec keep_head 3) as [Hgt|Hle].
    + destruct (index_in_range lines 0 ltac:(lia)) as (first & ->).
      destruct (index_in_range lines (keep_head - 1) ltac:(lia))
        as (last_kept & ->).
      cbn [mbind outcome_bind]. rewrite Hcur.
      destruct (cut_loop_window lineno (len lines) keep_head
                  (slice_from lines keep_head)
                  (len lines - M - (keep_head - 3))
                  (Z.max (f_lineno f) (default 0 (tb_lineno self !! f_id f))
                   - lineno - M + M / 3 * 2)%Z)
        as (ys & Hys & Hlen & Hell);
        [rewrite len_slice_from by lia; lia | lia
        | rewrite len_slice_from by lia; lia |].
      cbv zeta. rewrite Hys. eexists. split; [reflexivity|].
      rewrite len_slice_from in Hlen by lia.
      pose proof (len_split ys) as Hsplit.
      rewrite ellipses_app, content_lines_app.
      unfold len in *. rewrite !length_app.
      cbn [length ellipses content_lines List.filter ellipsis fst].
      change (bool_decide (is_Some (@None Z))) with false.
      change (bool_decide (is_Some (Some lineno))) with true.
      change (bool_decide (is_Some (Some (lineno + keep_head)%Z))) with true.
      cbn [negb length]. fold (ellipses ys). fold (content_lines ys).
      match type of Hell with
      | context [(?x =? 0)%Z] => destruct (Z.eqb_spec x 0)
      end;
      match type of Hell with
      | context [(?y >? 0)%Z] => destruct (Z.gtb_spec y 0)
      end; lia.
    + rewrite Hcur.
      destruct (cut_loop_window lineno (len lines) keep_head
                  (slice_from lines keep_head) (len lines - M)
                  (Z.max (f_lineno f) (default 0 (tb_lineno self !! f_id f))
                   - lineno - M + M / 3 * 2)%Z)
        as (ys & Hys & Hlen & Hell);
        [rewrite len_slice_from by lia; lia | lia
        | rewrite len_slice_from by lia; lia |].
      cbv zeta. rewrite Hys. eexists. split; [reflexivity|].
      rewrite len_slice_from in Hlen by lia.
      pose proof (len_split ys) as Hsplit.
      rewrite ellipses_app, content_lines_app, ellipses_numbered,
        content_lines_numbered.
      pose proof (len_slice_to lines keep_head ltac:(lia)) as Htop.
      unfold len in *. rewrite !length_app, length_numbered. cbn [app length].
      match type of Hell with
      | context [(?x =? 0)%Z] => destruct (Z.eqb_spec x 0)
      end;
      match type of Hell with
      | context [(?y >? 0)%Z] => destruct (Z.gtb_spec y 0)
      end; lia.
Qed.

Lemma cut_lines_window_witness :
  (_cut_lines (pdb_in (frame_at 1)) four_lines 1 (Some 2%Z)
     = (numbered four_lines 1, Ok tt) /\
   ellipses (numbered four_lines 1) = []) /\
  exists ys,
    _cut_lines (pdb_in (frame_at 1)) seven_lines 1 (Some 2%Z) = (ys, Ok tt) /\
    len ys = effective_max_lines seven_lines (Some 2%Z) /\
    (1 <= len (ellipses ys) <= 3)%Z /\
    (len (content_lines ys)
     = effective_max_lines seven_lines (Some 2%Z) - len (ellipses ys))%Z.
Proof.
  split.
  - apply (cut_lines_window (pdb_in (frame_at 1)) four_lines 1 (Some 2%Z)).
    vm_compute. discriminate.
  - apply (cut_lines_window (pdb_in (frame_at 1)) seven_lines 1 (Some 2%Z))
      with (f := frame_at 1) (keep_head := 0%Z).
    + vm_compute. reflexivity.
    + reflexivity.
    + vm_compute. reflexivity.
    + left. lia.
Defined.

(** C9 as stated fails twice: four lines with two requested are listed
    whole, without a marker; seven lines are listed as five lines and one
    marker, fewer lines than [min(6, 7)]. *)
Lemma cut_lines_counterexample :
  _cut_lines (pdb_in (frame_at 1)) four_lines 1 (Some 2%Z)
    = (numbered four_lines 1, Ok tt) /\
  ellipses (numbered four_lines 1) = [] /\
  len (content_lines
         (_cut_lines (pdb_in (frame_at 1)) seven_lines 1 (Some 2%Z)).1) = 5%Z /\
  (5 < Z.min 6 (len seven_lines))%Z.
Proof. vm_compute. repeat split; reflexivity. Qed.

End ListingFacts.

(** ** Completion *)

Section CompletionFacts.
Import Escapes Completion.

(** *** The completers are called until they return [None] *)

Lemma get_all_completions_from complete text xs fuel k r :
  lists complete text xs -> length xs - k < fuel ->
  _get_all_completions fuel complete text (Z.of_nat k) r = Some (r ++ drop k xs).
Proof.
  intros Hxs. revert k r. induction fuel as [|fuel IH]; intros k r Hfuel;
    [lia|].
  cbn [_get_all_completions]. rewrite Hxs.
  destruct (xs !! k) as [x|] eqn:Hk.
  - replace (Z.of_nat k + 1)%Z with (Z.of_nat (S k)) by lia.
    apply lookup_lt_Some in Hk as Hlt.
    rewrite IH by lia. rewrite <- app_assoc. f_equal. f_equal.
    rewrite (drop_S _ _ _ Hk). reflexivity.
  - apply lookup_ge_None in Hk. rewrite drop_ge by exact Hk.
    now rewrite app_nil_r.
Qed.

Lemma get_all_completions_enough complete text xs fuel :
  lists complete text xs -> length xs < fuel ->
  _get_all_completions fuel complete text 0 [] = Some xs.
Proof.
  intros Hxs Hfuel.
  apply (get_all_completions_from complete text xs fuel 0 []); [exact Hxs|lia].
Qed.

(** *** The merged list *)

Lemma merge_completions_colors cs fuel self self' text :
  use_colors self = use_colors self' ->
  merge_completions cs fuel self text = merge_completions cs fuel self' text.
Proof. intros H. unfold merge_completions. now rewrite H. Qed.

Lemma merge_completions_returns cs fuel self text fancy_list pdb_list :
  lists (fancy_complete cs) text fancy_list ->
  lists (pdb_complete cs) text pdb_list ->
  length fancy_list < fuel -> length pdb_list < fuel ->
  exists merged, merge_completions cs fuel self text = Some merged.
Proof.
  intros Hf Hp Hlf Hlp. unfold merge_completions.
  rewrite (get_all_completions_enough _ _ _ _ Hf Hlf).
  rewrite (get_all_completions_enough _ _ _ _ Hp Hlp).
  cbn [mbind option_bind].
  destruct (_ && _); destruct (List.filter _ pdb_list); eexists; reflexivity.
Qed.

(** *** The filter and its state *)

Lemma filter_first self text :
  (_lastcompstate self).1 <> Some text ->
  _filter_completions self text =
    set_completions (set_lastcompstate self (Some text, 0%Z))
      (hide_underscores text (_completions self)).
Proof.
  intros Hne. unfold _filter_completions.
  destruct (bool_decide_reflect (Some text = (_lastcompstate self).1));
    [congruence | reflexivity].
Qed.

Lemma filter_second self text :
  _lastcompstate self = (Some text, 0%Z) ->
  _filter_completions self text =
    set_completions (set_lastcompstate self (Some text, 1%Z))
      (hide_underscores text (_completions self)).
Proof.
  intros Hst. unfold _filter_completions. rewrite Hst. cbn [fst snd].
  destruct (bool_decide_reflect (Some text = Some text)); [|congruence].
  reflexivity.
Qed.

Lemma filter_third self text :
  _lastcompstate self = (Some text, 1%Z) ->
  _filter_completions self text = self.
Proof.
  intros Hst. unfold _filter_completions. rewrite Hst. cbn [fst snd].
  destruct (bool_decide_reflect (Some text = Some text)); [|congruence].
  reflexivity.
Qed.

(** Which names the filter removes, exactly. *)
Lemma slice_from_two_one (text : str) :
  slice_from text (-2) = py "__" -> slice_from text (-1) = py "_".
Proof.
  unfold slice_from, clamp, len.
  change (-2 <? 0)%Z with true. change (-1 <? 0)%Z with true. cbv iota.
  intros H. pose proof (f_equal length H) as Hlen.
  rewrite length_drop in Hlen. change (length (py "__")) with 2 in Hlen.
  replace (Z.to_nat (Z.of_nat (length text) + -1))
    with (Z.to_nat (Z.of_nat (length text) + -2) + 1) by lia.
  rewrite <- drop_drop, H. reflexivity.
Qed.

Lemma hide_underscores_exact text completions :
  hide_underscores text completions =
    if negb (bool_decide (slice_from text (-1) = py "_")) then
      List.filter
        (fun x => negb (bool_decide (slice_to (color_sub x) 1 = py "_")))
        completions
    else if bool_decide (slice_from text (-2) = py "__") then completions
    else
      List.filter
        (fun x => negb (bool_decide (slice_to (color_sub x) 2 = py "__")))
        completions.
Proof.
  unfold hide_underscores.
  destruct (bool_decide (slice_from text (-1) = py "_")); cbn [negb];
    [|reflexivity].
  now destruct (bool_decide (slice_from text (-2) = py "__")).
Qed.

Lemma complete_first_state cs fuel self text merged :
  merge_completions cs fuel self text = Some merged ->
  _complete cs fuel self text 0 =
    Some (_filter_completions (set_completions self merged) text,
          match index (_completions
                         (_filter_completions (set_completions self merged)
                            text)) 0 with
          | Ok x => Some x
          | Raise _ => None
          end).
Proof.
  intros Hm. unfold _complete. cbn [Z.eqb].
  rewrite (merge_completions_colors cs fuel (set_completions self []) self)
    by reflexivity.
  rewrite Hm. reflexivity.
Qed.

(** C5, as the code has it.  For a text that is not the one of the previous
    request (the state is reset to count 0), with completers that list
    finitely many candidates: the first and the second request leave the
    merged candidates without the underscore names, the third leaves the
    merged candidates whole.  The names hidden from the first two are
    exactly those whose visible form starts with ["_"] (single and double
    underscore alike) when the text does not end with ["_"]; exactly those
    that start with ["__"] when the text ends with one ["_"]; and none when
    the text ends with ["__"]. *)
Theorem underscore_names_on_third_request (cs : completers) (fuel : nat)
    (self : Pdb) (text : str) (fancy_list pdb_list : list str) :
  lists (fancy_complete cs) text fancy_list ->
  lists (pdb_complete cs) text pdb_list ->
  length fancy_list < fuel -> length pdb_list < fuel ->
  (_lastcompstate self).1 <> Some text ->
  exists merged,
    merge_completions cs fuel self text = Some merged /\
    three_requests cs fuel self text =
      Some (hide_underscores text merged, hide_underscores text merged,
            merged) /\
    (slice_from text (-1) <> py "_" ->
     hide_underscores text merged =
       List.filter (fun x => negb (bool_decide (slice_to (color_sub x) 1
                                                = py "_"))) merged) /\
    (slice_from text (-1) = py "_" -> slice_from text (-2) <> py "__" ->
     hide_underscores text merged =
       List.filter (fun x => negb (bool_decide (slice_to (color_sub x) 2
                                                = py "__"))) merged) /\
    (slice_from text (-2) = py "__" -> hide_underscores text merged = merged).
Proof.
  intros Hf Hp Hlf Hlp Hne.
  destruct (merge_completions_returns cs fuel self text _ _ Hf Hp Hlf Hlp)
    as (merged & Hm).
  exists merged. split; [exact Hm|].
  split; [|rewrite hide_underscores_exact; repeat split].
  - unfold three_requests.
    rewrite (complete_first_state cs fuel self text merged Hm).
    cbn [mbind option_bind].
    rewrite filter_first by exact Hne.
    match goal with
    | |- context [_complete cs fuel ?s text 0] => set (self1 := s)
    end.
    rewrite (complete_first_state cs fuel self1 text merged)
      by (rewrite <- Hm; now apply merge_completions_colors).
    cbn [mbind option_bind].
    rewrite filter_second by reflexivity.
    match goal with
    | |- context [_complete cs fuel ?s text 0] => set (self2 := s)
    end.
    rewrite (complete_first_state cs fuel self2 text merged)
      by (rewrite <- Hm; now apply merge_completions_colors).
    cbn [mbind option_bind].
    rewrite filter_third by reflexivity.
    reflexivity.
  - intros H1. now rewrite (bool_decide_eq_false_2 _ H1).
  - intros H1 H2.
    now rewrite (bool_decide_eq_true_2 _ H1), (bool_decide_eq_false_2 _ H2).
  - intros H2. pose proof (slice_from_two_one text H2) as H1.
    now rewrite (bool_decide_eq_true_2 _ H1), (bool_decide_eq_true_2 _ H2).
Qed.

Lemma from_list_lists xs text : lists (from_list xs) text xs.
Proof.
  intros n. unfold from_list.
  destruct (Z.ltb_spec (Z.of_nat n) 0); [lia|]. now rewrite Nat2Z.id.
Qed.

Lemma underscore_names_on_third_request_witness :
  exists merged,
    merge_completions obj_completers 4 fresh_session (py "obj.")
      = Some merged /\
    three_requests obj_completers 4 fresh_session (py "obj.") =
      Some (hide_underscores (py "obj.") merged,
            hide_underscores (py "obj.") merged, merged) /\
    (slice_from (py "obj.") (-1) <> py "_" ->
     hide_underscores (py "obj.") merged =
       List.filter (fun x => negb (bool_decide (slice_to (color_sub x) 1
                                                = py "_"))) merged) /\
    (slice_from (py "obj.") (-1) = py "_" ->
     slice_from (py "obj.") (-2) <> py "__" ->
     hide_underscores (py "obj.") merged =
       List.filter (fun x => negb (bool_decide (slice_to (color_sub x) 2
                                                = py "__"))) merged) /\
    (slice_from (py "obj.") (-2) = py "__" ->
     hide_underscores (py "obj.") merged = merged).
Proof.
  apply (underscore_names_on_third_request obj_completers 4 fresh_session
           (py "obj.") obj_candidates []).
  - apply from_list_lists.
  - apply from_list_lists.
  - vm_compute. lia.
  - vm_compute. lia.
  - discriminate.
Defined.

(** C5 as stated fails: no request lists the single-underscore name without
    the double-underscore one.  The second request lists what the first
    did, and the third lists both names at once. *)
Lemma underscore_names_counterexample :
  three_requests obj_completers 4 fresh_session (py "obj.") =
    Some ([py "name"], [py "name"],
          [py "name"; py "_private"; py "__dunder"]) /\
  forallb (fun r => implb (bool_decide (py "_private" ∈ r))
                      (bool_decide (py "__dunder" ∈ r)))
    [[py "name"]; [py "name"]; [py "name"; py "_private"; py "__dunder"]]
    = true.
Proof. vm_compute. split; reflexivity. Qed.

End CompletionFacts.

(** ** The command line *)

Section ParseFacts.
Import Parse.

(** *** Stripping *)

Lemma lstrip_nonspace c t : is_space c = false -> lstrip (c :: t) = c :: t.
Proof. intros H. simpl. now rewrite H. Qed.

Lemma rstrip_nonspace c t : is_space c = false -> rstrip (c :: t) = c :: rstrip t.
Proof. intros H. simpl. rewrite H. now destruct (rstrip t). Qed.





(** *** The baseline *)

Lemma base_parseline_plain self line x t :
  strip line = x :: t ->
  Ascii.eqb x "?" = false -> Ascii.eqb x "!" = false ->
  base_parseline self line =
    (Some (take (ident_span (x :: t)) (x :: t)),
     Some (strip (drop (ident_span (x :: t)) (x :: t))), x :: t).
Proof.
  intros Hs Hq Hb. unfold base_parseline. rewrite Hs, Hq, Hb. reflexivity.
Qed.


Lemma base_parseline_letter_quote self c q rest :
  is_space c = false -> identchar c = true ->
  Ascii.eqb c "?" = false -> Ascii.eqb c "!" = false ->
  is_space q = false -> identchar q = false ->
  base_parseline self (c :: q :: rest) =
    (Some [c], Some (strip (q :: rstrip rest)), c :: q :: rstrip rest).
Proof.
  intros Hsc Hic Hq Hb Hsq Hiq. unfold base_parseline, strip.
  rewrite lstrip_nonspace, !rstrip_nonspace by assumption.
  rewrite Hq, Hb. cbn [ident_span]. rewrite Hic, Hiq. reflexivity.
Qed.

(** *** The count in front of a command *)




Lemma startswith_head_ne c t p0 p :
  c <> p0 -> startswith (c :: t) (p0 :: p) = false.
Proof.
  intros Hne. unfold startswith. apply bool_decide_eq_false.
  simpl. intros [= H _]. contradiction.
Qed.

(** C6, as the code has it: a line that starts with one of the letters
    [b], [f], [r], [u] followed at once by a quote character (and that does
    not end with a question mark, which asks for inspection) is an
    expression: no command, the line as it was typed. *)
Theorem quote_after_letter_is_expression (self : Pdb) (from_complete : bool)
    (c q : ascii) (rest : str) :
  _pdbpp_executing_rc_lines self = false ->
  In c ["b"; "f"; "r"; "u"]%char ->
  q = "'"%char \/ q = dquote ->
  endswith (c :: q :: rest) (py "?") = false ->
  parseline self from_complete (c :: q :: rest) =
    Ok (expression from_complete (c :: q :: rest)).
Proof.
  intros Hrc Hc Hq Hend. unfold parseline. rewrite Hrc, Hend.
  assert (Hbang : startswith (c :: q :: rest) (py "!!") = false).
  { apply startswith_head_ne. intros ->. simpl in Hc.
    repeat destruct Hc as [Hc|Hc]; try discriminate Hc; contradiction. }
  rewrite Hbang. cbn [andb].
  assert (Hbase : base_parseline self (c :: q :: rest) =
            (Some [c], Some (strip (q :: rstrip rest)), c :: q :: rstrip rest)).
  { apply base_parseline_letter_quote;
      first [ destruct Hq as [Hq|Hq]; rewrite Hq; reflexivity
            | simpl in Hc;
              repeat destruct Hc as [Hc|Hc]; try contradiction;
              rewrite <- Hc; reflexivity ]. }
  rewrite Hbase. cbn [fst snd fmap option_fmap option_map].
  match goal with
  | |- context [bool_decide ?P && _ && _] =>
      assert (Hletter : bool_decide P = true)
  end.
  { apply bool_decide_eq_true. simpl in Hc.
    repeat destruct Hc as [Hc|Hc]; try contradiction; rewrite <- Hc;
      apply list_elem_of_In; simpl; repeat ((left; reflexivity) || right). }
  rewrite Hletter. cbn [length Nat.ltb Nat.leb andb lookup list_lookup].
  assert (Hquote : Ascii.eqb q "'" || Ascii.eqb q dquote = true)
    by (destruct Hq as [Hq|Hq]; rewrite Hq; reflexivity).
  rewrite Hquote. reflexivity.
Qed.




Lemma quote_after_letter_is_expression_witness :
  parseline (session_in frame_without_r) false (py "b'x'") =
    Ok (expression false (py "b'x'")).
Proof.
  apply (quote_after_letter_is_expression (session_in frame_without_r) false
           "b"%char "'"%char (py "x'")).
  - reflexivity.
  - simpl. auto.
  - left. reflexivity.
  - vm_compute. reflexivity.
Defined.

(** C6 as stated fails: in ["b 'x'"] a space follows the letter, and the
    line is the command [b] with the argument ["'x'"]. *)
Lemma space_before_quote_counterexample :
  parseline (session_in frame_without_r) false (py "b 'x'") =
    Ok (Some (py "b"), Some (Arg (py "'x'") None), py "b 'x'").
Proof. vm_compute. reflexivity. Qed.





End ParseFacts.

(** ** Subscripts *)

Section IndexFacts.

Lemma index_nonneg {A} (l : list A) (i : Z) :
  (0 <= i)%Z ->
  index l i = match nth_error l (Z.to_nat i) with
              | Some a => Ok a
              | None => Raise IndexError
              end.
Proof.
  intros Hi. unfold index.
  assert (H0 : (i <? 0)%Z = false) by lia.
  cbv zeta. rewrite H0. cbv iota. now rewrite H0.
Qed.

Lemma index_negative {A} (l : list A) (i : Z) :
  (- len l <= i < 0)%Z ->
  index l i = match nth_error l (Z.to_nat (len l + i)) with
              | Some a => Ok a
              | None => Raise IndexError
              end.
Proof.
  intros Hi. unfold index.
  assert (H0 : (i <? 0)%Z = true) by lia.
  assert (H1 : (len l + i <? 0)%Z = false) by lia.
  cbv zeta. rewrite H0. cbv iota. now rewrite H1.
Qed.

Lemma index_out_of_range {A} (l : list A) (i : Z) :
  (len l <= i \/ i < - len l)%Z -> index l i = Raise IndexError.
Proof.
  intros Hi. unfold index, len in *. cbv zeta.
  destruct (Z.ltb_spec i 0).
  - destruct (Z.ltb_spec (Z.of_nat (length l) + i) 0); [reflexivity|lia].
  - destruct (Z.ltb_spec i 0); [lia|].
    destruct (nth_error l (Z.to_nat i)) eqn:Hn; [|reflexivity].
    assert (Hlt : Z.to_nat i < length l)
      by (apply nth_error_Some; congruence).
    lia.
Qed.

Lemma index_snoc_last {A} (l : list A) (a : A) : index (l ++ [a]) (-1) = Ok a.
Proof.
  rewrite index_negative by (unfold len; rewrite length_app; simpl; lia).
  unfold len. rewrite length_app. simpl.
  replace (Z.to_nat (Z.of_nat (length l + 1) + -1)) with (length l) by lia.
  now rewrite nth_error_app2, Nat.sub_diag by lia.
Qed.

End IndexFacts.

(** ** The visible and the hidden part of the stack *)

Section FramesFacts.
Import Visibility Frames.

Lemma filter_split_perm {A} (p : A -> bool) (l : list A) :
  List.filter p l ++ List.filter (fun a => negb (p a)) l ≡ₚ l.
Proof.
  induction l as [|a l IH]; simpl; [reflexivity|].
  destruct (p a); simpl.
  - now rewrite IH.
  - rewrite <- Permutation_middle. now rewrite IH.
Qed.

Lemma filter_sublist {A} (p : A -> bool) (l : list A) :
  sublist (List.filter p l) l.
Proof.
  induction l as [|a l IH]; simpl; [constructor|].
  destruct (p a); now constructor.
Qed.

Lemma filter_Forall {A} (p : A -> bool) (l : list A) :
  Forall (fun a => p a = true) (List.filter p l).
Proof.
  induction l as [|a l IH]; simpl; [constructor|].
  destruct (p a) eqn:Ha; [now constructor | assumption].
Qed.

Lemma compute_stack_hiding self fullstack idx :
  fullstack <> [] -> show_hidden_frames self = false ->
  compute_stack self fullstack idx =
    let idx := default (len fullstack - 1)%Z idx in
    match visible_part self fullstack with
    | [] =>
        Ok (set_hidden_frames self (removelast fullstack),
            (match last fullstack with Some e => [e] | None => [] end,
             (idx - len (removelast fullstack))%Z))
    | _ :: _ =>
        Ok (set_hidden_frames self (hidden_part self fullstack),
            (visible_part self fullstack,
             (idx - len (hidden_part self fullstack))%Z))
    end.
Proof.
  intros Hne Hshow. unfold compute_stack, visible_part, hidden_part.
  destruct fullstack as [|e0 rest] eqn:Hfull; [congruence|]. rewrite <- Hfull.
  assert (Hne' : fullstack <> []) by (subst; discriminate).
  clear Hfull Hne e0 rest. rewrite Hshow, split_stack_spec; simpl.
  destruct (List.filter (fun e => negb (hidden_entry self e)) fullstack)
    as [|v vs] eqn:Hvis.
  - assert (Hall : List.filter (hidden_entry self) fullstack = fullstack).
    { apply filter_all. apply List.Forall_forall. intros e He.
      destruct (hidden_entry self e) eqn:Hh; [reflexivity|].
      assert (Hin : In e (List.filter (fun e => negb (hidden_entry self e))
                            fullstack))
        by (apply List.filter_In; split; [exact He | now rewrite Hh]).
      rewrite Hvis in Hin. destruct Hin. }
    rewrite Hall.
    destruct (pop_nonempty fullstack Hne') as (e & hidden' & Heq & Hpop).
    rewrite Hpop; simpl. rewrite Heq, removelast_last, last_snoc.
    destruct idx; reflexivity.
  - simpl. destruct idx; reflexivity.
Qed.

(** X1: Nothing is lost when the stack is split. *)
Theorem compute_stack_keeps_every_frame (self : Pdb)
    (fullstack : list stack_entry) (idx : option Z) :
  fullstack <> [] ->
  show_hidden_frames self = false ->
  exists self' newstack newidx,
    compute_stack self fullstack idx = Ok (self', (newstack, newidx)) /\
    _hidden_frames self' ++ newstack ≡ₚ fullstack /\
    sublist (_hidden_frames self') fullstack /\
    sublist newstack fullstack /\
    Forall (fun e => _is_hidden self e.1 = true) (_hidden_frames self') /\
    (visible_part self fullstack <> [] ->
     Forall (fun e => _is_hidden self e.1 = false) newstack).
Proof.
  intros Hne Hshow. rewrite compute_stack_hiding by assumption. simpl.
  destruct (visible_part self fullstack) as [|v vs] eqn:Hvis.
  - destruct (exists_last Hne) as (l' & e & ->).
    rewrite removelast_last, last_snoc.
    eexists _, _, _. split; [reflexivity|]. simpl.
    split; [reflexivity|].
    split; [apply sublist_inserts_r; reflexivity|].
    split; [apply sublist_inserts_l; reflexivity|].
    split; [|congruence].
    assert (Hall : Forall (fun e0 => hidden_entry self e0 = true) (l' ++ [e])).
    { apply List.Forall_forall. intros x Hx.
      destruct (hidden_entry self x) eqn:Hh; [reflexivity|].
      assert (Hin : In x (visible_part self (l' ++ [e])))
        by (apply List.filter_In; split; [exact Hx | now rewrite Hh]).
      rewrite Hvis in Hin. destruct Hin. }
    apply Forall_app in Hall. apply Hall.
  - rewrite <- Hvis. eexists _, _, _. split; [reflexivity|]. simpl.
    split; [apply filter_split_perm|].
    split; [apply filter_sublist|].
    split; [apply filter_sublist|].
    split; [apply filter_Forall|].
    intros _. unfold visible_part.
    eapply Forall_impl; [apply filter_Forall|].
    intros e He. simpl in He. unfold hidden_entry in He.
    now destruct (_is_hidden self e.1).
Qed.

Lemma filter_false {A} (p : A -> bool) (l : list A) :
  Forall (fun a => p a = false) l -> List.filter p l = [].
Proof.
  induction 1 as [|a l Ha _ IH]; simpl; [reflexivity|]. now rewrite Ha.
Qed.

Lemma visible_part_set_fullstack self fs st :
  visible_part (set_fullstack self fs) st = visible_part self st.
Proof. reflexivity. Qed.

Lemma hidden_part_set_fullstack self fs st :
  hidden_part (set_fullstack self fs) st = hidden_part self st.
Proof. reflexivity. Qed.

Lemma length_parts self st :
  length (hidden_part self st) + length (visible_part self st) = length st.
Proof.
  pose proof (filter_split_perm (hidden_entry self) st) as Hperm.
  apply Permutation_length in Hperm. now rewrite length_app in Hperm.
Qed.

(** X2: [get_stack] stores the full stack and returns the index less the
    number of hidden frames, which is right when no hidden frame follows
    the frame it stands for. *)
Theorem get_stack_index_follows_frame (self : Pdb)
    (pre post : list stack_entry) (e : stack_entry) :
  show_hidden_frames self = false ->
  _is_hidden self e.1 = false ->
  Forall (fun x => _is_hidden self x.1 = false) post ->
  exists self' newstack newidx,
    get_stack self (pre ++ e :: post, len pre) =
      Ok (self', (newstack, newidx)) /\
    fullstack self' = pre ++ e :: post /\
    _hidden_frames self' = hidden_part self pre /\
    newstack = visible_part self pre ++ e :: post /\
    newidx = (len pre - len (_hidden_frames self'))%Z /\
    index newstack newidx = Ok e.
Proof.
  intros Hshow He Hpost. unfold get_stack.
  rewrite compute_stack_hiding; [|now destruct pre | exact Hshow].
  rewrite visible_part_set_fullstack, hidden_part_set_fullstack.
  assert (Hvis : visible_part self (pre ++ e :: post)
                 = visible_part self pre ++ e :: post).
  { unfold visible_part. rewrite List.filter_app. simpl.
    unfold hidden_entry at 2. rewrite He. simpl.
    f_equal. f_equal. apply filter_all.
    eapply Forall_impl; [exact Hpost|]. intros x Hx. simpl in *.
    unfold hidden_entry. now rewrite Hx. }
  assert (Hhid : hidden_part self (pre ++ e :: post) = hidden_part self pre).
  { unfold hidden_part. rewrite List.filter_app. simpl.
    unfold hidden_entry at 2. rewrite He.
    rewrite (filter_false (hidden_entry self) post Hpost). apply app_nil_r. }
  rewrite Hvis, Hhid. simpl.
  destruct (visible_part self pre ++ e :: post) as [|v vs] eqn:Hnew;
    [now destruct (visible_part self pre)|].
  rewrite <- Hnew. eexists _, _, _. split; [reflexivity|].
  repeat split; try reflexivity.
  pose proof (length_parts self pre) as Hlen.
  unfold len.
  replace (Z.of_nat (length pre) - Z.of_nat (length (hidden_part self pre)))%Z
    with (Z.of_nat (length (visible_part self pre))) by lia.
  rewrite index_nonneg by lia.
  rewrite Nat2Z.id, nth_error_app2, Nat.sub_diag by lia. reflexivity.
Qed.

(** *** [refresh_stack] *)

Lemma find_frame_some st cur i j :
  find_frame st cur i = Some j ->
  (i <= j)%Z /\
  exists f l,
    nth_error st (Z.to_nat (j - i)) = Some (f, l) /\
    frame_is_opt f cur = true.
Proof.
  revert i. induction st as [|[f l] st IH]; intros i; simpl; [discriminate|].
  destruct (frame_is_opt f cur) eqn:Hf.
  - intros [= <-]. split; [lia|]. exists f, l. now rewrite Z.sub_diag.
  - intros H. destruct (IH _ H) as (Hle & f' & l' & Hlook & Hfr).
    split; [lia|]. exists f', l'. split; [|exact Hfr].
    replace (Z.to_nat (j - i)) with (S (Z.to_nat (j - (i + 1)))) by lia.
    exact Hlook.
Qed.

Lemma find_frame_none st cur i :
  find_frame st cur i = None ->
  Forall (fun e => frame_is_opt e.1 cur = false) st.
Proof.
  revert i. induction st as [|[f l] st IH]; intros i; simpl; [constructor|].
  destruct (frame_is_opt f cur) eqn:Hf; [discriminate|].
  intros H. constructor; [exact Hf | eapply IH, H].
Qed.

Lemma find_frame_exists st cur i e :
  In e st -> frame_is_opt e.1 cur = true ->
  exists j, find_frame st cur i = Some j.
Proof.
  intros Hin He. destruct (find_frame st cur i) eqn:Hf; [eauto|].
  apply find_frame_none in Hf. rewrite List.Forall_forall in Hf.
  rewrite (Hf _ Hin) in He. discriminate.
Qed.

Lemma set_hidden_frames_same self :
  set_hidden_frames self (_hidden_frames self) = self.
Proof. now destruct self. Qed.

Lemma compute_stack_returns self fullstack idx :
  fullstack <> [] ->
  exists hidden newstack newidx,
    compute_stack self fullstack idx =
      Ok (set_hidden_frames self hidden, (newstack, newidx)) /\
    newstack <> [] /\
    (show_hidden_frames self = true ->
     hidden = _hidden_frames self /\ newstack = fullstack) /\
    (show_hidden_frames self = false ->
     visible_part self fullstack <> [] ->
     hidden = hidden_part self fullstack /\
     newstack = visible_part self fullstack).
Proof.
  intros Hne. destruct (show_hidden_frames self) eqn:Hshow.
  - exists (_hidden_frames self), fullstack.
    unfold compute_stack. rewrite Hshow, set_hidden_frames_same.
    destruct fullstack; [congruence|].
    eexists. split; [reflexivity|]. split; [discriminate|].
    split; [auto | discriminate].
  - rewrite compute_stack_hiding by assumption. simpl.
    destruct (visible_part self fullstack) as [|v vs] eqn:Hvis.
    + destruct (exists_last Hne) as (l' & e & ->). rewrite last_snoc.
      eexists _, _, _. split; [reflexivity|]. split; [discriminate|].
      split; [discriminate | congruence].
    + eexists _, _, _. split; [reflexivity|]. split; [discriminate|].
      split; [discriminate|]. auto.
Qed.

(** What [refresh_stack] changes, and what it leaves alone. *)
Lemma refresh_stack_result (self : Pdb) :
  fullstack self <> [] ->
  exists hidden newstack newidx self',
    compute_stack self (fullstack self) None =
      Ok (set_hidden_frames self hidden, (newstack, newidx)) /\
    refresh_stack self = Ok self' /\
    stack self' = newstack /\
    _hidden_frames self' = hidden /\
    fullstack self' = fullstack self /\
    show_hidden_frames self' = show_hidden_frames self /\
    enable_hidden_frames self' = enable_hidden_frames self /\
    _via_set_trace_frame self' = _via_set_trace_frame self /\
    positioned self' /\
    (Exists (fun e => frame_is_opt e.1 (curframe self) = true) newstack ->
     curframe self' = curframe self /\ output self' = output self) /\
    (Forall (fun e => frame_is_opt e.1 (curframe self) = false) newstack ->
     curindex self' = (len newstack - 1)%Z /\
     output self' = output self ++ [PrintCurrentStackEntry]).
Proof.
  intros Hne. unfold refresh_stack.
  destruct (compute_stack_returns self (fullstack self) None Hne)
    as (hidden & newstack & newidx & Hcs & Hnew & _).
  exists hidden, newstack, newidx. rewrite Hcs. simpl.
  destruct (find_frame newstack (curframe self) 0) as [i|] eqn:Hfind.
  - destruct (find_frame_some _ _ _ _ Hfind) as (Hi & f & l & Hnth & Hf).
    rewrite Z.sub_0_r in Hnth.
    eexists. split; [reflexivity|]. split; [reflexivity|]. simpl.
    repeat (split; [reflexivity|]).
    split; [|split; [auto|]].
    + split; [exact Hi|]. exists f, l. simpl.
      rewrite index_nonneg, Hnth by exact Hi. auto.
    + intros Hall. exfalso. rewrite List.Forall_forall in Hall.
      apply nth_error_In in Hnth. specialize (Hall _ Hnth). simpl in Hall.
      congruence.
  - destruct (exists_last Hnew) as (l' & [f l] & ->). simpl.
    rewrite index_snoc_last. simpl.
    eexists. split; [reflexivity|]. split; [reflexivity|]. simpl.
    repeat (split; [reflexivity|]).
    split; [|split; [|auto]].
    + split; [unfold len; rewrite length_app; simpl; lia|]. exists f, l. simpl.
      rewrite index_nonneg by (unfold len; rewrite length_app; simpl; lia).
      unfold len. rewrite length_app. simpl.
      replace (Z.to_nat (Z.of_nat (length l' + 1) - 1)) with (length l') by lia.
      rewrite nth_error_app2, Nat.sub_diag by lia. simpl.
      split; [reflexivity|]. unfold frame_is. apply Nat.eqb_refl.
    + intros Hex. exfalso. apply find_frame_none in Hfind.
      rewrite List.Exists_exists in Hex. destruct Hex as (e & He & Hcur).
      rewrite List.Forall_forall in Hfind. specialize (Hfind _ He).
      simpl in Hfind. congruence.
Qed.

(** X3: [refresh_stack] leaves the session on an entry of the new stack: on the
    current frame when the new stack has it, and else on the last entry,
    which it prints. *)
Theorem refresh_stack_positions (self : Pdb) :
  fullstack self <> [] ->
  exists self',
    refresh_stack self = Ok self' /\
    positioned self' /\
    fullstack self' = fullstack self /\
    (Exists (fun e => frame_is_opt e.1 (curframe self) = true) (stack self') ->
     curframe self' = curframe self /\ output self' = output self) /\
    (Forall (fun e => frame_is_opt e.1 (curframe self) = false) (stack self') ->
     curindex self' = (len (stack self') - 1)%Z /\
     output self' = output self ++ [PrintCurrentStackEntry]).
Proof.
  intros Hne.
  destruct (refresh_stack_result self Hne)
    as (hidden & newstack & newidx & self' & _ & Hr & Hst & _ & Hfull & _ & _
        & _ & Hpos & Hfound & Hmiss).
  exists self'. rewrite Hst. auto.
Qed.

(** With no stack at all there is no last entry to fall back on. *)
Lemma refresh_stack_empty (self : Pdb) :
  fullstack self = [] -> refresh_stack self = Raise IndexError.
Proof. intros H. unfold refresh_stack. rewrite H. reflexivity. Qed.




(** X5: With [enable_hidden_frames] off nothing is hidden, decorated or not. *)
Theorem hidden_frames_disabled (self : Pdb) (fullstack : list stack_entry)
    (idx : Z) :
  enable_hidden_frames self = false ->
  show_hidden_frames self = false ->
  fullstack <> [] ->
  compute_stack self fullstack (Some idx) =
    Ok (set_hidden_frames self [], (fullstack, idx)).
Proof.
  intros Hen Hshow Hne. rewrite compute_stack_hiding by assumption.
  assert (Hnone : Forall (fun e => hidden_entry self e = false) fullstack).
  { apply List.Forall_forall. intros x _. unfold hidden_entry, _is_hidden.
    now rewrite Hen. }
  assert (Hvis : visible_part self fullstack = fullstack).
  { unfold visible_part. apply filter_all.
    eapply Forall_impl; [exact Hnone|]. intros x Hx. simpl in Hx.
    now rewrite Hx. }
  assert (Hhid : hidden_part self fullstack = [])
    by (apply filter_false, Hnone).
  rewrite Hvis, Hhid. simpl. destruct fullstack; [congruence|].
  now rewrite Z.sub_0_r.
Qed.

Lemma compute_stack_keeps_every_frame_witness :
  exists self' newstack newidx,
    compute_stack pdb_at_B stack_ABC None = Ok (self', (newstack, newidx)) /\
    _hidden_frames self' ++ newstack ≡ₚ stack_ABC /\
    sublist (_hidden_frames self') stack_ABC /\
    sublist newstack stack_ABC /\
    Forall (fun e => _is_hidden pdb_at_B e.1 = true) (_hidden_frames self') /\
    (visible_part pdb_at_B stack_ABC <> [] ->
     Forall (fun e => _is_hidden pdb_at_B e.1 = false) newstack).
Proof.
  apply (compute_stack_keeps_every_frame pdb_at_B stack_ABC None).
  - discriminate.
  - reflexivity.
Defined.

Lemma get_stack_index_follows_frame_witness :
  exists self' newstack newidx,
    get_stack pdb_at_B
      ([(frame_A, 10%Z); (frame_B, 20%Z)] ++ (frame_C, 30%Z) :: [],
       len [(frame_A, 10%Z); (frame_B, 20%Z)]) =
      Ok (self', (newstack, newidx)) /\
    fullstack self' = [(frame_A, 10%Z); (frame_B, 20%Z)] ++ (frame_C, 30%Z) :: [] /\
    _hidden_frames self' =
      hidden_part pdb_at_B [(frame_A, 10%Z); (frame_B, 20%Z)] /\
    newstack =
      visible_part pdb_at_B [(frame_A, 10%Z); (frame_B, 20%Z)]
        ++ (frame_C, 30%Z) :: [] /\
    newidx = (len [(frame_A, 10%Z); (frame_B, 20%Z)]
              - len (_hidden_frames self'))%Z /\
    index newstack newidx = Ok (frame_C, 30%Z).
Proof.
  apply (get_stack_index_follows_frame pdb_at_B
           [(frame_A, 10%Z); (frame_B, 20%Z)] [] (frame_C, 30%Z)).
  - reflexivity.
  - vm_compute. reflexivity.
  - constructor.
Defined.

Lemma refresh_stack_positions_witness :
  exists self',
    refresh_stack pdb_at_B = Ok self' /\
    positioned self' /\
    fullstack self' = fullstack pdb_at_B /\
    (Exists (fun e => frame_is_opt e.1 (curframe pdb_at_B) = true)
       (stack self') ->
     curframe self' = curframe pdb_at_B /\ output self' = output pdb_at_B) /\
    (Forall (fun e => frame_is_opt e.1 (curframe pdb_at_B) = false)
       (stack self') ->
     curindex self' = (len (stack self') - 1)%Z /\
     output self' = output pdb_at_B ++ [PrintCurrentStackEntry]).
Proof.
  apply (refresh_stack_positions pdb_at_B). discriminate.
Defined.


Lemma hidden_frames_disabled_witness :
  compute_stack pdb_without_hiding stack_ABC (Some 1%Z) =
    Ok (set_hidden_frames pdb_without_hiding [], (stack_ABC, 1%Z)).
Proof.
  apply (hidden_frames_disabled pdb_without_hiding stack_ABC 1).
  - reflexivity.
  - reflexivity.
  - discriminate.
Defined.

End FramesFacts.

(** ** Moving along the stack *)

Section NavigationFacts.
Import Visibility Frames Navigation.

Lemma select_entry (s : session) (i : Z) (f : frame) (l : Z) :
  (0 <= i)%Z ->
  nth_error (stack (pdb s)) (Z.to_nat i) = Some (f, l) ->
  exists s',
    select s i = (s', Ok tt) /\
    stands_at (pdb s') i /\
    stack (pdb s') = stack (pdb s) /\
    output (pdb s') = output (pdb s) ++ [PrintCurrentStackEntry] /\
    lineno s' = None /\
    log s' = log s.
Proof.
  intros Hi Hnth. unfold select. simpl.
  rewrite index_nonneg, Hnth by exact Hi.
  eexists. split; [reflexivity|]. simpl.
  repeat split; try reflexivity; try exact Hi.
  exists f, l. auto.
Qed.

Lemma stands_at_lt self i : stands_at self i -> (0 <= i < len (stack self))%Z.
Proof.
  intros (_ & Hi & f & l & Hnth & _). split; [exact Hi|].
  assert (Z.to_nat i < length (stack self))
    by (apply nth_error_Some; congruence).
  unfold len. lia.
Qed.

Lemma nth_error_in_range {A} (l : list A) (i : Z) :
  (0 <= i < len l)%Z -> exists a, nth_error l (Z.to_nat i) = Some a.
Proof.
  intros Hi. destruct (nth_error l (Z.to_nat i)) eqn:Hn; [eauto|].
  apply nth_error_None in Hn. unfold len in Hi. lia.
Qed.

(** X6: With a count that is not negative, [up] and [down] do not raise and do
    not leave the stack. *)
Theorem up_down_stay_on_stack (s : session) (arg : str) (i n : Z) :
  stands_at (pdb s) i ->
  py_int (match arg with [] => py "1" | _ :: _ => arg end) = Some n ->
  (0 <= n)%Z ->
  (exists s',
     do_up s arg = (s', Ok tt) /\
     stack (pdb s') = stack (pdb s) /\
     if (n <=? i)%Z
     then stands_at (pdb s') (i - n) /\ log s' = log s
     else pdb s' = pdb s /\
          log s' = log s ++ [Print (py "*** Oldest frame")]) /\
  (exists s',
     do_down s arg = (s', Ok tt) /\
     stack (pdb s') = stack (pdb s) /\
     if (i + n <? len (stack (pdb s)))%Z
     then stands_at (pdb s') (i + n) /\ log s' = log s
     else pdb s' = pdb s /\
          log s' = log s ++ [Print (py "*** Newest frame")]).
Proof.
  intros Hat Hint Hn. pose proof (stands_at_lt _ _ Hat) as Hlt.
  destruct Hat as (Hcur & _).
  split.
  - unfold do_up. rewrite Hint, Hcur.
    destruct (Z.ltb_spec (i - n) 0); destruct (Z.leb_spec n i); try lia.
    + eexists. split; [reflexivity|]. simpl. auto.
    + destruct (nth_error_in_range (stack (pdb s)) (i - n)) as ([f l] & Hnth);
        [lia|].
      destruct (select_entry s (i - n) f l) as (s' & -> & Hat' & Hst & _ & _ & Hlog);
        [lia | exact Hnth |].
      exists s'. auto.
  - unfold do_down. rewrite Hint, Hcur.
    destruct (Z.geb_spec (i + n) (len (stack (pdb s))));
      destruct (Z.ltb_spec (i + n) (len (stack (pdb s)))); try lia.
    + eexists. split; [reflexivity|]. simpl. auto.
    + destruct (nth_error_in_range (stack (pdb s)) (i + n)) as ([f l] & Hnth);
        [lia|].
      destruct (select_entry s (i + n) f l) as (s' & -> & Hat' & Hst & _ & _ & Hlog);
        [lia | exact Hnth |].
      exists s'. auto.
Qed.

(** X7: [down] undoes [up]. *)
Theorem up_then_down (s : session) (arg : str) (i n : Z) :
  stands_at (pdb s) i ->
  py_int (match arg with [] => py "1" | _ :: _ => arg end) = Some n ->
  (0 <= n <= i)%Z ->
  exists s1 s2,
    do_up s arg = (s1, Ok tt) /\
    stands_at (pdb s1) (i - n) /\
    do_down s1 arg = (s2, Ok tt) /\
    stands_at (pdb s2) i /\
    stack (pdb s2) = stack (pdb s) /\
    curframe (pdb s2) = curframe (pdb s) /\
    curframe_locals (pdb s2) = curframe_locals (pdb s).
Proof.
  intros Hat Hint Hn. pose proof (stands_at_lt _ _ Hat) as Hlt.
  destruct Hat as (Hcur & _ & f & l & Hnth & Hf & Hloc).
  unfold do_up. rewrite Hint, Hcur.
  destruct (Z.ltb_spec (i - n) 0); [lia|].
  destruct (nth_error_in_range (stack (pdb s)) (i - n)) as ([f1 l1] & Hnth1);
    [lia|].
  destruct (select_entry s (i - n) f1 l1)
    as (s1 & -> & Hat1 & Hst1 & _ & _ & _); [lia | exact Hnth1 |].
  exists s1. unfold do_down. rewrite Hint.
  destruct Hat1 as (Hcur1 & Hat1). rewrite Hcur1, Hst1.
  destruct (Z.geb_spec (i - n + n) (len (stack (pdb s)))); [lia|].
  replace (i - n + n)%Z with i by lia.
  destruct (select_entry s1 i f l) as (s2 & -> & Hat2 & Hst2 & _ & _ & _);
    [lia | now rewrite Hst1 |].
  exists s2. split; [reflexivity|]. split; [split; assumption|].
  split; [reflexivity|]. split; [exact Hat2|].
  split; [congruence|].
  destruct Hat2 as (_ & _ & f2 & l2 & Hnth2 & Hf2 & Hloc2).
  rewrite Hst2, Hst1, Hnth in Hnth2. injection Hnth2 as <- <-.
  split; congruence.
Qed.

(** X8: [frame n] counts a negative [n] from the end; an [n] outside the stack
    is refused and anything that is not a number is reported. *)
Theorem frame_selects_modulo (s : session) (arg : str) :
  arg <> [] ->
  exists s',
    do_frame s arg = (s', Ok tt) /\
    stack (pdb s') = stack (pdb s) /\
    match py_int arg with
    | Some n =>
        if (Z.abs n <? len (stack (pdb s)))%Z
        then stands_at (pdb s') (n mod len (stack (pdb s))) /\ log s' = log s
        else pdb s' = pdb s /\
             log s' = log s ++ [Print (py "*** Out of range")]
    | None =>
        pdb s' = pdb s /\ log s' = log s ++ [expected_a_number arg]
    end.
Proof.
  intros Hne. unfold do_frame. destruct arg as [|c t]; [congruence|].
  destruct (py_int (c :: t)) as [n|].
  - destruct (Z.geb_spec (Z.abs n) (len (stack (pdb s))));
      destruct (Z.ltb_spec (Z.abs n) (len (stack (pdb s)))); try lia.
    + eexists. split; [reflexivity|]. simpl. auto.
    + assert (Hmod : (n mod len (stack (pdb s)) =
                      if (n >=? 0)%Z then n else len (stack (pdb s)) + n)%Z).
      { destruct (Z.geb_spec n 0).
        - apply Z.mod_small. lia.
        - symmetry. apply (Z.mod_unique _ _ (-1)); lia. }
      rewrite <- Hmod.
      assert (Hr : (0 <= n mod len (stack (pdb s)) < len (stack (pdb s)))%Z)
        by (apply Z.mod_pos_bound; lia).
      destruct (nth_error_in_range (stack (pdb s)) _ Hr) as ([f l] & Hnth).
      destruct (select_entry s (n mod len (stack (pdb s))) f l)
        as (s' & -> & Hat' & Hst & _ & _ & Hlog); [lia | exact Hnth |].
      exists s'. auto.
  - eexists. split; [reflexivity|]. simpl. auto.
Qed.

(** X9: [top] and [bottom] go to the two ends of the stack, and only complain
    when the session is there already. *)
Theorem top_and_bottom (s : session) (i : Z) :
  stands_at (pdb s) i ->
  (exists s',
     do_top s = (s', Ok tt) /\
     stack (pdb s') = stack (pdb s) /\
     if (i =? 0)%Z
     then pdb s' = pdb s /\ log s' = log s ++ [Error (py "Oldest frame")]
     else stands_at (pdb s') 0 /\ log s' = log s) /\
  (exists s',
     do_bottom s = (s', Ok tt) /\
     stack (pdb s') = stack (pdb s) /\
     if (i =? len (stack (pdb s)) - 1)%Z
     then pdb s' = pdb s /\ log s' = log s ++ [Error (py "Newest frame")]
     else stands_at (pdb s') (len (stack (pdb s)) - 1) /\ log s' = log s).
Proof.
  intros Hat. pose proof (stands_at_lt _ _ Hat) as Hlt.
  destruct Hat as (Hcur & _).
  split.
  - unfold do_top, _select_frame. rewrite Hcur.
    destruct (Z.eqb_spec i 0).
    + eexists. split; [reflexivity|]. simpl. auto.
    + destruct (Z.leb_spec 0 0); [|lia].
      destruct (Z.ltb_spec 0 (len (stack (pdb s)))); [|lia]. simpl.
      destruct (nth_error_in_range (stack (pdb s)) 0) as ([f l] & Hnth); [lia|].
      destruct (select_entry s 0 f l) as (s' & -> & Hat' & Hst & _ & _ & Hlog);
        [lia | exact Hnth |].
      exists s'. auto.
  - unfold do_bottom, _select_frame. rewrite Hcur.
    destruct (Z.eqb_spec (i + 1) (len (stack (pdb s))));
      destruct (Z.eqb_spec i (len (stack (pdb s)) - 1)); try lia.
    + eexists. split; [reflexivity|]. simpl. auto.
    + destruct (Z.leb_spec 0 (len (stack (pdb s)) - 1)); [|lia].
      destruct (Z.ltb_spec (len (stack (pdb s)) - 1) (len (stack (pdb s))));
        [|lia]. simpl.
      destruct (nth_error_in_range (stack (pdb s)) (len (stack (pdb s)) - 1))
        as ([f l] & Hnth); [lia|].
      destruct (select_entry s (len (stack (pdb s)) - 1) f l)
        as (s' & -> & Hat' & Hst & _ & _ & Hlog); [lia | exact Hnth |].
      exists s'. auto.
Qed.

(** X10: A negative count is checked against one end of the stack only: [down]
    can leave a negative index, which addresses the stack from its end,
    and [up] can leave an index past the end, with [IndexError]. *)
Theorem negative_count_is_not_bounded (s : session) (arg : str) (i n : Z) :
  stands_at (pdb s) i ->
  py_int (match arg with [] => py "1" | _ :: _ => arg end) = Some n ->
  (n < 0)%Z ->
  ((- len (stack (pdb s)) <= i + n < 0)%Z ->
   exists s' f l,
     do_down s arg = (s', Ok tt) /\
     curindex (pdb s') = (i + n)%Z /\
     nth_error (stack (pdb s)) (Z.to_nat (len (stack (pdb s)) + i + n))
       = Some (f, l) /\
     curframe (pdb s') = Some f) /\
  ((len (stack (pdb s)) <= i - n)%Z ->
   exists s',
     do_up s arg = (s', Raise IndexError) /\
     curindex (pdb s') = (i - n)%Z /\
     curframe (pdb s') = curframe (pdb s)).
Proof.
  intros Hat Hint Hn. pose proof (stands_at_lt _ _ Hat) as Hlt.
  destruct Hat as (Hcur & _).
  split; intros Hrange.
  - unfold do_down. rewrite Hint, Hcur.
    destruct (Z.geb_spec (i + n) (len (stack (pdb s)))); [lia|].
    unfold select. simpl.
    rewrite index_negative by lia.
    destruct (nth_error_in_range (stack (pdb s))
                (len (stack (pdb s)) + (i + n))) as ([f l] & Hnth); [lia|].
    rewrite Hnth. exists (Session
      (emit (set_curframe_locals (set_curframe (set_curindex (pdb s) (i + n))
         (Some f)) (f_locals f)) PrintCurrentStackEntry) None (log s)), f, l.
    split; [reflexivity|]. split; [reflexivity|].
    split; [|reflexivity].
    now rewrite <- Z.add_assoc.
  - unfold do_up. rewrite Hint, Hcur.
    destruct (Z.ltb_spec (i - n) 0); [lia|].
    unfold select. simpl.
    rewrite index_out_of_range by lia.
    eexists. split; [reflexivity|]. split; reflexivity.
Qed.

Lemma session_at_B_stands : stands_at (pdb session_at_B) 1.
Proof.
  split; [reflexivity|]. split; [lia|].
  exists frame_B, 20%Z. repeat split; reflexivity.
Qed.

Lemma up_down_stay_on_stack_witness :
  (exists s',
     do_up session_at_B (py "1") = (s', Ok tt) /\
     stack (pdb s') = stack (pdb session_at_B) /\
     if (1 <=? 1)%Z
     then stands_at (pdb s') (1 - 1) /\ log s' = log session_at_B
     else pdb s' = pdb session_at_B /\
          log s' = log session_at_B ++ [Print (py "*** Oldest frame")]) /\
  (exists s',
     do_down session_at_B (py "1") = (s', Ok tt) /\
     stack (pdb s') = stack (pdb session_at_B) /\
     if (1 + 1 <? len (stack (pdb session_at_B)))%Z
     then stands_at (pdb s') (1 + 1) /\ log s' = log session_at_B
     else pdb s' = pdb session_at_B /\
          log s' = log session_at_B ++ [Print (py "*** Newest frame")]).
Proof.
  apply (up_down_stay_on_stack session_at_B (py "1") 1 1).
  - exact session_at_B_stands.
  - vm_compute. reflexivity.
  - lia.
Defined.

Lemma up_then_down_witness :
  exists s1 s2,
    do_up session_at_B [] = (s1, Ok tt) /\
    stands_at (pdb s1) (1 - 1) /\
    do_down s1 [] = (s2, Ok tt) /\
    stands_at (pdb s2) 1 /\
    stack (pdb s2) = stack (pdb session_at_B) /\
    curframe (pdb s2) = curframe (pdb session_at_B) /\
    curframe_locals (pdb s2) = curframe_locals (pdb session_at_B).
Proof.
  apply (up_then_down session_at_B [] 1 1).
  - exact session_at_B_stands.
  - vm_compute. reflexivity.
  - lia.
Defined.

Lemma frame_selects_modulo_witness :
  exists s',
    do_frame session_at_B (py "-1") = (s', Ok tt) /\
    stack (pdb s') = stack (pdb session_at_B) /\
    match py_int (py "-1") with
    | Some n =>
        if (Z.abs n <? len (stack (pdb session_at_B)))%Z
        then stands_at (pdb s') (n mod len (stack (pdb session_at_B))) /\
             log s' = log session_at_B
        else pdb s' = pdb session_at_B /\
             log s' = log session_at_B ++ [Print (py "*** Out of range")]
    | None =>
        pdb s' = pdb session_at_B /\
        log s' = log session_at_B ++ [expected_a_number (py "-1")]
    end.
Proof.
  apply (frame_selects_modulo session_at_B (py "-1")). discriminate.
Defined.

Lemma top_and_bottom_witness :
  (exists s',
     do_top session_at_B = (s', Ok tt) /\
     stack (pdb s') = stack (pdb session_at_B) /\
     if (1 =? 0)%Z
     then pdb s' = pdb session_at_B /\
          log s' = log session_at_B ++ [Error (py "Oldest frame")]
     else stands_at (pdb s') 0 /\ log s' = log session_at_B) /\
  (exists s',
     do_bottom session_at_B = (s', Ok tt) /\
     stack (pdb s') = stack (pdb session_at_B) /\
     if (1 =? len (stack (pdb session_at_B)) - 1)%Z
     then pdb s' = pdb session_at_B /\
          log s' = log session_at_B ++ [Error (py "Newest frame")]
     else stands_at (pdb s') (len (stack (pdb session_at_B)) - 1) /\
          log s' = log session_at_B).
Proof.
  apply (top_and_bottom session_at_B 1). exact session_at_B_stands.
Defined.

Lemma negative_count_is_not_bounded_witness :
  ((- len (stack (pdb session_at_B)) <= 1 + -2 < 0)%Z ->
   exists s' f l,
     do_down session_at_B (py "-2") = (s', Ok tt) /\
     curindex (pdb s') = (1 + -2)%Z /\
     nth_error (stack (pdb session_at_B))
       (Z.to_nat (len (stack (pdb session_at_B)) + 1 + -2)) = Some (f, l) /\
     curframe (pdb s') = Some f) /\
  ((len (stack (pdb session_at_B)) <= 1 - -2)%Z ->
   exists s',
     do_up session_at_B (py "-2") = (s', Raise IndexError) /\
     curindex (pdb s') = (1 - -2)%Z /\
     curframe (pdb s') = curframe (pdb session_at_B)).
Proof.
  apply (negative_count_is_not_bounded session_at_B (py "-2") 1 (-2)).
  - exact session_at_B_stands.
  - vm_compute. reflexivity.
  - lia.
Defined.

End NavigationFacts.

(** ** Reuse of the instance of the thread *)

Section ReuseFacts.
Import Singleton Reuse.

Ltac run_call :=
  unfold PdbMeta_call, mbind, M_bind, mret, M_ret, get, call, set_in_init,
    set_GLOBAL_PDB, settrace_None, kwargs_pop; simpl in *.

Ltac finish_created H :=
  repeat match type of H with
         | context [match ?x with _ => _ end] => destruct x eqn:?; simpl in H
         end;
  try discriminate H.

Lemma reuse_call (w : world) (cls : class) (kwargs : gmap str pyval)
    (st : state) (g g' : instance) (caller : str * Z) :
  _pdbpp_in_init st = false ->
  GLOBAL_PDB st = Some g ->
  set_trace_caller w = Some caller ->
  kwargs !! py "use_global_pdb" = None ->
  _in_interaction g = false ->
  default (py "1") (environ w !! py "PDBPP_REUSE_GLOBAL_PDB") = py "1" ->
  _force_use_as_global_pdb g || use_global_pdb_for_class w g cls = true ->
  setup_streams w (if has_botframe g then prepare_reuse g else g)
    (default (sys_stdout w) (kwargs !! py "stdout")) = Ok g' ->
  PdbMeta_call w cls kwargs st =
    (Ok (Reused g'),
     State (Some g') false (if has_botframe g then false else tracing st)).
Proof.
  intros Hinit Hg Hcaller Hkw Hint Henv Hcls Hsetup. run_call.
  rewrite Hinit, Hg, Hkw, Hcaller, Hint, Henv. simpl.
  rewrite Hcls. simpl.
  destruct (has_botframe g); simpl; rewrite Hsetup; reflexivity.
Qed.

(** X11: [set_trace] gets the instance of the thread back: [__init__] is not
    run again, tracing is stopped when the instance has traced before, and
    the guard is cleared. *)
Theorem set_trace_reuses_global_instance (w : world) (cls : class)
    (kwargs : gmap str pyval) (st : state) (g g' : instance)
    (caller : str * Z) :
  _pdbpp_in_init st = false ->
  GLOBAL_PDB st = Some g ->
  set_trace_caller w = Some caller ->
  kwargs !! py "use_global_pdb" = None ->
  _in_interaction g = false ->
  default (py "1") (environ w !! py "PDBPP_REUSE_GLOBAL_PDB") = py "1" ->
  _force_use_as_global_pdb g || use_global_pdb_for_class w g cls = true ->
  setup_streams w (if has_botframe g then prepare_reuse g else g)
    (default (sys_stdout w) (kwargs !! py "stdout")) = Ok g' ->
  PdbMeta_call w cls kwargs st =
    (Ok (Reused g'),
     State (Some g') false (if has_botframe g then false else tracing st)).
Proof. apply reuse_call. Qed.


(** X13: When the instance is not reused: outside of [set_trace], during an
    interaction, with [use_global_pdb=False], with
    [PDBPP_REUSE_GLOBAL_PDB] set to something else than ["1"], and while
    there is no instance. *)
Theorem no_reuse (w : world) (cls : class) (kwargs : gmap str pyval)
    (st st' : state) (r : result) :
  set_trace_caller w = None \/
  GLOBAL_PDB st = None \/
  kwargs !! py "use_global_pdb" = Some (PyBool false) \/
  (kwargs !! py "use_global_pdb" = None /\
   exists g, GLOBAL_PDB st = Some g /\
     (_in_interaction g = true \/
      default (py "1") (environ w !! py "PDBPP_REUSE_GLOBAL_PDB") <> py "1")) ->
  PdbMeta_call w cls kwargs st = (Ok r, st') ->
  forall g', r <> Reused g'.
Proof.
  intros Hwhy Hcall g' ->. revert Hcall. run_call.
  destruct (_pdbpp_in_init st).
  { destruct (orig_init w _); intros [= ]. }
  destruct (GLOBAL_PDB st) as [g|] eqn:Hg;
    destruct (kwargs !! _) as [v|] eqn:Hk at 1;
    destruct (set_trace_caller w) as [caller|] eqn:Hcaller; simpl;
    try solve [intros Hcall; finish_created Hcall].
  - destruct Hwhy as [H|[H|[H|(H & _)]]]; try congruence.
    rewrite Hk in H. injection H as ->. simpl.
    intros Hcall; finish_created Hcall.
  - destruct Hwhy as [H|[H|[H|(_ & g0 & Hg0 & H)]]]; try congruence.
    injection Hg0 as <-. destruct H as [H|H].
    + rewrite H. simpl. intros Hcall; finish_created Hcall.
    + rewrite (bool_decide_eq_false_2 _ H), andb_false_r. simpl.
      intros Hcall; finish_created Hcall.
Qed.

(** X14: The guard after a call tells how the call ended: it is cleared when
    the call returned, whatever [__init__] did; and it is set when the call
    raised, for an [__init__] that leaves the guard as it finds it. *)
Theorem guard_tells_how_the_call_ended (w : world) (cls : class)
    (kwargs : gmap str pyval) (st st' : state) (r : outcome result) :
  PdbMeta_call w cls kwargs st = (r, st') ->
  (forall res, r = Ok res -> _pdbpp_in_init st' = false) /\
  (init_keeps_guard w ->
   forall e, r = Raise e -> _pdbpp_in_init st' = true).
Proof.
  intros H. split.
  - intros res ->. eapply PdbMeta_call_return_clears_guard, H.
  - intros Hinit e ->. eapply PdbMeta_call_raise_leaves_guard; eassumption.
Qed.

(** X15: [set_global_pdb] decides whether a new instance becomes the instance of
    the thread: with a true value it does, whatever [__init__] did; with a
    false value the instance of the thread is the one before the call, for
    an [__init__] that leaves [local.GLOBAL_PDB] as it finds it. *)
Theorem set_global_pdb_decides (w : world) (cls : class)
    (kwargs : gmap str pyval) (st st' : state) (obj : instance) (v : pyval) :
  kwargs !! py "set_global_pdb" = Some v ->
  kwargs !! py "use_global_pdb" = None ->
  PdbMeta_call w cls kwargs st = (Ok (Created obj), st') ->
  (truthy v = true ->
   GLOBAL_PDB st' = Some obj /\ _env obj = Some (environ w !! py "HOME")) /\
  (truthy v = false -> init_keeps_global w ->
   GLOBAL_PDB st' = GLOBAL_PDB st).
Proof.
  intros Hset Huse. run_call.
  unfold kwargs_setdefault. simpl.
  destruct (_pdbpp_in_init st).
  { destruct (orig_init w _); intros [= ]. }
  rewrite Huse.
  assert (Hsame :
    match set_trace_caller w with
    | Some (filename, lineno) =>
        kwargs_setdefault
          (kwargs_setdefault kwargs (py "start_filename") (PyStr filename))
          (py "start_lineno") (PyInt lineno)
    | None => kwargs
    end !! py "set_global_pdb" = Some v).
  { destruct (set_trace_caller w) as [[filename lineno]|]; [|exact Hset].
    unfold kwargs_setdefault.
    destruct (kwargs !! py "start_filename");
      destruct (_ !! py "start_lineno") at 1;
      rewrite ?lookup_insert_ne by (vm_compute; discriminate); exact Hset. }
  unfold kwargs_setdefault in Hsame. simpl in Hsame.
  destruct (GLOBAL_PDB st) as [g|] eqn:Hg;
    destruct (set_trace_caller w) as [[filename lineno]|] eqn:Hcaller; simpl;
    repeat match goal with
           | |- context [if ?b then Some g else None] =>
               destruct b; simpl
           end;
    try (intros Hcall; finish_created Hcall; fail);
    rewrite ?Hsame, ?Hset; simpl;
    destruct (truthy v); simpl;
    match goal with
    | |- context [cls_init w ?o ?k ?s0] =>
        destruct (cls_init w o k s0) as [[o'|e'] sti] eqn:Hi
    end; simpl; intros [= <- <-]; simpl;
    (split; [intros Ht | intros Ht Hkeep]); try discriminate Ht; auto;
    rewrite (Hkeep _ _ _ _ _ Hi); simpl; auto.
Qed.

Lemma set_trace_reuses_global_instance_witness :
  PdbMeta_call set_trace_world Pdb_class ∅
    (State (Some first_instance) false true) =
    (Ok (Reused first_instance),
     State (Some first_instance) false
       (if has_botframe first_instance then false
        else tracing (State (Some first_instance) false true))).
Proof.
  apply (set_trace_reuses_global_instance set_trace_world Pdb_class ∅
           (State (Some first_instance) false true) first_instance
           first_instance (py "t.py", 3%Z));
    vm_compute; reflexivity.
Defined.


Lemma no_reuse_witness :
  PdbMeta_call plain_world Pdb_class ∅ fresh_state =
    (Ok (Created (set_env (blank Pdb_class) None)),
     State (Some (set_env (blank Pdb_class) None)) false false) /\
  forall g', Created (set_env (blank Pdb_class) None) <> Reused g'.
Proof.
  assert (Hcall : PdbMeta_call plain_world Pdb_class ∅ fresh_state =
    (Ok (Created (set_env (blank Pdb_class) None)),
     State (Some (set_env (blank Pdb_class) None)) false false))
    by (vm_compute; reflexivity).
  split; [exact Hcall|].
  apply (no_reuse plain_world Pdb_class ∅ fresh_state _ _
           (or_introl eq_refl) Hcall).
Defined.

Lemma plain_init_keeps_state obj kwargs st r st' :
  cls_init plain_world obj kwargs st = (r, st') -> st' = st.
Proof. unfold plain_world, call. simpl. now intros [= _ <-]. Qed.

Lemma guard_tells_how_the_call_ended_witness :
  init_keeps_guard plain_world /\
  _pdbpp_in_init (State None true false) = true.
Proof.
  assert (Hkeep : init_keeps_guard plain_world).
  { intros obj kwargs st r st' H.
    now rewrite (plain_init_keeps_state _ _ _ _ _ H). }
  split; [exact Hkeep|].
  assert (Hcall : PdbMeta_call plain_world Pdb_class bad_kwargs fresh_state =
                    (Raise TypeError, State None true false))
    by (vm_compute; reflexivity).
  exact (proj2 (guard_tells_how_the_call_ended plain_world Pdb_class
                  bad_kwargs fresh_state (State None true false)
                  (Raise TypeError) Hcall) Hkeep TypeError eq_refl).
Defined.

Lemma set_global_pdb_decides_witness :
  init_keeps_global plain_world /\
  GLOBAL_PDB (State None false false) = GLOBAL_PDB fresh_state.
Proof.
  assert (Hkeep : init_keeps_global plain_world).
  { intros obj kwargs st r st' H.
    now rewrite (plain_init_keeps_state _ _ _ _ _ H). }
  split; [exact Hkeep|].
  assert (Hcall : PdbMeta_call plain_world Pdb_class
                    {[ py "set_global_pdb" := PyBool false ]} fresh_state =
                    (Ok (Created (blank Pdb_class)), State None false false))
    by (vm_compute; reflexivity).
  assert (Hset : ({[ py "set_global_pdb" := PyBool false ]} : gmap str pyval)
                   !! py "set_global_pdb" = Some (PyBool false))
    by (vm_compute; reflexivity).
  assert (Huse : ({[ py "set_global_pdb" := PyBool false ]} : gmap str pyval)
                   !! py "use_global_pdb" = None)
    by (vm_compute; reflexivity).
  exact (proj2 (set_global_pdb_decides plain_world Pdb_class
                  {[ py "set_global_pdb" := PyBool false ]} fresh_state
                  (State None false false) (blank Pdb_class) (PyBool false)
                  Hset Huse Hcall) eq_refl Hkeep).
Defined.

End ReuseFacts.

(** ** Lines that fit *)

Section VisibleFacts.
Import Escapes Listing Visible.

Lemma esc_run_maximal fuel s :
  length s <= fuel -> esc_one (drop (esc_run fuel s) s) = None.
Proof.
  revert s. induction fuel as [|fuel IH]; intros s Hlen.
  - destruct s; [reflexivity | simpl in Hlen; lia].
  - simpl. destruct (esc_one s) as [n|] eqn:Hn; [|now rewrite drop_0].
    apply esc_one_bound in Hn. rewrite <- drop_drop. apply IH.
    rewrite length_drop. lia.
Qed.

Lemma match_at_after_match s :
  match_at (drop (match_at s) s) = 0.
Proof.
  rewrite (match_at_eq (drop _ _)). unfold match_at at 1.
  now rewrite esc_run_maximal.
Qed.

Lemma finditer_from_head fuel pos u a b ms :
  finditer_from fuel pos u = (a, b) :: ms -> (pos <= a)%Z.
Proof.
  revert pos u. induction fuel as [|fuel IH]; intros pos u; simpl;
    [discriminate|].
  destruct u as [|c t]; [discriminate|].
  destruct (match_at (c :: t)).
  - intros H. apply IH in H. lia.
  - intros [= <- _ _]. lia.
Qed.

Lemma finditer_from_apart fuel pos u a b ms :
  match_at u = 0 -> finditer_from fuel pos u = (a, b) :: ms -> (pos < a)%Z.
Proof.
  intros Hm. destruct fuel as [|fuel]; simpl; [discriminate|].
  destruct u as [|c t]; [discriminate|]. rewrite Hm.
  intros H. apply finditer_from_head in H. lia.
Qed.

Lemma runs_from_weaken s pos pos' ms :
  (pos' <= pos)%Z -> runs_from s pos ms -> runs_from s pos' ms.
Proof.
  intros Hle H. destruct H; constructor; try assumption. lia.
Qed.

Lemma finditer_from_runs s fuel pos u :
  (0 <= pos)%Z -> drop (Z.to_nat pos) s = u ->
  runs_from s pos (finditer_from fuel pos u).
Proof.
  revert pos u. induction fuel as [|fuel IH]; intros pos u Hpos Hu; simpl;
    [constructor|].
  destruct u as [|c t] eqn:Heq; [constructor|]. rewrite <- Heq in *.
  assert (Hlen : length u = length s - Z.to_nat pos)
    by (rewrite <- Hu; apply length_drop).
  assert (Hpos_lt : Z.to_nat pos < length s)
    by (rewrite Heq in Hlen; simpl in Hlen; lia).
  pose proof (match_at_le u) as Hle.
  pose proof (match_at_after_match u) as Hmax.
  destruct (match_at u) as [|n] eqn:Hm.
  - apply (runs_from_weaken s (pos + 1)); [lia|]. apply IH; [lia|].
    replace (Z.to_nat (pos + 1)) with (Z.to_nat pos + 1) by lia.
    rewrite <- drop_drop, Hu, Heq. reflexivity.
  - constructor.
    + lia.
    + unfold len. lia.
    + destruct (finditer_from fuel (pos + Z.of_nat (S n)) (drop (S n) u))
        as [|[a' b'] ms'] eqn:Hnext; [exact I|].
      eapply finditer_from_apart; [exact Hmax | exact Hnext].
    + apply IH; [lia|].
      replace (Z.to_nat (pos + Z.of_nat (S n))) with (Z.to_nat pos + S n)
        by lia.
      rewrite <- drop_drop, Hu. reflexivity.
Qed.

Lemma finditer_runs s : runs_from s 0 (finditer s).
Proof. apply finditer_from_runs; [lia | reflexivity]. Qed.

Lemma slice_from_nonneg {A} (l : list A) (a : Z) :
  (0 <= a)%Z -> slice_from l a = drop (Z.to_nat a) l.
Proof.
  intros Ha. unfold slice_from, clamp. destruct (Z.ltb_spec a 0); [lia|].
  reflexivity.
Qed.

Lemma slice_split {A} (l : list A) (a b c : Z) :
  (0 <= a <= b)%Z -> (b <= c)%Z ->
  slice l a c = slice l a b ++ slice l b c.
Proof.
  intros Hab Hbc. rewrite !slice_nonneg by lia.
  rewrite <- (take_drop (Z.to_nat b - Z.to_nat a)
                (drop (Z.to_nat a) (take (Z.to_nat c) l))).
  f_equal.
  - rewrite take_drop_commute, take_take. do 2 f_equal. lia.
  - rewrite drop_drop. f_equal. lia.
Qed.

Lemma slice_from_split {A} (l : list A) (a b : Z) :
  (0 <= a <= b)%Z -> slice_from l a = slice l a b ++ slice_from l b.
Proof.
  intros Hab. rewrite !slice_from_nonneg, slice_nonneg by lia.
  rewrite <- (take_drop (Z.to_nat b - Z.to_nat a) (drop (Z.to_nat a) l)).
  f_equal.
  - rewrite take_drop_commute. do 2 f_equal. lia.
  - rewrite drop_drop. f_equal. lia.
Qed.

Lemma between_split s pos pos' ms :
  runs_from s pos' ms -> (0 <= pos <= pos')%Z ->
  between s pos ms = slice s pos pos' ++ between s pos' ms.
Proof.
  intros Hruns Hpos. destruct Hruns as [pos'|pos' a b ms Hle Hab _ _]; simpl.
  - now apply slice_from_split.
  - rewrite app_assoc. f_equal. apply slice_split; lia.
Qed.

Lemma slice_one (s : str) (pos : Z) c t :
  (0 <= pos)%Z -> drop (Z.to_nat pos) s = c :: t ->
  slice s pos (pos + 1) = [c].
Proof.
  intros Hpos Hu. rewrite slice_nonneg by lia.
  replace (Z.to_nat (pos + 1)) with (Z.to_nat pos + 1) by lia.
  rewrite skipn_firstn_comm, Hu.
  replace (Z.to_nat pos + 1 - Z.to_nat pos) with 1 by lia. reflexivity.
Qed.

Lemma slice_empty {A} (l : list A) (a : Z) : (0 <= a)%Z -> slice l a a = [].
Proof.
  intros Ha. rewrite slice_nonneg by lia. apply drop_ge.
  rewrite length_take. lia.
Qed.

Lemma sub_from_between s fuel pos u :
  (0 <= pos)%Z -> drop (Z.to_nat pos) s = u -> length u <= fuel ->
  sub_from fuel u = between s pos (finditer_from fuel pos u).
Proof.
  revert pos u. induction fuel as [|fuel IH]; intros pos u Hpos Hu Hfuel.
  - destruct u; [|simpl in Hfuel; lia]. simpl.
    now rewrite slice_from_nonneg, Hu.
  - simpl. destruct u as [|c t] eqn:Heq.
    { simpl. now rewrite slice_from_nonneg, Hu. }
    rewrite <- Heq in *.
    pose proof (match_at_le u) as Hle.
    assert (Hlen : length u = S (length t)) by now rewrite Heq.
    destruct (match_at u) as [|n] eqn:Hm.
    + assert (Ht : drop (Z.to_nat (pos + 1)) s = t).
      { replace (Z.to_nat (pos + 1)) with (Z.to_nat pos + 1) by lia.
        rewrite <- drop_drop, Hu, Heq. reflexivity. }
      rewrite (between_split s pos (pos + 1));
        [|apply finditer_from_runs; [lia | exact Ht] | lia].
      rewrite (slice_one s pos c t Hpos) by now rewrite Hu, Heq.
      simpl. f_equal. apply IH; [lia | exact Ht | lia].
    + simpl. rewrite slice_empty by lia. simpl.
      apply IH; [lia | | rewrite length_drop; lia].
      replace (Z.to_nat (pos + Z.of_nat (S n))) with (Z.to_nat pos + S n)
        by lia.
      rewrite <- drop_drop, Hu. reflexivity.
Qed.

Lemma color_sub_between s : color_sub s = between s 0 (finditer s).
Proof. apply sub_from_between; [lia | reflexivity | lia]. Qed.

Lemma len_slice {A} (l : list A) (a b : Z) :
  (0 <= a <= b)%Z -> (b <= len l)%Z -> len (slice l a b) = (b - a)%Z.
Proof.
  intros Hab Hb. rewrite slice_nonneg by lia. unfold len in *.
  rewrite length_drop, length_take. lia.
Qed.

Lemma slice_to_all {A} (l : list A) (k : Z) :
  (len l <= k)%Z -> slice_to l k = l.
Proof.
  intros Hk. unfold slice_to, clamp, len in *.
  destruct (Z.ltb_spec k 0); [lia|]. apply take_ge. lia.
Qed.

Lemma truncate_loop_fits s maxlength ms ret total pos m_end :
  runs_from s pos ms ->
  (0 <= pos)%Z ->
  ret = take (Z.to_nat pos) s ->
  (m_end = pos \/ ms <> []) ->
  (total + len (between s pos ms) <= maxlength)%Z ->
  (total < maxlength \/ ms <> [])%Z ->
  truncate_loop s maxlength ms ret total pos m_end = Ok s.
Proof.
  intros Hruns. revert ret total m_end.
  induction Hruns as [pos|pos a b ms Hle Hab Hapart Hms IH];
    intros ret total m_end Hpos Hret Hend Hfit Hroom; cbn [truncate_loop].
  - destruct Hend as [->|Hne]; [|congruence].
    destruct Hroom as [Hroom|Hne]; [|congruence].
    destruct (Z.gtb_spec (maxlength - total) 0); [|lia].
    simpl in Hfit. rewrite slice_to_all by lia.
    rewrite slice_from_nonneg, Hret by lia. now rewrite take_drop.
  - simpl in Hfit. unfold len in Hfit. rewrite length_app in Hfit.
    pose proof (len_slice s pos a ltac:(lia) ltac:(lia)) as Hgap.
    unfold len in Hgap.
    destruct (Z.geb_spec (a - pos + total - maxlength) 0) as [Hover|Hover].
    + assert (Hrest : between s b ms = []) by (apply length_zero_iff_nil; lia).
      destruct (Z.eqb_spec (a - pos + total - maxlength) 0) as [_|Hnz]; [|lia].
      destruct ms as [|[a' b'] ms'].
      * simpl in Hrest. rewrite slice_from_nonneg in Hrest by lia.
        subst ret. rewrite take_then_slice by lia.
        rewrite take_then_slice by lia.
        rewrite <- (take_drop (Z.to_nat b) s) at 2. now rewrite Hrest, app_nil_r.
      * exfalso. simpl in Hrest. apply app_eq_nil in Hrest as [Hgap' _].
        inversion Hms; subst.
        pose proof (len_slice s b a' ltac:(lia) ltac:(lia)) as Hl.
        rewrite Hgap' in Hl. simpl in Hl. unfold len in Hl. simpl in Hl. lia.
    + apply IH; [lia | | now left | unfold len; lia | left; lia].
      subst ret. rewrite take_then_slice by lia. apply take_then_slice. lia.
Qed.

(** X16: A line that fits is returned as it is. *)
Theorem short_line_is_not_truncated (s : str) (maxlength : Z) :
  (len (color_sub s) <= maxlength)%Z ->
  _truncate_to_visible_length s maxlength = Ok s.
Proof.
  intros Hfit.
  assert (Hmax : (0 <= maxlength)%Z) by (unfold len in Hfit; lia).
  unfold _truncate_to_visible_length.
  pose proof (finditer_runs s) as Hruns.
  pose proof (color_sub_between s) as Hsub.
  destruct (finditer s) as [|m ms] eqn:Hms.
  - simpl in Hsub. rewrite slice_from_nonneg in Hsub by lia. simpl in Hsub.
    rewrite Hsub in Hfit. now rewrite slice_to_all.
  - rewrite <- Hms in *.
    rewrite (truncate_loop_fits s maxlength (finditer s) [] 0 0 0);
      [| exact Hruns | lia | reflexivity | now left
       | rewrite <- Hsub; lia | right; rewrite Hms; discriminate].
    simpl. unfold keep_reset. rewrite Z.eqb_refl. simpl.
    destruct (Z.leb_spec (len (color_sub s)) maxlength); [reflexivity|lia].
Qed.

Lemma short_line_is_not_truncated_witness :
  _truncate_to_visible_length red_abcdef 6 = Ok red_abcdef.
Proof.
  apply (short_line_is_not_truncated red_abcdef 6). now vm_compute.
Defined.

End VisibleFacts.

(** ** The current line in the window of [_cut_lines] *)

Section WindowFacts.
Import Escapes Listing.

Lemma numbered_shows lines start j line :
  (start <= j)%Z ->
  nth_error lines (Z.to_nat (j - start)) = Some line ->
  In (Some j, line) (numbered lines start).
Proof.
  unfold numbered. revert start.
  induction lines as [|l lines IH]; intros start Hj Hnth.
  - now destruct (Z.to_nat (j - start)).
  - simpl. destruct (Z.to_nat (j - start)) as [|k] eqn:Hk.
    + left. injection Hnth as ->. simpl. f_equal. f_equal. lia.
    + right. apply IH; [lia|].
      replace (Z.to_nat (j - (start + 1))) with k by lia. exact Hnth.
Qed.

(** After the cut before the marker every line is yielded that lies
    before the cut after it. *)
Lemma cut_loop_after_shows lineno n ca rest i j line :
  (i + len rest = n)%Z -> (0 <= ca)%Z -> (i <= j)%Z ->
  (ca = 0 \/ j < n - ca)%Z ->
  nth_error rest (Z.to_nat (j - i)) = Some line ->
  In (Some (lineno + j)%Z, line) (cut_loop lineno n i rest 0 ca).1.
Proof.
  revert i. induction rest as [|l rest IH]; intros i Hi Hca Hj Hlt Hnth.
  - now destruct (Z.to_nat (j - i)).
  - cbn [cut_loop]. rewrite Z.eqb_refl. cbn [negb].
    unfold len in Hi. cbn [length] in Hi.
    assert (Hgo : (negb (ca =? 0)%Z && (i >=? n - ca)%Z) = false).
    { destruct (Z.eqb_spec ca 0); [reflexivity|]. simpl.
      destruct (Z.geb_spec i (n - ca)); [lia|reflexivity]. }
    rewrite Hgo.
    specialize (IH (i + 1)%Z).
    destruct (cut_loop lineno n (i + 1) rest 0 ca) as [ys r]. simpl in *.
    destruct (Z.to_nat (j - i)) as [|k] eqn:Hk.
    + left. injection Hnth as ->. f_equal. f_equal. lia.
    + right. apply IH; [unfold len; lia | lia | lia | lia |].
      replace (Z.to_nat (j - (i + 1))) with k by lia. exact Hnth.
Qed.

(** X17: The current line is in the window, when no decorator lines are kept on
    top and no line of an exception lies after it. *)
Theorem cut_lines_show_the_current_line (self : Pdb) (lines : list str)
    (lineno : Z) (max_lines : option Z) (f : frame) (line : str) :
  curframe self = Some f ->
  (forall first, head lines = Some first -> keep_pat_match first = false) ->
  (0 <= lineno <= f_lineno f)%Z ->
  nth_error lines (Z.to_nat (f_lineno f - lineno)) = Some line ->
  (forall e, tb_lineno self !! f_id f = Some e -> (e <= f_lineno f)%Z) ->
  In (Some (f_lineno f), line) (_cut_lines self lines lineno max_lines).1.
Proof.
  intros Hcur Hhead Hlineno Hnth Hexc. unfold _cut_lines.
  pose proof (effective_max_lines_ge lines max_lines) as HM.
  set (M := effective_max_lines lines max_lines) in *.
  destruct (Z.leb_spec (len lines) M) as [Hfit|Hcut].
  { simpl. apply numbered_shows; [lia | exact Hnth]. }
  destruct lines as [|first rest] eqn:Hlines; [unfold len in Hcut; simpl in Hcut; lia|].
  assert (Hfirst : keep_pat_match first = false) by now apply Hhead.
  clear Hhead. rewrite <- Hlines in *.
  assert (Hkh : count_keep_head lines 0 = Ok 0%Z).
  { rewrite Hlines. simpl. now rewrite Hfirst. }
  rewrite Hkh. unfold keep_top. simpl. rewrite Hcur.
  assert (Hc : (f_lineno f - lineno < len lines)%Z).
  { assert (Z.to_nat (f_lineno f - lineno) < length lines)
      by (apply nth_error_Some; congruence).
    unfold len. lia. }
  assert (HL : (Z.max (f_lineno f) (default 0 (tb_lineno self !! f_id f))
                = f_lineno f)%Z).
  { destruct (tb_lineno self !! f_id f) as [e|] eqn:He; simpl.
    - specialize (Hexc e eq_refl). lia.
    - lia. }
  rewrite HL.
  set (c := (f_lineno f - lineno)%Z) in *.
  set (cutoff := (len lines - M)%Z) in *.
  set (cb0 := Z.min cutoff (Z.max 0 (c - M + M / 3 * 2))).
  assert (Hthird : (2 <= M / 3 /\ M / 3 * 3 <= M)%Z).
  { split; [apply Z.div_le_lower_bound; lia|].
    pose proof (Z.mul_div_le M 3 ltac:(lia)). lia. }
  assert (Hcb0 : (0 <= cb0 <= cutoff)%Z) by (unfold cb0; lia).
  rewrite slice_from_nonneg by lia. rewrite drop_0.
  replace (Some (f_lineno f)) with (Some (lineno + c)%Z)
    by (f_equal; unfold c; lia).
  destruct (Z.eqb_spec cb0 0) as [Hz|Hnz]; cbn [negb].
  - rewrite Hz.
    pose proof (cut_loop_after_shows lineno (len lines)
                  (if (cutoff - 0 >? 0)%Z then cutoff - 0 + 1 else 0)%Z
                  lines 0 c line) as Hshow.
    destruct (cut_loop lineno (len lines) 0 lines 0 _) as [ys r]. simpl in *.
    rewrite !Z.sub_0_r in Hshow.
    apply Hshow; try lia; try exact Hnth.
    + destruct (Z.gtb_spec cutoff 0); lia.
    + destruct (Z.gtb_spec cutoff 0); [|lia]. right.
      unfold cb0 in Hz. unfold cutoff in *. lia.
  - rewrite cut_loop_before by (unfold cutoff in *; lia).
    pose proof (cut_loop_after_shows lineno (len lines)
                  (if (cutoff - cb0 >? 0)%Z then cutoff - cb0 + 1 else 0)%Z
                  (drop (Z.to_nat (cb0 + 1)) lines) (0 + (cb0 + 1)) c line)
      as Hshow.
    destruct (cut_loop lineno (len lines) (0 + (cb0 + 1))
                (drop (Z.to_nat (cb0 + 1)) lines) 0 _) as [ys r].
    simpl in *. right.
    assert (Hge : (cb0 + 1 <= c)%Z) by (unfold cb0 in *; lia).
    apply Hshow.
    + unfold len in *. rewrite length_drop. unfold cutoff in *. lia.
    + destruct (Z.gtb_spec (cutoff - cb0) 0); lia.
    + lia.
    + destruct (Z.gtb_spec (cutoff - cb0) 0); [|lia]. right.
      unfold cb0, cutoff in *. lia.
    + rewrite nth_error_skipn.
      replace (Z.to_nat (cb0 + 1) + Z.to_nat (c - (0 + (cb0 + 1))))
        with (Z.to_nat c) by lia.
      exact Hnth.
Qed.

Lemma cut_lines_show_the_current_line_witness :
  In (Some (f_lineno (frame_at 5)), py "    d = c")
     (_cut_lines (pdb_in (frame_at 5)) seven_lines 1 (Some 6%Z)).1.
Proof.
  apply (cut_lines_show_the_current_line (pdb_in (frame_at 5)) seven_lines 1
           (Some 6%Z) (frame_at 5) (py "    d = c")).
  - reflexivity.
  - intros first [= <-]. vm_compute. reflexivity.
  - simpl. lia.
  - reflexivity.
  - intros e He. vm_compute in He. discriminate He.
Defined.

End WindowFacts.

(** ** Smart command mode and the question mark *)

Section SmartModeFacts.
Import Parse.

Lemma rstrip_app_kept x y : rstrip y <> [] -> rstrip (x ++ y) = x ++ rstrip y.
Proof.
  intros Hy. induction x as [|c x IH]; [reflexivity|].
  simpl. rewrite IH. destruct (x ++ rstrip y) eqn:Heq; [|reflexivity].
  apply app_eq_nil in Heq as [_ Heq]. contradiction.
Qed.

Lemma identchar_not_space c : identchar c = true -> is_space c = false.
Proof.
  destruct c as [[] [] [] [] [] [] [] []]; vm_compute; congruence.
Qed.

Lemma ident_span_app c a :
  forallb identchar c = true ->
  match a with x :: _ => identchar x = false | [] => True end ->
  ident_span (c ++ a) = length c.
Proof.
  intros Hc Ha. induction c as [|x c IH]; simpl in *.
  - destruct a as [|y a]; [reflexivity|]. simpl. now rewrite Ha.
  - apply andb_prop in Hc as [Hx Hc]. rewrite Hx. f_equal. now apply IH.
Qed.

Lemma match_count_letter c0 c :
  is_digit c0 = false -> match_count (c0 :: c) = None.
Proof.
  intros Hd. unfold match_count. simpl. rewrite Hd. simpl.
  now destruct (is_word c0).
Qed.

Lemma startswith_app p t : startswith (p ++ t) p = true.
Proof.
  unfold startswith. apply bool_decide_eq_true. now rewrite take_app_length.
Qed.

Lemma identchar_plain c :
  identchar c = true -> Ascii.eqb c "?" = false /\ Ascii.eqb c "!" = false.
Proof.
  destruct c as [[] [] [] [] [] [] [] []]; vm_compute; intuition congruence.
Qed.

Lemma rstrip_ident c : forallb identchar c = true -> rstrip c = c.
Proof.
  induction c as [|x c IH]; [reflexivity|]. simpl. intros H.
  apply andb_prop in H as [Hx Hc]. rewrite (IH Hc).
  rewrite (identchar_not_space x Hx). now destruct c.
Qed.

(** The baseline on a line made of a name and what follows it; [a'] is
    what follows without the white space at the end of the line. *)
Lemma base_parseline_name self c0 c a a' :
  forallb identchar (c0 :: c) = true ->
  rstrip (c0 :: c ++ a) = c0 :: c ++ a' ->
  match a' with x :: _ => identchar x = false | [] => True end ->
  base_parseline self (c0 :: c ++ a) =
    (Some (c0 :: c), Some (strip a'), c0 :: c ++ a').
Proof.
  intros Hc Hr Ha'.
  assert (Hc0 : identchar c0 = true) by (simpl in Hc; now apply andb_prop in Hc).
  pose proof (identchar_not_space c0 Hc0) as Hsp.
  destruct (identchar_plain c0 Hc0) as [Hq Hb].
  assert (Hstrip : strip (c0 :: c ++ a) = c0 :: c ++ a').
  { unfold strip. now rewrite lstrip_nonspace. }
  rewrite (base_parseline_plain self _ c0 (c ++ a') Hstrip Hq Hb).
  change (c0 :: c ++ a') with ((c0 :: c) ++ a').
  rewrite (ident_span_app (c0 :: c) a' Hc Ha').
  now rewrite take_app_length, drop_app_length.
Qed.

Lemma lstrip_spaces ws t :
  forallb is_space ws = true -> lstrip (ws ++ t) = lstrip t.
Proof.
  induction ws as [|w ws IH]; [reflexivity|]. simpl. intros H.
  apply andb_prop in H as [Hw Hws]. rewrite Hw. now apply IH.
Qed.

Lemma startswith_bang_name c0 t :
  identchar c0 = true -> startswith (c0 :: t) (py "!!") = false.
Proof.
  intros H. apply startswith_head_ne. intros ->. now vm_compute in H.
Qed.

(** X18: Smart command mode: a name that is both a command and a variable of the
    current frame is read as the variable, when the line is the name with
    something glued to it, as in [r[0]]. *)
Theorem variable_shadows_command (self : Pdb) (from_complete : bool)
    (f : frame) (c0 : ascii) (c a : str) :
  _pdbpp_executing_rc_lines self = false ->
  forallb identchar (c0 :: c) = true ->
  is_digit c0 = false ->
  match a with x :: _ => identchar x = false | [] => True end ->
  lstrip a = a -> rstrip a = a ->
  endswith (c0 :: c ++ a) (py "?") = false ->
  hasattr self (py "do_" ++ c0 :: c) = true ->
  curframe self = Some f ->
  is_variable self f (c0 :: c) = true ->
  parseline self from_complete (c0 :: c ++ a) =
    Ok (expression from_complete (c0 :: c ++ a)).
Proof.
  intros Hrc Hc Hd Ha Hl Hr Hend Hdo Hcur Hvar.
  assert (Hc0 : identchar c0 = true) by (simpl in Hc; now apply andb_prop in Hc).
  assert (Hline : rstrip (c0 :: c ++ a) = c0 :: c ++ a).
  { change (c0 :: c ++ a) with ((c0 :: c) ++ a).
    destruct a as [|x a'] eqn:Heq.
    - rewrite app_nil_r. now apply rstrip_ident.
    - rewrite <- Heq in *. rewrite rstrip_app_kept; rewrite Hr; [reflexivity|].
      subst a. discriminate. }
  pose proof (base_parseline_name self c0 c a a Hc Hline Ha) as Hbase.
  unfold strip in Hbase. rewrite Hl, Hr in Hbase.
  unfold parseline. rewrite Hrc, Hend, (startswith_bang_name c0 _ Hc0), Hbase.
  cbn [andb fst snd fmap option_fmap option_map].
  destruct (_ && _ && _); [reflexivity|].
  rewrite (match_count_letter c0 c Hd). cbn [mbind outcome_bind].
  rewrite Hdo, Hcur, Hvar.
  cbn [value]. rewrite bool_decide_eq_true_2 by reflexivity. reflexivity.
Qed.

(** X19: An assignment to a name that is a command is an expression: [n = 5]
    does not run [next]. *)
Theorem assignment_is_expression (self : Pdb) (from_complete : bool)
    (c0 : ascii) (c ws rest : str) :
  _pdbpp_executing_rc_lines self = false ->
  forallb identchar (c0 :: c) = true ->
  is_digit c0 = false ->
  forallb is_space ws = true ->
  endswith (c0 :: c ++ ws ++ "="%char :: rest) (py "?") = false ->
  hasattr self (py "do_" ++ c0 :: c) = true ->
  parseline self from_complete (c0 :: c ++ ws ++ "="%char :: rest) =
    Ok (expression from_complete (c0 :: c ++ ws ++ "="%char :: rest)).
Proof.
  intros Hrc Hc Hd Hws Hend Hdo.
  assert (Hc0 : identchar c0 = true) by (simpl in Hc; now apply andb_prop in Hc).
  set (a := ws ++ "="%char :: rest) in *.
  set (a' := ws ++ "="%char :: rstrip rest).
  assert (Heq : rstrip ("="%char :: rest) = "="%char :: rstrip rest)
    by now apply rstrip_nonspace.
  assert (Ha' : rstrip a = a').
  { unfold a, a'. rewrite rstrip_app_kept; rewrite Heq; [reflexivity|discriminate]. }
  assert (Hline : rstrip (c0 :: c ++ a) = c0 :: c ++ a').
  { change (c0 :: c ++ a) with ((c0 :: c) ++ a).
    rewrite rstrip_app_kept; rewrite Ha'; [reflexivity|].
    unfold a'. now destruct ws. }
  assert (Hhead : match a' with x :: _ => identchar x = false | [] => True end).
  { unfold a'. destruct ws as [|w ws']; [reflexivity|]. simpl in *.
    apply andb_prop in Hws as [Hw _].
    destruct (identchar w) eqn:Hi; [|reflexivity].
    apply identchar_not_space in Hi. congruence. }
  pose proof (base_parseline_name self c0 c a a' Hc Hline Hhead) as Hbase.
  assert (Harg : exists t, strip a' = "="%char :: t).
  { unfold strip, a'. rewrite lstrip_spaces by exact Hws.
    rewrite lstrip_nonspace, rstrip_nonspace by reflexivity. eauto. }
  destruct Harg as (t & Harg). rewrite Harg in Hbase.
  unfold parseline. rewrite Hrc, Hend, (startswith_bang_name c0 _ Hc0), Hbase.
  cbn [andb fst snd fmap option_fmap option_map].
  destruct (_ && _ && _); [reflexivity|].
  rewrite (match_count_letter c0 c Hd). cbn [mbind outcome_bind].
  rewrite Hdo.
  cbn [value].
  change (startswith ("="%char :: t) (py "=")) with
    (startswith (py "=" ++ t) (py "=")).
  rewrite startswith_app, orb_true_r. reflexivity.
Qed.

Lemma before_question_app name t :
  "?"%char ∉ name -> before_question (name ++ "?"%char :: t) = name.
Proof.
  induction name as [|x name IH]; intros Hnot; [reflexivity|]. simpl.
  destruct (Ascii.eqb_spec x "?") as [->|_].
  - exfalso. apply Hnot. constructor.
  - f_equal. apply IH. intros Hin. apply Hnot. now constructor.
Qed.

Lemma endswith_app_suffix x p : endswith (x ++ p) p = true.
Proof.
  unfold endswith. apply bool_decide_eq_true. rewrite length_app.
  split; [lia|]. replace (length x + length p - length p) with (length x) by lia.
  apply drop_app_length.
Qed.

Lemma endswith_one_question name :
  "?"%char ∉ name -> endswith (name ++ py "?") (py "??") = false.
Proof.
  intros Hnot. unfold endswith. apply bool_decide_eq_false.
  rewrite length_app. simpl. intros [Hlen Hdrop].
  destruct (exists_last (l := name)) as (name' & x & ->);
    [now destruct name; simpl in Hlen; [lia|]|].
  rewrite length_app in Hdrop. simpl in Hdrop.
  replace (length name' + 1 + 1 - 2) with (length name') in Hdrop by lia.
  rewrite <- app_assoc, drop_app_length in Hdrop. simpl in Hdrop.
  injection Hdrop as ->. apply Hnot. apply list_elem_of_In, in_or_app. right.
  now left.
Qed.

(** X20: A question mark after a name asks about the name: for help when the
    name is a command and not a variable (or is empty), for inspection
    otherwise; two question marks ask for the source too.  The argument is
    the name and the line is left as it was typed. *)
Theorem question_mark_asks_about_name (self : Pdb) (from_complete : bool)
    (f : frame) (name : str) :
  _pdbpp_executing_rc_lines self = false ->
  "?"%char ∉ name ->
  match name with x :: _ => x <> "!"%char | [] => True end ->
  curframe self = Some f ->
  parseline self from_complete (name ++ py "?") =
    Ok (Some (if bool_decide (name = []) ||
                 (hasattr self (py "do_" ++ name) &&
                  negb (is_variable self f name))
              then py "help" else py "inspect"),
        Some (Arg name None), name ++ py "?") /\
  parseline self from_complete (name ++ py "??") =
    Ok (Some (py "inspect_with_source"), Some (Arg name None),
        name ++ py "??").
Proof.
  intros Hrc Hnot Hbang Hcur.
  assert (Hb1 : forall t, startswith (name ++ "?"%char :: t) (py "!") = false).
  { intros t. unfold startswith. apply bool_decide_eq_false.
    destruct name as [|x name]; simpl; [discriminate|].
    intros [= ->]. now apply Hbang. }
  assert (Hb2 : forall t, startswith (name ++ "?"%char :: t) (py "!!") = false).
  { intros t. unfold startswith. apply bool_decide_eq_false.
    destruct name as [|x name]; simpl; [destruct t; discriminate|].
    intros [= -> _]. now apply Hbang. }
  split; unfold parseline; rewrite Hrc.
  - change (py "?") with ("?"%char :: []).
    rewrite Hb2, Hb1. change ("?"%char :: []) with (py "?").
    rewrite endswith_app_suffix. cbn [andb negb].
    rewrite (endswith_one_question name Hnot).
    change (py "?") with ("?"%char :: []). rewrite before_question_app by exact Hnot.
    destruct (bool_decide (name = [])); [reflexivity|]. cbn [orb].
    destruct (hasattr self (py "do_" ++ name)); [|reflexivity].
    rewrite Hcur. unfold is_variable. cbn [andb].
    rewrite negb_orb.
    now destruct (negb (in_globals name (f_globals f)) &&
                  negb (in_locals name (curframe_locals self))).
  - change (py "??") with ("?"%char :: py "?").
    rewrite Hb2, Hb1. rewrite before_question_app by exact Hnot.
    change ("?"%char :: py "?") with (py "??").
    assert (Hq : endswith (name ++ py "??") (py "?") = true).
    { change (py "??") with (py "?" ++ py "?"). rewrite app_assoc.
      apply endswith_app_suffix. }
    rewrite Hq, endswith_app_suffix. reflexivity.
Qed.

Lemma variable_shadows_command_witness :
  parseline (session_in frame_with_r) false ("r"%char :: [] ++ py "[0]") =
    Ok (expression false ("r"%char :: [] ++ py "[0]")).
Proof.
  apply (variable_shadows_command (session_in frame_with_r) false frame_with_r
           "r"%char [] (py "[0]")); vm_compute; reflexivity.
Defined.

Lemma assignment_is_expression_witness :
  parseline (session_in frame_without_r) false
    ("n"%char :: py "ext" ++ py " " ++ "="%char :: py " 5") =
    Ok (expression false
          ("n"%char :: py "ext" ++ py " " ++ "="%char :: py " 5")).
Proof.
  apply (assignment_is_expression (session_in frame_without_r) false
           "n"%char (py "ext") (py " ") (py " 5")); vm_compute; reflexivity.
Defined.

Lemma question_mark_asks_about_name_witness :
  parseline (session_in frame_with_r) false (py "r" ++ py "?") =
    Ok (Some (if bool_decide (py "r" = []) ||
                 (hasattr (session_in frame_with_r) (py "do_" ++ py "r") &&
                  negb (is_variable (session_in frame_with_r) frame_with_r
                          (py "r")))
              then py "help" else py "inspect"),
        Some (Arg (py "r") None), py "r" ++ py "?") /\
  parseline (session_in frame_with_r) false (py "r" ++ py "??") =
    Ok (Some (py "inspect_with_source"), Some (Arg (py "r") None),
        py "r" ++ py "??").
Proof.
  apply (question_mark_asks_about_name (session_in frame_with_r) false
           frame_with_r (py "r")).
  - reflexivity.
  - intros Hin. apply list_elem_of_In in Hin. simpl in Hin.
    destruct Hin as [Hin|[]]. discriminate Hin.
  - simpl. discriminate.
  - reflexivity.
Defined.

End SmartModeFacts.

(** ** Candidates for completion *)

Section CandidateFacts.
Import Escapes Completion Candidates.

Lemma public_is_not_dunder (x : str) :
  slice_to (color_sub x) 1 <> py "_" -> slice_to (color_sub x) 2 <> py "__".
Proof.
  unfold slice_to, clamp. simpl. intros H1 H2. apply H1.
  destruct (color_sub x) as [|a [|b t]]; try discriminate H2.
  simpl in *. now injection H2 as -> _.
Qed.

Lemma hide_underscores_keeps text completions :
  sublist (hide_underscores text completions) completions /\
  forall x, In x completions -> slice_to (color_sub x) 1 <> py "_" ->
            In x (hide_underscores text completions).
Proof.
  unfold hide_underscores.
  destruct (negb (bool_decide (slice_from text (-1) = py "_"))).
  - split; [apply filter_sublist|]. intros x Hin Hpub.
    apply List.filter_In. split; [exact Hin|].
    now rewrite bool_decide_eq_false_2.
  - destruct (negb (bool_decide (slice_from text (-2) = py "__"))).
    + split; [apply filter_sublist|]. intros x Hin Hpub.
      apply List.filter_In. split; [exact Hin|].
      rewrite bool_decide_eq_false_2; [reflexivity|].
      now apply public_is_not_dunder.
    + split; [reflexivity | auto].
Qed.

(** X21: The filter only removes candidates, and never one that does not start
    with an underscore. *)
Theorem filter_keeps_public_names (self : Pdb) (text : str) :
  sublist (_completions (_filter_completions self text)) (_completions self) /\
  forall x, In x (_completions self) ->
            slice_to (color_sub x) 1 <> py "_" ->
            In x (_completions (_filter_completions self text)).
Proof.
  unfold _filter_completions.
  destruct (bool_decide (Some text = (_lastcompstate self).1)).
  - destruct ((_lastcompstate self).2 >? 0)%Z.
    + split; [reflexivity | auto].
    + apply hide_underscores_keeps.
  - apply hide_underscores_keeps.
Qed.

Lemma get_all_completions_upto complete text k fuel i r :
  complete text (Z.of_nat k) = None ->
  (forall j, j < k -> is_Some (complete text (Z.of_nat j))) ->
  i <= k -> k - i < fuel ->
  exists r',
    _get_all_completions fuel complete text (Z.of_nat i) r = Some (r ++ r') /\
    length r' = k - i /\
    forall j, j < k - i -> complete text (Z.of_nat (i + j)) = r' !! j.
Proof.
  intros Hk Hsome. revert i r.
  induction fuel as [|fuel IH]; intros i r Hi Hfuel; [lia|].
  cbn [_get_all_completions].
  destruct (Nat.eq_dec i k) as [->|Hne].
  - rewrite Hk. exists []. rewrite app_nil_r. split; [reflexivity|].
    split; [simpl; lia|]. intros j Hj. lia.
  - destruct (Hsome i ltac:(lia)) as [x Hx]. rewrite Hx.
    replace (Z.of_nat i + 1)%Z with (Z.of_nat (S i)) by lia.
    destruct (IH (S i) (r ++ [x]) ltac:(lia) ltac:(lia)) as (r' & -> & Hlen & Hr').
    exists (x :: r'). rewrite <- app_assoc. split; [reflexivity|].
    split; [simpl; lia|]. intros [|j] Hj; simpl.
    + now rewrite Nat.add_0_r.
    + rewrite <- Hr' by lia. do 2 f_equal. lia.
Qed.

(** X22: The candidates are collected in order, up to the first [None]; a
    completer that never returns [None] is asked for ever. *)
Theorem completions_up_to_first_None (complete : str -> Z -> option str)
    (text : str) :
  (forall k fuel,
     complete text (Z.of_nat k) = None ->
     (forall j, j < k -> is_Some (complete text (Z.of_nat j))) ->
     k < fuel ->
     exists r,
       _get_all_completions fuel complete text 0 [] = Some r /\
       length r = k /\
       forall j, j < k -> complete text (Z.of_nat j) = r !! j) /\
  ((forall j, is_Some (complete text (Z.of_nat j))) ->
   forall fuel, _get_all_completions fuel complete text 0 [] = None).
Proof.
  split.
  - intros k fuel Hk Hsome Hfuel.
    destruct (get_all_completions_upto complete text k fuel 0 [] Hk Hsome)
      as (r & Hr & Hlen & Hnth); [lia | lia |].
    exists r. simpl in Hr. split; [exact Hr|]. split; [lia|].
    intros j Hj. apply Hnth. lia.
  - intros Hall fuel.
    assert (Hgen : forall i r,
      _get_all_completions fuel complete text (Z.of_nat i) r = None).
    { induction fuel as [|fuel IH]; intros i r; [reflexivity|].
      cbn [_get_all_completions]. destruct (Hall i) as [x ->].
      replace (Z.of_nat i + 1)%Z with (Z.of_nat (S i)) by lia. apply IH. }
    apply (Hgen 0).
Qed.

Lemma append_new_prefix aliased clean ps acc :
  acc `prefix_of` append_new aliased clean ps acc.
Proof.
  revert acc. induction ps as [|x ps IH]; intros acc; simpl; [reflexivity|].
  destruct (bool_decide _); [apply IH|].
  etransitivity; [|apply IH]. now apply prefix_app_r.
Qed.

Lemma append_new_NoDup clean ps acc :
  NoDup acc -> NoDup (append_new true clean ps acc).
Proof.
  revert acc. induction ps as [|x ps IH]; intros acc Hacc; simpl; [exact Hacc|].
  destruct (bool_decide (x ∈ acc)) eqn:Hin; [now apply IH|].
  apply IH. apply NoDup_app. split; [exact Hacc|].
  apply bool_decide_eq_false in Hin.
  split; [|apply NoDup_singleton].
  intros y Hy Hy'. apply list_elem_of_singleton in Hy'. now subst.
Qed.

(** X23: The candidates of fancycompleter come first in the merged list, in
    their order; without colours, where the list is tested as it grows,
    the merged list repeats nothing that they do not repeat. *)
Theorem merged_candidates_fancy_first (cs : completers) (fuel : nat)
    (self : Pdb) (text : str) (fancy merged : list str) :
  _get_all_completions fuel (fancy_complete cs) text 0 [] = Some fancy ->
  merge_completions cs fuel self text = Some merged ->
  fancy <> [py (String "009" EmptyString)] ->
  fancy `prefix_of` merged /\
  (use_colors self = false -> NoDup fancy -> NoDup merged).
Proof.
  intros Hfancy Hmerge Htab. unfold merge_completions in Hmerge.
  rewrite Hfancy in Hmerge. cbn [mbind option_bind] in Hmerge.
  destruct (_get_all_completions fuel (pdb_complete cs) text 0 [])
    as [from_pdb|]; [|discriminate].
  cbn [mbind option_bind] in Hmerge.
  rewrite (bool_decide_eq_false_2 _ Htab) in Hmerge. cbn [andb] in Hmerge.
  destruct (List.filter _ from_pdb) as [|p ps] eqn:Hpdb.
  - injection Hmerge as <-. split; [reflexivity | auto].
  - injection Hmerge as <-. split; [apply append_new_prefix|].
    intros Hcol Hnd. rewrite Hcol. cbn [negb]. now apply append_new_NoDup.
Qed.

Lemma merged_candidates_fancy_first_witness :
  [py "a"] `prefix_of` [py "a"; py "b"] /\
  (use_colors fresh_session = false -> NoDup [py "a"] ->
   NoDup [py "a"; py "b"]).
Proof.
  apply (merged_candidates_fancy_first ab_completers 5 fresh_session (py "x")
           [py "a"] [py "a"; py "b"]).
  - vm_compute. reflexivity.
  - vm_compute. reflexivity.
  - discriminate.
Defined.

End CandidateFacts.

(** ** Lines of a traceback *)

Section TracebackFacts.
Import Visibility Traceback.

Lemma first_at_or_before_skip l1 l2 lasti :
  Forall (fun p => (lasti < p.1)%Z) l1 ->
  first_at_or_before (l1 ++ l2) lasti = first_at_or_before l2 lasti.
Proof.
  induction 1 as [|[i ln] l1 Hlt _ IH]; [reflexivity|]. simpl in *.
  destruct (Z.geb_spec lasti i); [lia | exact IH].
Qed.

(** X24: The line of an instruction is the line of the last line start at or
    before it, and 0 when every line start lies after it. *)
Theorem lasti2lineno_last_start_before (before after : list (Z * Z))
    (i lineno lasti : Z) :
  (i <= lasti)%Z ->
  Forall (fun p => (lasti < p.1)%Z) after ->
  lasti2lineno (before ++ (i, lineno) :: after) lasti = lineno /\
  lasti2lineno after lasti = 0%Z.
Proof.
  intros Hi Hafter. unfold lasti2lineno.
  assert (Hrev : Forall (fun p => (lasti < p.1)%Z) (rev after))
    by (apply List.Forall_rev; exact Hafter).
  split.
  - rewrite rev_app_distr. simpl. rewrite <- app_assoc.
    rewrite first_at_or_before_skip by exact Hrev. simpl.
    destruct (Z.geb_spec lasti i); [reflexivity | lia].
  - rewrite <- (app_nil_r (rev after)).
    now rewrite first_at_or_before_skip.
Qed.

Lemma record_lines_other self tb k :
  Forall (fun t => f_id (tb_frame t) <> k) tb ->
  tb_lineno (record_lines self tb) !! k = tb_lineno self !! k.
Proof.
  intros Hall. revert self.
  induction Hall as [|t tb Ht _ IH]; intros self; [reflexivity|]. simpl.
  rewrite IH. simpl. now rewrite lookup_insert_ne.
Qed.

Lemma record_lines_keeps self tb :
  stack (record_lines self tb) = stack self /\
  curframe (record_lines self tb) = curframe self /\
  curindex (record_lines self tb) = curindex self /\
  fullstack (record_lines self tb) = fullstack self.
Proof.
  revert self. induction tb as [|t tb IH]; intros self; [auto|]. simpl.
  destruct (IH (set_tb_lineno self
                  (<[f_id (tb_frame t) :=
                       lasti2lineno (tb_linestarts t) (tb_lasti t)]>
                     (tb_lineno self)))) as (-> & -> & -> & ->).
  auto.
Qed.

(** X25: After [setup] the table has, for the frame of every entry of the
    traceback, the line of the last entry with that frame; the frames
    that the traceback does not have keep what the table had. *)
Theorem setup_records_traceback_lines (self : Pdb)
    (pre post : list traceback) (t : traceback) :
  Forall (fun u => f_id (tb_frame u) <> f_id (tb_frame t)) post ->
  tb_lineno (setup self false (pre ++ t :: post)).1 !! f_id (tb_frame t) =
    Some (lasti2lineno (tb_linestarts t) (tb_lasti t)) /\
  (forall k, Forall (fun u => f_id (tb_frame u) <> k) (pre ++ t :: post) ->
     tb_lineno (setup self false (pre ++ t :: post)).1 !! k =
       tb_lineno self !! k) /\
  (setup self true (pre ++ t :: post)).1 = self.
Proof.
  intros Hpost. unfold setup. simpl. split; [|split; [|reflexivity]].
  - revert self. induction pre as [|u pre IH]; intros self; simpl.
    + rewrite record_lines_other by exact Hpost. simpl.
      now rewrite lookup_insert_eq.
    + apply IH.
  - intros k Hk. now apply record_lines_other.
Qed.

Lemma lasti2lineno_last_start_before_witness :
  lasti2lineno ([(0, 1)] ++ (4, 2) :: [(10, 3)])%Z 6 = 2%Z /\
  lasti2lineno [(10, 3)%Z] 6 = 0%Z.
Proof.
  apply (lasti2lineno_last_start_before [(0, 1)%Z] [(10, 3)%Z] 4 2 6).
  - lia.
  - repeat constructor.
Defined.

Lemma setup_records_traceback_lines_witness :
  tb_lineno (setup plain_pdb false ([] ++ raised_in_A :: [])).1
    !! f_id (tb_frame raised_in_A) =
    Some (lasti2lineno (tb_linestarts raised_in_A) (tb_lasti raised_in_A)) /\
  (forall k, Forall (fun u => f_id (tb_frame u) <> k) ([] ++ raised_in_A :: []) ->
     tb_lineno (setup plain_pdb false ([] ++ raised_in_A :: [])).1 !! k =
       tb_lineno plain_pdb !! k) /\
  (setup plain_pdb true ([] ++ raised_in_A :: [])).1 = plain_pdb.
Proof.
  apply (setup_records_traceback_lines plain_pdb [] [] raised_in_A).
  constructor.
Defined.

End TracebackFacts.

(** ** The history for [put] *)

Section HistoryFacts.
Import History.

Lemma skip_keeps p s x : In x s -> p x = false -> In x (skip p s).
Proof.
  induction s as [|c t IH]; [auto|]. simpl. intros [->|Hin] Hx.
  - rewrite Hx. now left.
  - destruct (p c); [now apply IH | now right].
Qed.

Lemma skip_all p s : forallb p s = true -> skip p s = [].
Proof.
  induction s as [|c t IH]; [reflexivity|]. simpl. intros H.
  apply andb_prop in H as [-> Ht]. now apply IH.
Qed.

(** X26: What [put] will paste: the lines of the history in their order,
    without the bare names, attributes and subscripts; a line with any
    other character (a call, an assignment, an operator) is always there. *)
Theorem history_keeps_statements (history : list str) :
  sublist (_get_history history) history /\
  (forall s x, In s history -> In x s ->
     plain_char x = false -> x <> " "%char -> x <> "010"%char ->
     In s (_get_history history)) /\
  (forall s, forallb plain_char s = true -> ~ In s (_get_history history)).
Proof.
  unfold _get_history. split; [|split].
  - induction history as [|s h IH]; simpl; [constructor|].
    destruct (negb (side_effects_free s)); now constructor.
  - intros s x Hs Hx Hplain Hsp Hnl. apply List.filter_In. split; [exact Hs|].
    assert (Hblank : is_blank x = false)
      by (unfold is_blank; now apply Ascii.eqb_neq).
    pose proof (skip_keeps is_blank _ x
                  (skip_keeps plain_char _ x
                     (skip_keeps is_blank s x Hx Hblank) Hplain) Hblank) as Hin.
    unfold side_effects_free.
    destruct (skip is_blank (skip plain_char (skip is_blank s)))
      as [|c [|c' t]]; [destruct Hin | | reflexivity].
    destruct Hin as [->|[]]. apply negb_true_iff. now apply Ascii.eqb_neq.
  - intros s Hs Hin. apply List.filter_In in Hin as [_ Hfree].
    apply negb_true_iff in Hfree. unfold side_effects_free in Hfree.
    assert (Hsame : skip is_blank s = s).
    { destruct s as [|c t]; [reflexivity|]. simpl in *.
      apply andb_prop in Hs as [Hc _].
      destruct (is_blank c) eqn:Hb; [|reflexivity].
      unfold is_blank in Hb. apply Ascii.eqb_eq in Hb. subst c.
      now vm_compute in Hc. }
    rewrite Hsame, (skip_all plain_char s Hs) in Hfree. discriminate.
Qed.

End HistoryFacts.

(** ** The prompt *)

Section PromptFacts.
Import Prompt.

Lemma has_plusplus_cons x l :
  has_plusplus (x :: l) =
    match l with
    | b :: _ => Ascii.eqb x "+" && Ascii.eqb b "+"
    | [] => false
    end || has_plusplus l.
Proof. now destruct l. Qed.

Lemma has_plusplus_app_r a b :
  has_plusplus b = true -> has_plusplus (a ++ b) = true.
Proof.
  intros Hb. induction a as [|x a IH]; [exact Hb|].
  change ((x :: a) ++ b) with (x :: (a ++ b)).
  rewrite has_plusplus_cons, IH. apply orb_true_r.
Qed.

Lemma word_end_app w x tail :
  is_word x = true ->
  forallb (fun c => negb (Ascii.eqb c "010")) w = true ->
  forallb (fun c => negb (is_word c)) tail = true ->
  word_end (w ++ x :: tail) = Some (S (length w)).
Proof.
  intros Hx Hw Htail.
  assert (Hnl : Ascii.eqb x "010" = false).
  { destruct (Ascii.eqb_spec x "010") as [->|]; [now vm_compute in Hx|reflexivity]. }
  assert (Ht : word_end tail = None).
  { clear -Htail. induction tail as [|c t IH]; [reflexivity|]. simpl in *.
    apply andb_prop in Htail as [Hc Ht]. rewrite (IH Ht).
    apply negb_true_iff in Hc. rewrite Hc. now destruct (Ascii.eqb c "010"). }
  induction w as [|c w IH]; simpl in *.
  - now rewrite Hnl, Ht, Hx.
  - apply andb_prop in Hw as [Hc Hw]. apply negb_true_iff in Hc.
    now rewrite Hc, (IH Hw).
Qed.

(** X27: The setter puts ["++"] after the last word character of a one-line
    prompt that is followed by at most one character other than white
    space, as in ["(Pdb) "]; applied again it changes nothing. *)
Theorem prompt_gets_plusplus :
  (forall value, set_prompt (set_prompt value) = set_prompt value) /\
  (forall (w : str) (x : ascii) (tail : str),
     is_word x = true ->
     forallb (fun c => negb (Ascii.eqb c "010")) w = true ->
     forallb (fun c => negb (is_word c)) tail = true ->
     length (List.filter (fun c => negb (is_space c)) tail) <= 1 ->
     has_plusplus (w ++ x :: tail) = false ->
     set_prompt (w ++ x :: tail) = (w ++ [x]) ++ py "++" ++ tail).
Proof.
  split.
  - intros value.
    destruct (has_plusplus value) eqn:Hpp.
    + assert (Hv : set_prompt value = value)
        by (unfold set_prompt; now rewrite Hpp).
      now rewrite !Hv.
    + destruct (prompt_groups value) as [[g1 g2]|] eqn:Hg.
      * assert (Hv : set_prompt value = g1 ++ py "++" ++ g2)
          by (unfold set_prompt; now rewrite Hpp, Hg).
        rewrite Hv. unfold set_prompt.
        rewrite (has_plusplus_app_r g1 (py "++" ++ g2)); [reflexivity|].
        simpl. now destruct g2.
      * assert (Hv : set_prompt value = value)
          by (unfold set_prompt; now rewrite Hpp, Hg).
        now rewrite !Hv.
  - intros w x tail Hx Hw Htail Hone Hpp. unfold set_prompt, prompt_groups.
    rewrite Hpp, (word_end_app w x tail Hx Hw Htail). cbn [negb].
    replace (S (length w)) with (length (w ++ [x]))
      by (rewrite length_app; simpl; lia).
    replace (w ++ x :: tail) with ((w ++ [x]) ++ tail)
      by now rewrite <- app_assoc.
    rewrite drop_app_length, take_app_length, Htail.
    apply Nat.leb_le in Hone. now rewrite Hone.
Qed.

End PromptFacts.

(** ** The visible text of a coloured line *)

Section ColourFacts.
Import Escapes Colour.

Lemma find_m_line_find_m s i : find_m_line s = Some i -> find_m s = Some i.
Proof.
  revert i. induction s as [|c t IH]; intros i; simpl; [discriminate|].
  destruct (is_m c); [trivial|].
  destruct (Ascii.eqb c "010"); [discriminate|].
  destruct (find_m_line t) as [j|]; simpl; [|discriminate].
  intros [= <-]. now rewrite (IH j eq_refl).
Qed.

Lemma sgr_match_esc_one s n : sgr_match s = Some n -> esc_one s = Some n.
Proof.
  destruct s as [|e [|b t]]; simpl; try discriminate.
  destruct (Ascii.eqb e ESC) eqn:He; [|discriminate]. simpl.
  destruct (Ascii.eqb_spec b "[") as [->|]; [|discriminate].
  destruct (find_m_line t) as [i|] eqn:Hi; simpl; [|discriminate].
  intros [= <-]. now rewrite (find_m_line_find_m t i Hi).
Qed.

Lemma add_color_from_fuel f1 f2 color s :
  length s <= f1 -> length s <= f2 ->
  add_color_from f1 color s = add_color_from f2 color s.
Proof.
  revert f2 s. induction f1 as [|f1 IH]; intros f2 s H1 H2.
  - destruct s; [|simpl in H1; lia]. now destruct f2.
  - destruct f2 as [|f2].
    + destruct s; [reflexivity | simpl in H2; lia].
    + destruct s as [|c t]; [reflexivity|]. cbn [add_color_from].
      destruct (sgr_match (c :: t)) as [n|] eqn:Hn.
      * apply sgr_match_esc_one, esc_one_bound in Hn.
        do 4 f_equal. apply IH; rewrite length_drop; simpl in *; lia.
      * f_equal. apply IH; simpl in *; lia.
Qed.

Lemma add_color_cons color c t :
  add_color color (c :: t) =
    match sgr_match (c :: t) with
    | Some n =>
        take (n - 1) (c :: t) ++ ";"%char :: color ++ "m"%char
          :: add_color color (drop n (c :: t))
    | None => c :: add_color color t
    end.
Proof.
  unfold add_color. cbn [length add_color_from].
  destruct (sgr_match (c :: t)) as [n|] eqn:Hn; [|reflexivity].
  apply sgr_match_esc_one, esc_one_bound in Hn.
  do 4 f_equal. apply add_color_from_fuel; rewrite ?length_drop; simpl in *; lia.
Qed.

Lemma find_m_run w rest :
  no_m w -> find_m (w ++ "m"%char :: rest) = Some (length w).
Proof.
  unfold no_m. induction w as [|c w IH]; simpl; [reflexivity|]. intros H.
  apply andb_prop in H as [Hc Hw]. apply negb_true_iff in Hc.
  now rewrite Hc, (IH Hw).
Qed.

Lemma find_m_line_run w rest i :
  no_m w -> find_m_line (w ++ "m"%char :: rest) = Some i -> i = length w.
Proof.
  intros Hw Hi. apply find_m_line_find_m in Hi.
  rewrite (find_m_run w rest Hw) in Hi. congruence.
Qed.

(** An escape, taken apart and put together. *)
Lemma esc_one_shape s n :
  esc_one s = Some n ->
  exists c1 w rest,
    s = ESC :: c1 :: w ++ "m"%char :: rest /\
    is_m c1 = false /\ no_m w /\ n = length w + 3.
Proof.
  destruct s as [|e [|c1 t]]; simpl; try discriminate.
  destruct (Ascii.eqb_spec e ESC) as [->|]; [|discriminate]. simpl.
  destruct (is_m c1) eqn:Hc1; [discriminate|]. simpl.
  destruct (find_m t) as [i|] eqn:Hi; simpl; [|discriminate].
  intros [= <-]. exists c1, (take i t), (drop (S i) t).
  split; [|split; [exact Hc1|split]].
  - do 2 f_equal. clear Hc1. revert i Hi.
    induction t as [|c t IH]; intros i; simpl; [discriminate|].
    destruct (is_m c) eqn:Hc.
    + intros [= <-]. simpl. f_equal. unfold is_m in Hc.
      now apply Ascii.eqb_eq in Hc.
    + destruct (find_m t) as [j|]; simpl; [|discriminate].
      intros [= <-]. simpl. f_equal. now apply IH.
  - unfold no_m. clear Hc1. revert i Hi.
    induction t as [|c t IH]; intros i; simpl; [discriminate|].
    destruct (is_m c) eqn:Hc.
    + intros [= <-]. reflexivity.
    + destruct (find_m t) as [j|]; simpl; [|discriminate].
      intros [= <-]. simpl. rewrite Hc. simpl. now apply IH.
  - apply find_m_bound in Hi. rewrite length_take. lia.
Qed.

Lemma esc_one_build c1 w rest :
  is_m c1 = false -> no_m w ->
  esc_one (ESC :: c1 :: w ++ "m"%char :: rest) = Some (length w + 3).
Proof.
  intros Hc1 Hw. unfold esc_one. rewrite Ascii.eqb_refl, Hc1. simpl.
  now rewrite (find_m_run w rest Hw).
Qed.

Lemma escape_absorbed c1 w :
  is_m c1 = false -> no_m w -> absorbed (ESC :: c1 :: w ++ [ "m"%char ]).
Proof.
  intros Hc1 Hw.
  pose proof (esc_one_absorbed _ _ (esc_one_build c1 w [] Hc1 Hw)) as H.
  rewrite take_ge in H; [exact H|]. simpl. rewrite length_app. simpl. lia.
Qed.

Lemma no_m_app a b : no_m a -> no_m b -> no_m (a ++ b).
Proof. unfold no_m. intros Ha Hb. now rewrite forallb_app, Ha, Hb. Qed.

(** Inside a run without ["m"] that an ["m"] ends, the substitution adds
    the colour before that ["m"], or nothing. *)
Lemma add_color_run color w rest :
  no_m w ->
  exists ins,
    add_color color (w ++ "m"%char :: rest) =
      w ++ ins ++ "m"%char :: add_color color rest /\
    (ins = [] \/ ins = ";"%char :: color).
Proof.
  induction w as [|x w IH]; intros Hw.
  - exists []. split; [|now left]. cbn [app]. rewrite add_color_cons.
    now destruct rest.
  - assert (Hw' : no_m w).
    { unfold no_m in *. simpl in Hw. now apply andb_prop in Hw as [_ ?]. }
    change ((x :: w) ++ "m"%char :: rest) with (x :: w ++ "m"%char :: rest).
    rewrite add_color_cons.
    destruct (sgr_match (x :: w ++ "m"%char :: rest)) as [n|] eqn:Hn.
    + exists (";"%char :: color). split; [|now right].
      destruct w as [|b u].
      { cbn [app sgr_match] in Hn. change (Ascii.eqb "m" "[") with false in Hn.
        rewrite andb_false_r in Hn. discriminate. }
      cbn [app sgr_match] in Hn.
      destruct (Ascii.eqb x ESC && Ascii.eqb b "["); [|discriminate].
      destruct (find_m_line (u ++ "m"%char :: rest)) as [i|] eqn:Hi;
        [|discriminate].
      assert (Hu : no_m u).
      { unfold no_m in *. simpl in Hw'. now apply andb_prop in Hw' as [_ ?]. }
      pose proof (find_m_line_run u rest i Hu Hi) as ->.
      injection Hn as <-.
      replace (length u + 3 - 1) with (length (x :: b :: u)) by (simpl; lia).
      replace (length u + 3) with (length (x :: b :: u ++ [ "m"%char ]))
        by (simpl; rewrite length_app; simpl; lia).
      change (x :: (b :: u) ++ "m"%char :: rest)
        with ((x :: b :: u) ++ "m"%char :: rest).
      rewrite take_app_length.
      replace ((x :: b :: u) ++ "m"%char :: rest)
        with ((x :: b :: u ++ [ "m"%char ]) ++ rest)
        by (simpl; now rewrite <- app_assoc).
      rewrite drop_app_length. simpl. reflexivity.
    + destruct (IH Hw') as (ins & -> & Hins). exists ins. auto.
Qed.

Lemma escapes_closed_suffix a b : escapes_closed (a ++ b) -> escapes_closed b.
Proof.
  intros H pre post ->. apply (H (a ++ pre) post). now rewrite app_assoc.
Qed.

Lemma elem_of_split_m (post : str) :
  "m"%char ∈ post -> exists w rest, post = w ++ "m"%char :: rest /\ no_m w.
Proof.
  induction post as [|c t IH]; intros Hin; [inversion Hin|].
  destruct (is_m c) eqn:Hc.
  - exists [], t. unfold is_m in Hc. apply Ascii.eqb_eq in Hc. now subst.
  - destruct IH as (w & rest & -> & Hw).
    { inversion Hin; subst; [now vm_compute in Hc | assumption]. }
    exists (c :: w), rest. split; [reflexivity|].
    unfold no_m in *. simpl. now rewrite Hc.
Qed.

Lemma escapes_closed_nil : escapes_closed [].
Proof. intros pre post H. destruct pre; discriminate H. Qed.

Lemma escapes_closed_cons c t :
  (c = ESC -> "m"%char ∈ t) -> escapes_closed t -> escapes_closed (c :: t).
Proof.
  intros Hc Ht pre post Heq. destruct pre as [|p pre].
  - injection Heq as -> ->. now apply Hc.
  - injection Heq as _ Heq. exact (Ht pre post Heq).
Qed.

Lemma clear_absorbed : absorbed clear_seq.
Proof. apply (escape_absorbed "["%char (py "00")); reflexivity. Qed.

Lemma add_color_keeps_visible color line :
  no_m color -> escapes_closed line ->
  color_sub (add_color color line ++ clear_seq) = color_sub line.
Proof.
  intros Hcolor. remember (length line) as k eqn:Hk. revert line Hk.
  induction k as [k IH] using lt_wf_ind. intros line Hk Hclosed.
  destruct line as [|c t].
  { change (add_color color []) with (@nil ascii). simpl app.
    rewrite (absorbed_sub _ clear_absorbed). reflexivity. }
  destruct (esc_one (c :: t)) as [n|] eqn:Hesc.
  - destruct (esc_one_shape _ _ Hesc) as (c1 & w & rest & Heq & Hc1 & Hw & ->).
    rewrite Heq in *.
    assert (Hrun : no_m (ESC :: c1 :: w)).
    { unfold no_m in *. simpl. now rewrite Hc1, Hw. }
    destruct (add_color_run color (ESC :: c1 :: w) rest Hrun)
      as (ins & Hadd & Hins).
    change ((ESC :: c1 :: w) ++ "m"%char :: rest)
      with (ESC :: c1 :: w ++ "m"%char :: rest) in Hadd.
    rewrite Hadd.
    assert (Hins' : no_m ins).
    { destruct Hins as [->| ->]; [reflexivity|].
      unfold no_m in *. simpl. exact Hcolor. }
    replace (((ESC :: c1 :: w) ++ ins ++ "m"%char :: add_color color rest)
             ++ clear_seq)
      with ((ESC :: c1 :: (w ++ ins) ++ [ "m"%char ])
            ++ (add_color color rest ++ clear_seq))
      by (simpl; rewrite <- !app_assoc; simpl; reflexivity).
    rewrite (escape_absorbed c1 (w ++ ins) Hc1 (no_m_app _ _ Hw Hins')).
    replace (ESC :: c1 :: w ++ "m"%char :: rest)
      with ((ESC :: c1 :: w ++ [ "m"%char ]) ++ rest)
      by (simpl; rewrite <- !app_assoc; simpl; reflexivity).
    rewrite (escape_absorbed c1 w Hc1 Hw).
    apply (IH (length rest)); [|reflexivity|].
    + subst k. simpl. rewrite length_app. simpl. lia.
    + replace (ESC :: c1 :: w ++ "m"%char :: rest)
        with ((ESC :: c1 :: w ++ [ "m"%char ]) ++ rest) in Hclosed
        by (simpl; rewrite <- !app_assoc; simpl; reflexivity).
      now apply escapes_closed_suffix in Hclosed.
  - assert (Hnone : sgr_match (c :: t) = None).
    { destruct (sgr_match (c :: t)) as [n|] eqn:Hn; [|reflexivity].
      apply sgr_match_esc_one in Hn. congruence. }
    rewrite add_color_cons, Hnone.
    change ((c :: add_color color t) ++ clear_seq)
      with (c :: (add_color color t ++ clear_seq)).
    assert (Ht : escapes_closed t)
      by (apply (escapes_closed_suffix [c]); exact Hclosed).
    assert (Hesc' : esc_one (c :: add_color color t ++ clear_seq) = None).
    { destruct (Ascii.eqb_spec c ESC) as [->|Hne].
      - pose proof (Hclosed [] t eq_refl) as Hm.
        destruct (elem_of_split_m t Hm) as (w & rest & -> & Hw).
        destruct w as [|c1 w].
        + cbn [app]. rewrite add_color_cons.
          now destruct rest.
        + exfalso. assert (Hc1 : is_m c1 = false).
          { unfold no_m in Hw. simpl in Hw.
            apply andb_prop in Hw as [H _]. now apply negb_true_iff in H. }
          assert (Hw' : no_m w).
          { unfold no_m in *. simpl in Hw. now apply andb_prop in Hw as [_ ?]. }
          change (ESC :: (c1 :: w) ++ "m"%char :: rest)
            with (ESC :: c1 :: w ++ "m"%char :: rest) in Hesc.
          rewrite (esc_one_build c1 w rest Hc1 Hw') in Hesc. discriminate.
      - unfold esc_one. destruct (add_color color t ++ clear_seq); [reflexivity|].
        apply Ascii.eqb_neq in Hne. now rewrite Hne. }
    rewrite !color_sub_strip, !strip_cons, Hesc, Hesc', <- !color_sub_strip.
    f_equal. apply (IH (length t)); [subst k; simpl; lia | reflexivity | exact Ht].
Qed.

(** X28: Outside of Emacs' terminal, colouring a line changes nothing of its
    visible text: for a colour without ["m"] and without a backslash, and a
    line in which every [ESC] has an ["m"] somewhere after it, removing
    the colour escapes from [set_color line color] gives what removing
    them from [line] gives. *)
Theorem set_color_keeps_visible_text (term : option str) (line color : str) :
  term <> Some (py "eterm-color") ->
  "m"%char ∉ color -> "\"%char ∉ color ->
  escapes_closed line ->
  color_sub (set_color term line color) = color_sub line.
Proof.
  intros Hterm Hm _ Hclosed. unfold set_color.
  rewrite (bool_decide_eq_false_2 _ Hterm).
  assert (Hcolor : no_m color).
  { unfold no_m. apply forallb_forall. intros c Hc.
    apply negb_true_iff. destruct (is_m c) eqn:Hc'; [|reflexivity].
    unfold is_m in Hc'. apply Ascii.eqb_eq in Hc'. subst c.
    exfalso. apply Hm. now apply list_elem_of_In. }
  replace (ESC :: "["%char :: color ++ py "m")
    with (ESC :: "["%char :: color ++ [ "m"%char ]) by reflexivity.
  change ((ESC :: "["%char :: color ++ [ "m"%char ]) ++
          add_color color line ++ ESC :: py "[00m")
    with ((ESC :: "["%char :: color ++ [ "m"%char ]) ++
          (add_color color line ++ clear_seq)).
  rewrite (escape_absorbed "["%char color eq_refl Hcolor).
  now apply add_color_keeps_visible.
Qed.

Lemma set_color_keeps_visible_text_witness :
  color_sub (set_color None ab_red_cd (py "39;49;7")) = color_sub ab_red_cd.
Proof.
  apply (set_color_keeps_visible_text None ab_red_cd (py "39;49;7")).
  - discriminate.
  - intros Hin. apply list_elem_of_In in Hin. simpl in Hin.
    repeat destruct Hin as [Hin|Hin]; try discriminate Hin. destruct Hin.
  - intros Hin. apply list_elem_of_In in Hin. simpl in Hin.
    repeat destruct Hin as [Hin|Hin]; try discriminate Hin. destruct Hin.
  - unfold ab_red_cd. cbn [py list_ascii_of_string app].
    repeat (apply escapes_closed_cons;
            [intros Hesc; first [discriminate Hesc
                               | apply list_elem_of_In; simpl; auto 10] |]).
    apply escapes_closed_nil.
Defined.

End ColourFacts.

(** ** A listing fits the terminal *)

Section PrintingFacts.
Import Escapes Listing Colour Printing.

Variable color_set : str -> str -> str.
Variable format_lines : list str -> list str.

Lemma color_sub_plain pre t :
  plain pre -> color_sub (pre ++ t) = pre ++ color_sub t.
Proof.
  induction 1 as [|c pre Hc Hpre IH]; [reflexivity|].
  change ((c :: pre) ++ t) with (c :: pre ++ t).
  rewrite color_sub_strip, strip_cons.
  assert (Hnone : esc_one (c :: pre ++ t) = None).
  { unfold esc_one. destruct (pre ++ t); [reflexivity|].
    apply Ascii.eqb_neq in Hc. now rewrite Hc. }
  rewrite Hnone, <- color_sub_strip, IH. reflexivity.
Qed.

Lemma digit_plain d : (0 <= d < 10)%Z -> digit d <> ESC.
Proof.
  intros Hd.
  assert (Hc : (d = 0 \/ d = 1 \/ d = 2 \/ d = 3 \/ d = 4 \/ d = 5 \/ d = 6
                \/ d = 7 \/ d = 8 \/ d = 9)%Z) by lia.
  repeat (destruct Hc as [->|Hc]; [discriminate|]). subst. discriminate.
Qed.

Lemma digits_from_plain fuel n : (0 <= n)%Z -> plain (digits_from fuel n).
Proof.
  revert n. induction fuel as [|fuel IH]; intros n Hn; [constructor|].
  cbn [digits_from]. destruct (Z.ltb_spec n 10).
  - constructor; [apply digit_plain; lia | constructor].
  - apply Forall_app. split.
    + apply IH. apply Z.div_pos; lia.
    + constructor; [|constructor]. apply digit_plain.
      apply Z.mod_pos_bound. lia.
Qed.

Lemma str_of_int_plain z : (0 <= z)%Z -> plain (str_of_int z).
Proof.
  intros Hz. unfold str_of_int. destruct (Z.ltb_spec z 0); [lia|].
  now apply digits_from_plain.
Qed.

Lemma digits_from_length_mono fa fb a b :
  (0 <= a <= b)%Z -> Z.to_nat a < fa -> Z.to_nat b < fb ->
  length (digits_from fa a) <= length (digits_from fb b).
Proof.
  revert fb a b. induction fa as [|fa IH]; intros fb a b Hab Ha Hb; [lia|].
  destruct fb as [|fb]; [lia|]. cbn [digits_from].
  destruct (Z.ltb_spec a 10) as [Ha10|Ha10].
  - destruct (Z.ltb_spec b 10); [reflexivity|].
    rewrite length_app. simpl. lia.
  - destruct (Z.ltb_spec b 10) as [Hb10|Hb10]; [lia|].
    rewrite !length_app. simpl.
    assert (a / 10 <= b / 10)%Z by (apply Z.div_le_mono; lia).
    assert (0 <= a / 10)%Z by (apply Z.div_pos; lia).
    assert (a / 10 < a)%Z by (apply Z.div_lt; lia).
    assert (b / 10 < b)%Z by (apply Z.div_lt; lia).
    specialize (IH fb (a / 10)%Z (b / 10)%Z). lia.
Qed.

Lemma str_of_int_length_mono a b :
  (0 <= a <= b)%Z -> (len (str_of_int a) <= len (str_of_int b))%Z.
Proof.
  intros Hab. unfold str_of_int, len.
  destruct (Z.ltb_spec a 0); [lia|]. destruct (Z.ltb_spec b 0); [lia|].
  apply Nat2Z.inj_le, digits_from_length_mono; lia.
Qed.

Lemma digits_from_length_le fuel n k :
  (0 <= n < 10 ^ Z.of_nat (S k))%Z -> length (digits_from fuel n) <= S k.
Proof.
  revert n k. induction fuel as [|fuel IH]; intros n k Hn; [simpl; lia|].
  cbn [digits_from]. destruct (Z.ltb_spec n 10) as [H10|H10]; [simpl; lia|].
  rewrite length_app. simpl.
  destruct k as [|k]; [simpl in Hn; lia|].
  assert (n / 10 < 10 ^ Z.of_nat (S k))%Z.
  { apply Z.div_lt_upper_bound; [lia|].
    replace (Z.of_nat (S (S k))) with (Z.succ (Z.of_nat (S k))) in Hn by lia.
    rewrite Z.pow_succ_r in Hn by lia. lia. }
  assert (0 <= n / 10)%Z by (apply Z.div_pos; lia).
  specialize (IH (n / 10)%Z k). lia.
Qed.

Lemma str_of_int_four n :
  (0 <= n < 10000)%Z -> (len (str_of_int n) <= 4)%Z.
Proof.
  intros Hn. unfold str_of_int, len. destruct (Z.ltb_spec n 0); [lia|].
  pose proof (digits_from_length_le (S (Z.to_nat n)) n 3) as Hfour.
  change (10 ^ Z.of_nat 4)%Z with 10000%Z in Hfour. lia.
Qed.

Lemma rjust_length x w : (len x <= w)%Z -> len (rjust x w) = w.
Proof.
  unfold rjust, len. intros H. rewrite length_app, length_replicate. lia.
Qed.

Lemma rjust_plain x w : plain x -> plain (rjust x w).
Proof.
  intros Hx. apply Forall_app. split; [|exact Hx].
  apply Forall_forall. intros c Hc. apply elem_of_replicate in Hc as [-> _].
  discriminate.
Qed.

Lemma marker_of_cases f e k :
  marker_of f e k = py "->" \/ marker_of f e k = py ">>"
  \/ marker_of f e k = [].
Proof.
  unfold marker_of. destruct (_ =? _)%Z; [now left|].
  destruct (bool_decide _); auto.
Qed.

(** Without highlighting, a formatted line shows the number in its column,
    five more characters, and what the line shows. *)
Lemma format_line_shows p k marker line w :
  highlight p = false -> (0 <= k)%Z -> (len (str_of_int k) <= w)%Z ->
  marker = py "->" \/ marker = py ">>" \/ marker = [] ->
  len (color_sub (_format_line color_set p k marker line w))
  = (w + 5 + len (color_sub line))%Z.
Proof.
  intros Hh Hk Hw Hm. unfold _format_line. rewrite Hh.
  assert (Hpre : plain (rjust (str_of_int k) w ++ py "  "
                        ++ rjust marker 2 ++ [ " "%char ])).
  { apply Forall_app. split; [apply rjust_plain, str_of_int_plain, Hk|].
    apply Forall_app. split; [repeat constructor; discriminate|].
    apply Forall_app. split; [|repeat constructor; discriminate].
    apply rjust_plain.
    destruct Hm as [->|[->| ->]]; repeat constructor; discriminate. }
  replace (rjust (str_of_int k) w ++ py "  " ++ rjust marker 2
           ++ " "%char :: line)
    with ((rjust (str_of_int k) w ++ py "  " ++ rjust marker 2
           ++ [ " "%char ]) ++ line)
    by (rewrite <- !app_assoc; reflexivity).
  rewrite (color_sub_plain _ line Hpre).
  unfold len. rewrite !length_app.
  pose proof (rjust_length (str_of_int k) w Hw) as H1.
  assert (H2 : len (rjust marker 2) = 2%Z).
  { apply rjust_length. destruct Hm as [->|[->| ->]]; vm_compute; congruence. }
  unfold len in H1, H2. simpl. lia.
Qed.

Lemma truncate_shows s maxlength :
  (0 <= maxlength)%Z ->
  exists ret, _truncate_to_visible_length s maxlength = Ok ret /\
              (len (color_sub ret) <= maxlength)%Z.
Proof.
  intros Hmax. unfold _truncate_to_visible_length.
  pose proof (finditer_spans s) as Hspans.
  destruct (finditer s) as [|m ms] eqn:Hms.
  - eexists. split; [reflexivity|].
    apply Z.le_trans with (len (slice_to s maxlength));
      [apply Nat2Z.inj_le, color_sub_le | now apply length_slice_to_le].
  - rewrite <- Hms in *.
    destruct (truncate_loop_bound s maxlength (finditer s) [] 0 0 0 Hspans)
      as (ret & Hloop & Hshows); [lia | lia | right; split; [lia|] | |].
    { rewrite Hms. discriminate. }
    { intros t. simpl. lia. }
    rewrite Hloop. simpl.
    pose proof (keep_reset_shows s ret (finditer s) 0 maxlength Hspans Hshows)
      as Hfinal.
    specialize (Hfinal []). rewrite app_nil_r, color_sub_nil in Hfinal.
    change (len []) with 0%Z in Hfinal.
    destruct (Z.leb_spec (len (color_sub (keep_reset s ret (finditer s))))
                maxlength) as [Hle|Hgt]; [|lia].
    eexists. split; [reflexivity | exact Hle].
Qed.

Lemma truncate_all_shows lines maxlength :
  (0 <= maxlength)%Z ->
  exists out, truncate_all lines maxlength = Ok out /\
    length out = length lines /\
    Forall (fun l => (len (color_sub l) <= maxlength)%Z) out.
Proof.
  intros Hmax. induction lines as [|line lines (out & Hout & Hlen & Hall)].
  - exists []. repeat split. constructor.
  - destruct (truncate_shows line maxlength Hmax) as (ret & Hret & Hle).
    exists (ret :: out). cbn [truncate_all]. rewrite Hret, Hout.
    repeat split; [simpl; lia | now constructor].
Qed.

Lemma enumerate_entries {A} (l : list A) (start : Z) :
  Forall (fun p => (start <= p.1 < start + len l)%Z /\ p.2 ∈ l)
    (enumerate l start).
Proof.
  revert start. induction l as [|a l IH]; intros start; [constructor|].
  cbn [enumerate]. constructor.
  - simpl. unfold len. cbn [length]. split; [lia | left].
  - eapply Forall_impl; [apply IH|]. intros [k x] [Hk Hx]. simpl in *.
    unfold len in *. cbn [length]. split; [lia | now right].
Qed.

Lemma numbered_entries lines lineno :
  Forall (entry_of lines lineno) (numbered lines lineno).
Proof.
  unfold numbered. apply Forall_map.
  eapply Forall_impl; [apply enumerate_entries|].
  intros [k x] [Hk Hx]. right. exists k, x. auto.
Qed.

Lemma entry_of_weaken lines lines' lineno lineno' y :
  (lineno <= lineno')%Z -> (lineno' + len lines' <= lineno + len lines)%Z ->
  (forall l, l ∈ lines' -> l ∈ lines) ->
  entry_of lines' lineno' y -> entry_of lines lineno y.
Proof.
  intros H1 H2 Hsub [->|(k & line & -> & Hk & Hin)]; [now left|].
  right. exists k, line. split; [reflexivity|]. split; [lia | auto].
Qed.

Lemma cut_loop_entries lineno n i rest cb ca :
  Forall (entry_of rest (lineno + i)) (cut_loop lineno n i rest cb ca).1.
Proof.
  revert i cb. induction rest as [|line rest IH]; intros i cb; [constructor|].
  assert (Hnext : forall cb',
    Forall (entry_of (line :: rest) (lineno + i))
      (cut_loop lineno n (i + 1) rest cb' ca).1).
  { intros cb'. eapply Forall_impl; [apply IH|]. intros y.
    apply entry_of_weaken; [lia | unfold len; cbn [length]; lia |].
    intros l Hl. now right. }
  cbn [cut_loop]. destruct (negb (cb =? 0)%Z).
  - destruct (cb - 1 =? 0)%Z.
    + specialize (Hnext (cb - 1)%Z).
      destruct (cut_loop lineno n (i + 1) rest (cb - 1) ca) as [ys r].
      constructor; [now left | exact Hnext].
    + destruct (cb - 1 >? 0)%Z; [apply Hnext | constructor].
  - destruct (negb (ca =? 0)%Z && (i >=? n - ca)%Z).
    + constructor; [now left | constructor].
    + specialize (Hnext cb).
      destruct (cut_loop lineno n (i + 1) rest cb ca) as [ys r].
      constructor; [|exact Hnext].
      right. exists (lineno + i)%Z, line. split; [reflexivity|].
      unfold len. cbn [length]. split; [lia | left].
Qed.

Lemma index_elem_of {A} (l : list A) (i : Z) (a : A) :
  index l i = Ok a -> a ∈ l.
Proof.
  unfold index. cbv zeta.
  destruct (_ <? 0)%Z; [discriminate|].
  destruct (nth_error l _) as [x|] eqn:Hn; [|discriminate].
  intros [= <-]. apply list_elem_of_In. eapply nth_error_In, Hn.
Qed.

Lemma cut_lines_entries self lines lineno max_lines :
  Forall (entry_of lines lineno) (_cut_lines self lines lineno max_lines).1.
Proof.
  unfold _cut_lines. cbv zeta.
  destruct (_ <=? _)%Z; [apply numbered_entries|].
  destruct (count_keep_head lines 0) as [keep_head|e] eqn:Hkh; [|constructor].
  apply count_keep_head_bound in Hkh.
  set (cutoff := (len lines - effective_max_lines lines max_lines)%Z).
  assert (Htop : forall top c,
    keep_top lines lineno keep_head cutoff = Ok (top, c) ->
    Forall (entry_of lines lineno) top).
  { unfold keep_top. intros top c. destruct (_ >? 3)%Z eqn:H3.
    - destruct (index lines 0) as [first|] eqn:Hf; [|discriminate].
      destruct (index lines (keep_head - 1)) as [lk|] eqn:Hl; [|discriminate].
      intros [= <- <-]. apply index_elem_of in Hf, Hl.
      apply Z.gtb_lt in H3.
      constructor; [|constructor; [|constructor; [|constructor]]].
      + right. exists lineno, first. repeat split; [lia | lia | exact Hf].
      + now left.
      + right. exists (lineno + keep_head)%Z, lk.
        repeat split; [lia | lia | exact Hl].
    - intros [= <- <-]. eapply Forall_impl; [apply numbered_entries|].
      intros y. apply entry_of_weaken; [lia | |].
      + pose proof (length_slice_to_le lines keep_head). lia.
      + intros l Hl. unfold slice_to in Hl.
        eapply elem_of_sublist; [exact Hl | apply sublist_take]. }
  destruct (keep_top lines lineno keep_head cutoff) as [[top c]|e] eqn:Hkt;
    [|constructor].
  specialize (Htop top c eq_refl).
  destruct (curframe self) as [f|]; [|exact Htop].
  match goal with
  | |- context [cut_loop ?a ?b ?c ?d ?e ?g] =>
      pose proof (cut_loop_entries a b c d e g) as Hloop;
      destruct (cut_loop a b c d e g) as [ys r]
  end.
  apply Forall_app. split; [exact Htop|].
  eapply Forall_impl; [exact Hloop|]. intros y.
  apply entry_of_weaken; [lia | |].
  - rewrite len_slice_from by lia. lia.
  - intros l Hl. unfold slice_from in Hl.
    eapply elem_of_sublist; [exact Hl | apply sublist_drop].
Qed.

Lemma marked_lines_show p w exc ys out m lines lineno :
  highlight p = false -> (0 <= lineno)%Z ->
  (len (str_of_int (lineno + len lines)) <= w)%Z ->
  Forall (fun l => (len (color_sub l) <= m)%Z) lines ->
  Forall (entry_of lines lineno) ys ->
  marked_lines color_set p w exc false ys = Ok out ->
  Forall (fun l => (len (color_sub l) <= Z.max 3 (w + 5 + m))%Z) out.
Proof.
  intros Hh Hlineno Hw Hlines Hys. revert out.
  induction Hys as [|y ys Hy Hys IH]; intros out.
  - intros [= <-]. constructor.
  - destruct Hy as [->|(k & line & -> & Hk & Hin)];
      unfold ellipsis; cbn [marked_lines].
    + destruct (marked_lines color_set p w exc false ys) as [rest|];
        [|discriminate].
      intros [= <-]. constructor; [|now apply IH].
      match goal with
      | |- (len (color_sub ?l) <= _)%Z =>
          assert (H3 : len (color_sub l) = 3%Z) by (vm_compute; reflexivity);
          rewrite H3
      end. lia.
    + destruct (curframe (dbg p)) as [f|]; [|discriminate].
      rewrite andb_false_r.
      destruct (marked_lines color_set p w exc false ys) as [rest|];
        [|discriminate].
      intros [= <-]. constructor; [|now apply IH].
      rewrite format_line_shows;
        [| exact Hh | lia | | apply marker_of_cases].
      * rewrite Forall_forall in Hlines. specialize (Hlines line Hin). lia.
      * etransitivity; [|exact Hw]. apply str_of_int_length_mono. lia.
Qed.

Lemma plain_lines_show p w lineno lines m top :
  highlight p = false -> (0 <= lineno)%Z ->
  (lineno + len lines <= top)%Z -> (len (str_of_int top) <= w)%Z ->
  Forall (fun l => (len (color_sub l) <= m)%Z) lines ->
  Forall (fun l => (len (color_sub l) <= w + 5 + m)%Z)
    (plain_lines color_set p w lineno lines).
Proof.
  intros Hh Hlineno Htop Hw Hlines. revert lineno Hlineno Htop.
  induction Hlines as [|line lines Hline Hlines IH]; intros lineno Hlineno Htop;
    cbn [plain_lines]; [constructor|].
  unfold len in Htop. cbn [length] in Htop.
  constructor.
  - rewrite format_line_shows; [lia | exact Hh | lia | | auto].
    etransitivity; [|exact Hw]. apply str_of_int_length_mono. lia.
  - apply IH; [lia | unfold len; lia].
Qed.

Lemma length_plain_lines p w lineno lines :
  length (plain_lines color_set p w lineno lines) = length lines.
Proof.
  revert lineno. induction lines as [|l lines IH]; intros lineno;
    [reflexivity|]. cbn [plain_lines length]. now rewrite IH.
Qed.

(** X29: With truncation on and highlighting off, on a terminal of at least 25
    columns and with line numbers below 10000, no line of a listing shows
    more characters than the terminal is wide; and a listing without
    markers has one line for each line of the source. *)
Theorem listing_fits_the_terminal (p : printer) (lines : list str)
    (lineno : Z) (print_markers : bool) (max_lines : option Z) :
  highlight p = false -> truncate_long_lines p = true ->
  (0 <= lineno)%Z ->
  (lineno + len (prepare format_lines p lines) < 10000)%Z ->
  (25 <= terminal_width p)%Z ->
  (print_markers = false ->
   exists out,
     _print_lines_pdbpp color_set format_lines p lines lineno false max_lines
       = Ok out /\
     length out = length (prepare format_lines p lines)) /\
  (forall out,
     _print_lines_pdbpp color_set format_lines p lines lineno print_markers
       max_lines = Ok out ->
     Forall (fun l => (len (color_sub l) <= terminal_width p)%Z) out).
Proof.
  intros Hh Htr Hlineno Hmany Hwidth.
  unfold _print_lines_pdbpp. cbv zeta. rewrite Htr.
  set (prepared := prepare format_lines p lines) in *.
  set (m := Z.max (terminal_width p - 9) 16).
  destruct (truncate_all_shows prepared m) as (cut & Hcut & Hlen & Hall);
    [lia|].
  rewrite Hcut. cbn [mbind outcome_bind].
  assert (Hsame : len cut = len prepared) by (unfold len; lia).
  rewrite Hsame.
  assert (Hw : (len (str_of_int (lineno + len prepared)) <= 4)%Z)
    by (apply str_of_int_four; unfold len in *; lia).
  split.
  - intros _. eexists. split; [reflexivity|].
    now rewrite length_plain_lines.
  - intros out. destruct print_markers.
    + rewrite Hh. cbn [andb].
      pose proof (cut_lines_entries (dbg p) cut lineno max_lines) as Hys.
      destruct (_cut_lines (dbg p) cut lineno max_lines) as [ys r].
      cbn [fst] in Hys.
      destruct (marked_lines color_set p _ _ false ys) as [new_lines|] eqn:Hml;
        [|discriminate].
      cbn [mbind outcome_bind]. destruct r as [[]|]; [|discriminate].
      intros [= <-].
      eapply Forall_impl.
      * eapply (marked_lines_show p _ _ ys new_lines m cut lineno);
          [exact Hh | exact Hlineno | | exact Hall | exact Hys | exact Hml].
        rewrite Hsame. reflexivity.
      * intros l Hl. cbv beta in Hl. lia.
    + intros [= <-]. eapply Forall_impl.
      * apply (plain_lines_show p _ lineno cut m (lineno + len prepared));
          [exact Hh | exact Hlineno | lia | reflexivity | exact Hall].
      * intros l Hl. cbv beta in Hl. lia.
Qed.

End PrintingFacts.

Section PrintingExamples.
Import Escapes Listing Colour Printing.

Lemma listing_fits_the_terminal_witness :
  (true = false ->
   exists out,
     _print_lines_pdbpp (fun _ s => s) (fun l => l) plain_printer long_lines
       2 false None = Ok out /\
     length out = length (prepare (fun l => l) plain_printer long_lines)) /\
  (forall out,
     _print_lines_pdbpp (fun _ s => s) (fun l => l) plain_printer long_lines
       2 true None = Ok out ->
     Forall (fun l => (len (color_sub l) <= terminal_width plain_printer)%Z)
       out).
Proof.
  apply (listing_fits_the_terminal (fun _ s => s) (fun l => l) plain_printer
           long_lines 2 true None).
  - reflexivity.
  - reflexivity.
  - lia.
  - vm_compute. reflexivity.
  - vm_compute. intros H. discriminate H.
Defined.

End PrintingExamples.
